(** * PDS scoring: background analyzer, scoring entry point, field validation

    A shallow embedding of the candidate-assessment code of the repository:

    - [PDSScoringComparisonTest.analyze_pds_background] and
      [PDSScoringComparisonTest.calculate_score]
      (temp_pds_scoring_comparison_test.py), over a model of the Python
      values a personal-data-sheet record is made of;
    - the field validators and the scoring engine, which live in
      improved_pds_extractor.py and assessment_engine.py and are described
      by the design document only. *)

From Stdlib Require Import List String Ascii ZArith Bool Arith Lia.
From Stdlib Require Import QArith Qround Qabs Lqa.
From Stdlib Require Import DecimalString Permutation.
Import ListNotations.

Local Open Scope nat_scope.
Local Open Scope string_scope.
Local Open Scope list_scope.

(* ===================================================================== *)
(** ** Python values *)
(* ===================================================================== *)

Module Py.

(** The values a record decoded from a spreadsheet or from JSON is made of.
    A [dict] keeps its items in insertion order; its keys are strings and
    occur once.  Exact rationals stand in for binary floats. *)
#[warnings="-register-all"] Inductive pyval : Type :=
| PNone
| PBool (b : bool)
| PInt (z : Z)
| PFloat (q : Q)
| PStr (s : string)
| PList (items : list pyval)
| PDict (items : list (string * pyval)).

(** Exception classes.  [ExceptionSubclass] is any other class derived from
    [Exception]; [BaseOnly] is a class derived from [BaseException] alone
    (KeyboardInterrupt, SystemExit, GeneratorExit). *)
Inductive exc_class : Type :=
| KeyError
| TypeError
| AttributeError
| ExceptionSubclass (name : string)
| BaseOnly (name : string).

(** A raised exception: its class and [str(e)]. *)
Record exn : Type := mk_exn { exc_cls : exc_class; exc_str : string }.

Definition is_Exception (e : exn) : bool :=
  match exc_cls e with
  | BaseOnly _ => false
  | _ => true
  end.

Inductive result (A : Type) : Type :=
| Ok (a : A)
| Raise (e : exn).
Arguments Ok {A} a.
Arguments Raise {A} e.

Definition bind {A B : Type} (m : result A) (k : A -> result B) : result B :=
  match m with
  | Ok a => k a
  | Raise e => Raise e
  end.

(** [try: body except Exception as e: handler(e)] *)
Definition try_except {A : Type} (body : result A) (handler : exn -> result A)
  : result A :=
  match body with
  | Ok a => Ok a
  | Raise e => if is_Exception e then handler e else Raise e
  end.

(** [for x in xs: body], threading the mutated state. *)
Fixpoint for_each {A S : Type} (xs : list A) (body : A -> S -> result S) (s : S)
  : result S :=
  match xs with
  | [] => Ok s
  | x :: rest => bind (body x s) (for_each rest body)
  end.

(** [bool(v)] *)
Definition truthy (v : pyval) : bool :=
  match v with
  | PNone => false
  | PBool b => b
  | PInt z => negb (Z.eqb z 0)
  | PFloat q => negb (Qeq_bool q 0)
  | PStr s => negb (String.eqb s "")
  | PList l => match l with [] => false | _ => true end
  | PDict d => match d with [] => false | _ => true end
  end.

Definition type_name (v : pyval) : string :=
  match v with
  | PNone => "NoneType"
  | PBool _ => "bool"
  | PInt _ => "int"
  | PFloat _ => "float"
  | PStr _ => "str"
  | PList _ => "list"
  | PDict _ => "dict"
  end.

Fixpoint lookup (k : string) (d : list (string * pyval)) : option pyval :=
  match d with
  | [] => None
  | (k', v) :: rest => if String.eqb k k' then Some v else lookup k rest
  end.

Fixpoint str_contains (needle hay : string) : bool :=
  if String.prefix needle hay then true
  else match hay with
       | EmptyString => false
       | String _ rest => str_contains needle rest
       end.

Definition is_str (s : string) (v : pyval) : bool :=
  match v with
  | PStr t => String.eqb s t
  | _ => false
  end.

(** [o.get(k, default)] *)
Definition py_get (o : pyval) (k : string) (default : pyval) : result pyval :=
  match o with
  | PDict d => Ok (match lookup k d with Some v => v | None => default end)
  | _ => Raise (mk_exn AttributeError
                  ("'" ++ type_name o ++ "' object has no attribute 'get'"))
  end.

(** [o[k]] for a string key [k] *)
Definition py_getitem (o : pyval) (k : string) : result pyval :=
  match o with
  | PDict d =>
      match lookup k d with
      | Some v => Ok v
      | None => Raise (mk_exn KeyError ("'" ++ k ++ "'"))
      end
  | PList _ =>
      Raise (mk_exn TypeError "list indices must be integers or slices, not str")
  | PStr _ =>
      Raise (mk_exn TypeError "string indices must be integers, not 'str'")
  | _ => Raise (mk_exn TypeError
                  ("'" ++ type_name o ++ "' object is not subscriptable"))
  end.

(** [k in o] for a string [k] *)
Definition py_contains (k : string) (o : pyval) : result bool :=
  match o with
  | PDict d => Ok (match lookup k d with Some _ => true | None => false end)
  | PList l => Ok (existsb (is_str k) l)
  | PStr s => Ok (str_contains k s)
  | _ => Raise (mk_exn TypeError
                  ("argument of type '" ++ type_name o ++ "' is not iterable"))
  end.

Definition isinstance_dict (v : pyval) : bool :=
  match v with PDict _ => true | _ => false end.

Definition isinstance_list (v : pyval) : bool :=
  match v with PList _ => true | _ => false end.

End Py.

Import Py.

Declare Scope py_scope.
Notation "x <- m ;; k" := (bind m (fun x => k))
  (at level 61, m at next level, right associativity) : py_scope.
Local Open Scope py_scope.

(* ===================================================================== *)
(** ** The background analyzer *)
(* ===================================================================== *)

Module Analyzer.

(** The [analysis] dict of [analyze_pds_background]: four lists, each
    mutated by [append]. *)
Record analysis : Type := mk_analysis {
  education_fields : list pyval;
  work_experience_areas : list pyval;
  training_areas : list pyval;
  key_skills : list pyval
}.

Definition empty_analysis : analysis := mk_analysis [] [] [] [].

Definition append_education (v : pyval) (a : analysis) : analysis :=
  mk_analysis (education_fields a ++ [v]) (work_experience_areas a)
              (training_areas a) (key_skills a).

Definition append_work (v : pyval) (a : analysis) : analysis :=
  mk_analysis (education_fields a) (work_experience_areas a ++ [v])
              (training_areas a) (key_skills a).

Definition append_training (v : pyval) (a : analysis) : analysis :=
  mk_analysis (education_fields a) (work_experience_areas a)
              (training_areas a ++ [v]) (key_skills a).

Definition levels : list string := ["college"; "graduate_studies"; "post_graduate"].

(** Body of [for course in courses]. *)
Definition analyze_course (course : pyval) (a : analysis) : result analysis :=
  if isinstance_dict course then
    c <- py_get course "course" PNone ;;
    if truthy c then
      v <- py_getitem course "course" ;;
      Ok (append_education v a)
    else Ok a
  else Ok a.

(** Body of [for level in ['college', 'graduate_studies', 'post_graduate']]. *)
Definition analyze_level (education : pyval) (level : string) (a : analysis)
  : result analysis :=
  present <- py_contains level education ;;
  if present then
    held <- py_getitem education level ;;
    if truthy held then
      courses <- py_getitem education level ;;
      match courses with
      | PList l => for_each l analyze_course a
      | PDict _ =>
          c <- py_get courses "course" PNone ;;
          if truthy c then
            v <- py_getitem courses "course" ;;
            Ok (append_education v a)
          else Ok a
      | _ => Ok a
      end
    else Ok a
  else Ok a.

(** Body of [for exp in work_experience]. *)
Definition analyze_exp (exp : pyval) (a : analysis) : result analysis :=
  if isinstance_dict exp then
    position <- py_get exp "position_title" (PStr "") ;;
    office <- py_get exp "department_office" (PStr "") ;;
    let a1 := if truthy position then append_work position a else a in
    let a2 := if truthy office then append_work office a1 else a1 in
    Ok a2
  else Ok a.

(** Body of [for training in learning_development]. *)
Definition analyze_training (training : pyval) (a : analysis) : result analysis :=
  if isinstance_dict training then
    title <- py_get training "title" (PStr "") ;;
    Ok (if truthy title then append_training title a else a)
  else Ok a.

Definition analyze_pds_background (pds_data : pyval) : result analysis :=
  let a0 := empty_analysis in
  education <- py_get pds_data "educational_background" (PDict []) ;;
  a1 <- (if isinstance_dict education
         then for_each levels (analyze_level education) a0
         else Ok a0) ;;
  work_experience <- py_get pds_data "work_experience" (PList []) ;;
  a2 <- (match work_experience with
         | PList l => for_each l analyze_exp a1
         | _ => Ok a1
         end) ;;
  learning_development <- py_get pds_data "learning_development" (PList []) ;;
  a3 <- (match learning_development with
         | PList l => for_each l analyze_training a2
         | _ => Ok a2
         end) ;;
  Ok a3.

(** *** What each bucket holds, stated on the record

    The functions below describe the buckets directly: what one entry
    contributes, and the concatenation of the contributions in the order of
    the source list.  [analyze_pds_background] is proved to compute them. *)

Definition field_contrib (key : string) (entry : pyval) : list pyval :=
  match entry with
  | PDict d =>
      match lookup key d with
      | Some v => if truthy v then [v] else []
      | None => []
      end
  | _ => []
  end.

Definition course_contrib : pyval -> list pyval := field_contrib "course".

Definition exp_contrib (exp : pyval) : list pyval :=
  field_contrib "position_title" exp ++ field_contrib "department_office" exp.

Definition training_contrib : pyval -> list pyval := field_contrib "title".

(** [e.get(key)] of a dict entry. *)
Definition field_value (key : string) (entry : pyval) : pyval :=
  match entry with
  | PDict d => match lookup key d with Some v => v | None => PNone end
  | _ => PNone
  end.

(** The entry is a dict whose [key] holds a truthy value. *)
Definition has_value (key : string) (entry : pyval) : bool :=
  isinstance_dict entry && truthy (field_value key entry).

(** The entry is a dict whose [key] holds the string [s]. *)
Definition holds_str (key s : string) (entry : pyval) : bool :=
  isinstance_dict entry && is_str s (field_value key entry).

Definition count_str (s : string) (values : list pyval) : nat :=
  List.length (filter (is_str s) values).

(** Several [append]s at once. *)
Definition extend_education (vs : list pyval) (a : analysis) : analysis :=
  mk_analysis (education_fields a ++ vs) (work_experience_areas a)
              (training_areas a) (key_skills a).

Definition extend_work (vs : list pyval) (a : analysis) : analysis :=
  mk_analysis (education_fields a) (work_experience_areas a ++ vs)
              (training_areas a) (key_skills a).

Definition extend_training (vs : list pyval) (a : analysis) : analysis :=
  mk_analysis (education_fields a) (work_experience_areas a)
              (training_areas a ++ vs) (key_skills a).

(** How often the string [s] is the course of an entry held under a level. *)
Definition level_count (s : string) (held : option pyval) : nat :=
  match held with
  | Some (PList l) => List.length (filter (holds_str "course" s) l)
  | Some (PDict d) => if holds_str "course" s (PDict d) then 1 else 0
  | _ => 0
  end.

(** The values of [first] come before the values of [second] whenever
    [first] comes before [second] in the source list. *)
Definition keeps_order (contrib : pyval -> list pyval) (source bucket : list pyval)
  : Prop :=
  forall before first between second after,
    source = before ++ first :: between ++ second :: after ->
    bucket = flat_map contrib before ++ contrib first ++
             flat_map contrib between ++ contrib second ++
             flat_map contrib after.

(** A record with one section put first. *)
Definition with_section (key : string) (v : pyval) (rest : list (string * pyval))
  : pyval :=
  PDict ((key, v) :: rest).

(** Courses held under one level: a list of entries or a single entry. *)
Definition level_courses (held : option pyval) : list pyval :=
  match held with
  | Some (PList l) => flat_map course_contrib l
  | Some (PDict d) => course_contrib (PDict d)
  | _ => []
  end.

Definition education_bucket (record : list (string * pyval)) : list pyval :=
  match lookup "educational_background" record with
  | Some (PDict edu) => flat_map (fun level => level_courses (lookup level edu)) levels
  | _ => []
  end.

Definition work_bucket (record : list (string * pyval)) : list pyval :=
  match lookup "work_experience" record with
  | Some (PList l) => flat_map exp_contrib l
  | _ => []
  end.

Definition training_bucket (record : list (string * pyval)) : list pyval :=
  match lookup "learning_development" record with
  | Some (PList l) => flat_map training_contrib l
  | _ => []
  end.

End Analyzer.

Import Analyzer.

(* ===================================================================== *)
(** ** The scoring entry point *)
(* ===================================================================== *)

Section Scoring.

(** [self.assessment_engine.assess_candidate_for_lspu_job]: the engine is
    defined in assessment_engine.py; the entry point only calls it. *)
Variable assess_candidate_for_lspu_job : pyval -> pyval -> result pyval.

(** The dict returned by the [except] branch. *)
Definition error_scores (message : string) : pyval :=
  PDict [("total_score", PInt 0);
         ("education_score", PInt 0);
         ("experience_score", PInt 0);
         ("training_score", PInt 0);
         ("eligibility_score", PInt 0);
         ("error", PStr message)].

(** The body of the [try] block of [calculate_score]. *)
Definition calculate_score_body (pds_data job_data : pyval) : result pyval :=
  position_title <- py_getitem job_data "position_title" ;;
  department_office <- py_getitem job_data "department_office" ;;
  education_requirements <- py_getitem job_data "education_requirements" ;;
  training_requirements <- py_getitem job_data "training_requirements" ;;
  experience_requirements <- py_getitem job_data "experience_requirements" ;;
  eligibility_requirements <- py_getitem job_data "eligibility_requirements" ;;
  let lspu_job :=
    PDict [("position_title", position_title);
           ("department_office", department_office);
           ("education_requirements", education_requirements);
           ("training_requirements", training_requirements);
           ("experience_requirements", experience_requirements);
           ("eligibility_requirements", eligibility_requirements)] in
  assessment_result <- assess_candidate_for_lspu_job pds_data lspu_job ;;
  total_score <- py_get assessment_result "total_score" (PInt 0) ;;
  education_score <- py_get assessment_result "education_score" (PInt 0) ;;
  experience_score <- py_get assessment_result "experience_score" (PInt 0) ;;
  training_score <- py_get assessment_result "training_score" (PInt 0) ;;
  eligibility_score <- py_get assessment_result "eligibility_score" (PInt 0) ;;
  Ok (PDict [("total_score", total_score);
             ("education_score", education_score);
             ("experience_score", experience_score);
             ("training_score", training_score);
             ("eligibility_score", eligibility_score);
             ("assessment_details", assessment_result)]).

(** What the handler's [print(f"... Error calculating score: {str(e)}")]
    does with the text of the exception, and what [traceback.print_exc()]
    does: each returns, or raises (a console that cannot encode the line
    raises UnicodeEncodeError). *)
Variable print_error : string -> result unit.
Variable print_exc : exn -> result unit.

(** [calculate_score]: the handler prints the error and the traceback
    before it returns the zero scores. *)
Definition calculate_score (pds_data job_data : pyval) : result pyval :=
  try_except (calculate_score_body pds_data job_data)
             (fun e =>
                _ <- print_error (exc_str e) ;;
                _ <- print_exc e ;;
                Ok (error_scores (exc_str e))).

End Scoring.

(** A console that takes every line, and one that cannot encode the
    handler's line. *)
Definition takes_line : string -> result unit := fun _ => Ok tt.

Definition takes_traceback : exn -> result unit := fun _ => Ok tt.



(** Reading a result dict. *)
Definition field (key : string) (r : pyval) : option pyval :=
  match r with
  | PDict d => lookup key d
  | _ => None
  end.

Definition number (v : pyval) : option Q :=
  match v with
  | PInt z => Some (inject_Z z)
  | PFloat q => Some q
  | _ => None
  end.

Definition score_of (key : string) (r : pyval) : option Q :=
  match field key r with
  | Some v => number v
  | None => None
  end.




(** Every element of the list is a non-empty string. *)
Definition nonempty_strings (values : list pyval) : Prop :=
  forall v, In v values -> exists s, v = PStr s /\ s <> EmptyString.

(** A job posting with its six fields. *)
Definition sample_job : pyval :=
  PDict [("position_title", PStr "Administrative Officer IV");
         ("department_office", PStr "Human Resource Management Office");
         ("education_requirements", PStr "Bachelor's degree in Human Resource");
         ("training_requirements", PStr "");
         ("experience_requirements", PStr "HR officer experience");
         ("eligibility_requirements", PStr "Career Service Professional")].

(** An engine that raises [e] whatever it is given. *)
Definition raising_engine (e : exn) : pyval -> pyval -> result pyval :=
  fun _ _ => Raise e.

(* ===================================================================== *)
(** ** Text fragments *)
(* ===================================================================== *)

Module Text.

Definition in_range (lo hi : nat) (c : ascii) : bool :=
  let n := nat_of_ascii c in (lo <=? n)%nat && (n <=? hi)%nat.

Definition is_digit : ascii -> bool := in_range 48 57.
Definition is_upper : ascii -> bool := in_range 65 90.
Definition is_lower : ascii -> bool := in_range 97 122.
Definition is_alpha (c : ascii) : bool := is_upper c || is_lower c.
Definition is_alnum (c : ascii) : bool := is_alpha c || is_digit c.
Definition is_space (c : ascii) : bool :=
  Ascii.eqb c " " || in_range 9 13 c.

Definition to_lower (c : ascii) : ascii :=
  if is_upper c then ascii_of_nat (nat_of_ascii c + 32) else c.

Definition to_upper (c : ascii) : ascii :=
  if is_lower c then ascii_of_nat (nat_of_ascii c - 32) else c.

Fixpoint map_chars (f : ascii -> ascii) (s : string) : string :=
  match s with
  | EmptyString => EmptyString
  | String c rest => String (f c) (map_chars f rest)
  end.

Definition lower : string -> string := map_chars to_lower.
Definition upper : string -> string := map_chars to_upper.

Fixpoint all_chars (p : ascii -> bool) (s : string) : bool :=
  match s with
  | EmptyString => true
  | String c rest => p c && all_chars p rest
  end.

Fixpoint lstrip (s : string) : string :=
  match s with
  | EmptyString => EmptyString
  | String c rest => if is_space c then lstrip rest else s
  end.

Fixpoint rstrip (s : string) : string :=
  match s with
  | EmptyString => EmptyString
  | String c rest =>
      match rstrip rest with
      | EmptyString => if is_space c then EmptyString else String c EmptyString
      | kept => String c kept
      end
  end.

(** The normalized fragment: surrounding white space removed. *)
Definition strip (s : string) : string := lstrip (rstrip s).

Definition is_empty (s : string) : bool :=
  match s with EmptyString => true | _ => false end.

Definition first_char (s : string) : option ascii :=
  match s with
  | EmptyString => None
  | String c _ => Some c
  end.

Fixpoint last_char (s : string) : option ascii :=
  match s with
  | EmptyString => None
  | String c rest =>
      match last_char rest with
      | None => Some c
      | found => found
      end
  end.

(** A run of at least [n] letters. *)
Fixpoint has_alpha_run (n run : nat) (s : string) : bool :=
  match s with
  | EmptyString => (n <=? run)%nat
  | String c rest =>
      if is_alpha c then has_alpha_run n (S run) rest
      else (n <=? run)%nat || has_alpha_run n 0 rest
  end.

(** Maximal runs of letters and digits, lower-cased. *)
Fixpoint split_words (cur : string) (s : string) : list string :=
  match s with
  | EmptyString => if is_empty cur then [] else [cur]
  | String c rest =>
      if is_alnum c
      then split_words (cur ++ String (to_lower c) EmptyString)%string rest
      else (if is_empty cur then [] else [cur]) ++ split_words EmptyString rest
  end.

(** Lower-cased, punctuation removed (letters, digits and blanks kept). *)
Fixpoint strip_punctuation (s : string) : string :=
  match s with
  | EmptyString => EmptyString
  | String c rest =>
      if is_alnum c || is_space c
      then String (to_lower c) (strip_punctuation rest)
      else strip_punctuation rest
  end.

End Text.

Import Text.

(* ===================================================================== *)
(** ** The field validator *)
(* ===================================================================== *)

Module Validator.

Inductive field_kind : Type := eligibility | reference_name | reference_data.

Inductive verdict : Type := Accept | Reject.

(** One position of a fixed-width shape: any digit, or one given character. *)
Inductive shape_item : Type :=
| Digit
| Lit (c : ascii).

(** The whole fragment has the shape. *)
Fixpoint match_shape (p : list shape_item) (s : string) : bool :=
  match p, s with
  | [], EmptyString => true
  | Digit :: p', String c rest => is_digit c && match_shape p' rest
  | Lit a :: p', String c rest => Ascii.eqb a c && match_shape p' rest
  | _, _ => false
  end.

Definition iso_date : list shape_item :=
  [Digit; Digit; Digit; Digit; Lit "-"; Digit; Digit; Lit "-"; Digit; Digit].

Definition clock_time : list shape_item :=
  [Lit " "; Digit; Digit; Lit ":"; Digit; Digit; Lit ":"; Digit; Digit].

(** The date shapes the design document names: [YYYY-MM-DD[ HH:MM:SS]]. *)
Definition named_date_shapes : list (list shape_item) :=
  [iso_date; iso_date ++ clock_time].

Definition is_named_date (t : string) : bool :=
  existsb (fun p => match_shape p t) named_date_shapes.

Definition month_names : list string :=
  ["january"; "february"; "march"; "april"; "may"; "june"; "july"; "august";
   "september"; "october"; "november"; "december";
   "jan"; "feb"; "mar"; "apr"; "jun"; "jul"; "aug"; "sep"; "sept"; "oct";
   "nov"; "dec"].

Definition is_month (word : string) : bool := existsb (String.eqb word) month_names.

(** One of the words of the fragment is the name of a month. *)
Definition names_month (t : string) : bool :=
  existsb is_month (split_words EmptyString t).

(** The number of maximal runs of digits. *)
Fixpoint digit_groups (inside : bool) (s : string) : nat :=
  match s with
  | EmptyString => 0
  | String c rest =>
      if is_digit c
      then (if inside then 0 else 1) + digit_groups true rest
      else digit_groups false rest
  end.

(** The fragment holds two numbers, or the name of a month. *)
Definition has_date_marks (t : string) : bool :=
  (2 <=? digit_groups false t)%nat || names_month t.

(** Digits, optionally followed by a point and digits. *)
Fixpoint is_numeric_from (seen_digit : bool) (s : string) : bool :=
  match s with
  | EmptyString => seen_digit
  | String c rest =>
      if is_digit c then is_numeric_from true rest
      else if Ascii.eqb c "." then
             seen_digit && negb (is_empty rest) && all_chars is_digit rest
           else false
  end.

Definition is_numeric (t : string) : bool := is_numeric_from false t.

Definition placeholder_tokens : list string :=
  ["from"; "to"; "present"; "rating"; "inclusive dates"].

Definition is_placeholder (t : string) : bool :=
  let l := lower t in
  existsb (String.eqb l) placeholder_tokens
  || existsb (fun tok => String.prefix (tok ++ ":")%string l) placeholder_tokens
  || str_contains "inclusive dates" l.

Definition agency_abbreviations : list string :=
  ["SSS"; "TIN"; "GSIS"; "PHILHEALTH"].

Definition is_bare_agency (t : string) : bool :=
  existsb (String.eqb (upper t)) agency_abbreviations.

(** [<AGENCY_ABBREV>: <number>] *)
Definition is_agency_label (t : string) : bool :=
  existsb (fun a => String.prefix (a ++ ":")%string (upper t)) agency_abbreviations.

Definition mentions_government_id (t : string) : bool :=
  str_contains "government issued id" (lower t).

Definition is_government_id_prefixed (t : string) : bool :=
  String.prefix "government issued id" (lower t).

Definition is_government_id_label (t : string) : bool :=
  mentions_government_id t || is_agency_label t.

Definition has_alphabetic_token (t : string) : bool := has_alpha_run 2 0 t.

(** A local mobile number: [09] and nine more digits. *)
Definition local_phone : list shape_item :=
  [Lit "0"; Lit "9"; Digit; Digit; Digit; Digit; Digit; Digit; Digit; Digit; Digit].

Definition is_local_phone (t : string) : bool := match_shape local_phone t.

Definition eligibility_indicators : list string :=
  ["eligibility"; "professional"; "cse"; "career service";
   "licensure"; "board exam"; "bar exam"].

Definition has_eligibility_indicator (t : string) : bool :=
  existsb (fun tok => str_contains tok (lower t)) eligibility_indicators.

Definition rule : Type := (string -> bool) * verdict.

(** The verdict of the first rule whose predicate holds. *)
Fixpoint first_match (rules : list rule) (t : string) : option verdict :=
  match rules with
  | [] => None
  | (p, v) :: rest => if p t then Some v else first_match rest t
  end.

Section RuleTable.

(** The least length at which free text without an indicator is still
    kept as an eligibility; the design document leaves the value open. *)
Variable min_informative_length : nat.

(** The date rule.  The design document names [YYYY-MM-DD[ HH:MM:SS]] and
    leaves the other patterns open ("or any recognizable date pattern"), so
    the recogniser is left open as well; [date_recognizer] below says what
    is fixed of it. *)
Variable is_date_like : string -> bool.

Definition is_informative (t : string) : bool :=
  (min_informative_length <=? String.length t)%nat.

Definition common_rules : list rule :=
  [(is_empty, Reject); (is_date_like, Reject)].

Definition noise_rules : list rule :=
  [(is_numeric, Reject); (is_placeholder, Reject)].

(** Modelled from the spec: the Pattern Rule Table of
    improved_pds_extractor.py (the validators
    [_is_valid_civil_service_eligibility], [_is_valid_reference_name] and
    [_is_valid_reference_data] are not in the sources at hand).  An ordered
    list of (predicate, verdict) rules per field kind, the first match
    deciding.  The expected verdicts tabulated in
    test_extraction_validation.py fix two points the prose leaves open: a
    phone-shaped reference detail is accepted although it is all digits,
    and an agency label is rejected as a reference detail too. *)
Definition rule_table (kind : field_kind) : list rule :=
  match kind with
  | eligibility =>
      common_rules ++ noise_rules ++
      [(has_eligibility_indicator, Accept); (is_informative, Accept)]
  | reference_name =>
      common_rules ++ noise_rules ++
      [(is_government_id_label, Reject); (has_alphabetic_token, Accept)]
  | reference_data =>
      common_rules ++ [(is_local_phone, Accept)] ++ noise_rules ++
      [(is_bare_agency, Reject); (is_government_id_prefixed, Reject);
       (is_agency_label, Reject); (fun _ => true, Accept)]
  end.

(** Modelled from the spec: [validate(kind, text) -> bool], the probe
    interface of the validators of improved_pds_extractor.py.  The fragment
    is normalized, the rule table of its kind is consulted, and a fragment
    no rule accepts is rejected. *)
Definition validate (kind : field_kind) (text : string) : bool :=
  match first_match (rule_table kind) (strip text) with
  | Some Accept => true
  | _ => false
  end.

End RuleTable.

(** Modelled from the spec: what the design document fixes of the date
    rule of improved_pds_extractor.py.  A recogniser takes every fragment
    of the shapes the document names.  It takes no fragment that holds
    neither two numbers nor the name of a month: the fragments the document
    wants accepted ("Zamboanga City | 4342", "09123456789", "CSE
    Professional") are of that kind.  Between the two, "any recognizable
    date pattern" is left to the recogniser. *)
Definition date_recognizer (recognizer : string -> bool) : Prop :=
  (forall t, is_named_date t = true -> recognizer t = true) /\
  (forall t, recognizer t = true -> has_date_marks t = true).

(** *** Fragments described by their make-up *)

Definition digit_string (n : nat) (s : string) : Prop :=
  String.length s = n /\ all_chars is_digit s = true.

Definition digits (s : string) : Prop :=
  s <> EmptyString /\ all_chars is_digit s = true.

(** [YYYY-MM-DD] *)
Definition date_text (t : string) : Prop :=
  exists y m d,
    digit_string 4 y /\ digit_string 2 m /\ digit_string 2 d /\
    t = (y ++ "-" ++ m ++ "-" ++ d)%string.

(** [YYYY-MM-DD HH:MM:SS] *)
Definition datetime_text (t : string) : Prop :=
  exists day hh mm ss,
    date_text day /\ digit_string 2 hh /\ digit_string 2 mm /\ digit_string 2 ss /\
    t = (day ++ " " ++ hh ++ ":" ++ mm ++ ":" ++ ss)%string.

(** A whole number, or a number with a decimal part. *)
Definition numeric_text (t : string) : Prop :=
  digits t \/ exists whole frac, digits whole /\ digits frac /\
                                 t = (whole ++ "." ++ frac)%string.

Definition date_or_numeric (t : string) : Prop :=
  date_text t \/ datetime_text t \/ numeric_text t.

Definition place_char (c : ascii) : bool := is_alpha c || Ascii.eqb c " ".

(** The name of a place: letters and blanks, a letter first. *)
Definition place_name (s : string) : Prop :=
  (exists c, first_char s = Some c /\ is_alpha c = true) /\
  all_chars place_char s = true.

(** [<place> | <code>], as in "City | 1234". *)
Definition location_with_code (location code : string) : string :=
  (location ++ " | " ++ code)%string.

End Validator.

Import Validator.

(* ===================================================================== *)
(** ** The scoring engine *)
(* ===================================================================== *)

Module Engine.

Local Open Scope Q_scope.

(** The weight configuration: one weight per category. *)
Record weights : Type := mk_weights {
  w_edu : Q;
  w_exp : Q;
  w_trn : Q;
  w_elg : Q
}.

Definition valid_weights (w : weights) : Prop :=
  0 <= w_edu w /\ 0 <= w_exp w /\ 0 <= w_trn w /\ 0 <= w_elg w /\
  w_edu w + w_exp w + w_trn w + w_elg w == 1.

(** The requirement's keywords: lower-cased, punctuation removed. *)
Definition keywords (requirement : string) : list string :=
  split_words EmptyString requirement.

(** The keyword occurs within some entry of the bucket. *)
Definition found (bucket : list string) (keyword : string) : bool :=
  existsb (fun entry => str_contains keyword (strip_punctuation entry)) bucket.

Definition overlap_ratio (requirement : string) (bucket : list string) : Q :=
  let kws := keywords requirement in
  inject_Z (Z.of_nat (List.length (filter (found bucket) kws)))
  / inject_Z (Z.of_nat (List.length kws)).

Definition clamp01 (q : Q) : Q :=
  if Qle_bool q 0 then 0 else if Qle_bool 1 q then 1 else q.

Definition is_blank (s : string) : bool := is_empty (strip s).

(** Modelled from the spec: the per-category score of the scoring engine of
    assessment_engine.py, which is not in the sources at hand.  A category
    whose bucket or requirement is missing scores 0; a blank requirement
    does not constrain the category and scores 100; otherwise the score is
    the share of the requirement's keywords found in the bucket, clamped to
    [0,1] and mapped to a percentage. *)
Definition category_score (bucket : option (list string))
                          (requirement : option string) : Q :=
  match bucket, requirement with
  | Some b, Some r =>
      if is_blank r then 100 else 100 * clamp01 (overlap_ratio r b)
  | _, _ => 0
  end.

(** The nearest integer, a tie going to the even one. *)
Definition round_half_even (q : Q) : Z :=
  let f := Qfloor q in
  match Qcompare (q - inject_Z f) (1 # 2) with
  | Lt => f
  | Gt => (f + 1)%Z
  | Eq => if Z.even f then f else (f + 1)%Z
  end.

(** Modelled from the spec: rounding of a reported score to one decimal
    place (the engine of assessment_engine.py is not in the sources at
    hand). *)
Definition round1 (q : Q) : Q := inject_Z (round_half_even (q * 10)) / 10.

Definition strings_of (values : list pyval) : list string :=
  flat_map (fun v => match v with PStr s => [s] | _ => [] end) values.

Definition as_text (v : pyval) : option string :=
  match v with
  | PStr s => Some s
  | _ => None
  end.

(** A bucket of the profile, when the record has the section it is
    derived from. *)
Definition bucket_of (candidate : pyval) (section : string) (values : list pyval)
  : option (list string) :=
  match field section candidate with
  | Some _ => Some (strings_of values)
  | None => None
  end.

Definition eligibility_bucket (candidate : pyval) : option (list string) :=
  match field "civil_service_eligibility" candidate with
  | Some (PList l) => Some (strings_of l)
  | _ => None
  end.

Definition weighted_sum (w : weights) (edu exp trn elg : Q) : Q :=
  w_edu w * edu + w_exp w * exp + w_trn w * trn + w_elg w * elg.

Definition report (w : weights) (edu exp trn elg : Q) : pyval :=
  PDict [("total_score", PFloat (round1 (weighted_sum w edu exp trn elg)));
         ("education_score", PFloat (round1 edu));
         ("experience_score", PFloat (round1 exp));
         ("training_score", PFloat (round1 trn));
         ("eligibility_score", PFloat (round1 elg))].

Section Configured.

Variable w : weights.

(** Modelled from the spec: the computation of section 4.4 of the design
    document, standing for the scoring engine of assessment_engine.py,
    which is not in the sources at hand.  The buckets come from
    [analyze_pds_background]; the total is the weighted sum of the
    unrounded category scores, and every reported value is rounded to one
    decimal place. *)
Definition score_body (candidate job : pyval) : result pyval :=
  profile <- analyze_pds_background candidate ;;
  education_req <- py_get job "education_requirements" PNone ;;
  experience_req <- py_get job "experience_requirements" PNone ;;
  training_req <- py_get job "training_requirements" PNone ;;
  eligibility_req <- py_get job "eligibility_requirements" PNone ;;
  let edu := category_score
               (bucket_of candidate "educational_background" (education_fields profile))
               (as_text education_req) in
  let exp := category_score
               (bucket_of candidate "work_experience" (work_experience_areas profile))
               (as_text experience_req) in
  let trn := category_score
               (bucket_of candidate "learning_development" (training_areas profile))
               (as_text training_req) in
  let elg := category_score (eligibility_bucket candidate) (as_text eligibility_req) in
  Ok (report w edu exp trn elg).

(** Modelled from the spec: [assess(candidate, job) -> AssessmentResult],
    the orchestrator of assessment_engine.py
    ([assess_candidate_for_lspu_job], not in the sources at hand): a
    computation that cannot proceed yields zero scores and the error. *)
Definition assess (candidate job : pyval) : result pyval :=
  try_except (score_body candidate job)
             (fun e => Ok (error_scores (exc_str e))).

End Configured.

(** The claim on a result: every score in [0,100], the total within one
    tenth of the weighted sum of the reported category scores. *)
Definition well_scored (w : weights) (r : pyval) : Prop :=
  exists total edu exp trn elg : Q,
    score_of "total_score" r = Some total /\
    score_of "education_score" r = Some edu /\
    score_of "experience_score" r = Some exp /\
    score_of "training_score" r = Some trn /\
    score_of "eligibility_score" r = Some elg /\
    (0 <= edu <= 100) /\ (0 <= exp <= 100) /\
    (0 <= trn <= 100) /\ (0 <= elg <= 100) /\
    (0 <= total <= 100) /\
    Qabs (total - weighted_sum w edu exp trn elg) <= 1 # 10.

(** A weight configuration: education and experience weigh most. *)
Definition sample_weights : weights :=
  mk_weights (35 # 100) (35 # 100) (15 # 100) (15 # 100).

Definition sample_candidate : pyval :=
  PDict [("educational_background",
          PDict [("college", PDict [("course", PStr "BS Computer Science")]);
                 ("graduate_studies",
                  PList [PDict [("course", PStr "MS Human Resource Management")]])]);
         ("work_experience",
          PList [PDict [("position_title", PStr "HR Officer");
                        ("department_office", PStr "Admin Office")]]);
         ("learning_development",
          PList [PDict [("title", PStr "Records Management")]])].

End Engine.

Import Engine.

(* ===================================================================== *)
(** ** Loading a job posting *)
(* ===================================================================== *)

Module Postings.

(** [str(n)] of an integer. *)
Definition string_of_Z (z : Z) : string := NilZero.string_of_int (Z.to_int z).

(** The row of the seven selected columns. *)
Record job_row : Type := mk_job_row {
  col_id : pyval;
  col_position_title : pyval;
  col_department_office : pyval;
  col_education_requirements : pyval;
  col_training_requirements : pyval;
  col_experience_requirements : pyval;
  col_eligibility_requirements : pyval
}.

(** [a or b] *)
Definition py_or (a b : pyval) : pyval := if truthy a then a else b.

(** The exception of a posting that is not there. *)
Definition not_found (job_id : Z) : exn :=
  mk_exn (ExceptionSubclass "Exception")
         ("Job posting ID " ++ string_of_Z job_id ++ " not found").

Section Database.

(** [sqlite3.connect], [cursor.execute] of the [SELECT ... WHERE id = ?],
    [cursor.fetchone] and [conn.close]: the row of the posting or [None],
    or the exception sqlite3 raises on the way (OperationalError where the
    database or the table is missing, OverflowError for an id beyond 64
    bits). *)
Variable query_posting : Z -> result (option job_row).

Definition get_job_posting_data (job_id : Z) : result pyval :=
  row <- query_posting job_id ;;
  match row with
  | None => Raise (not_found job_id)
  | Some row =>
      Ok (PDict [("id", col_id row);
                 ("position_title", col_position_title row);
                 ("department_office", col_department_office row);
                 ("education_requirements",
                  py_or (col_education_requirements row) (PStr ""));
                 ("training_requirements",
                  py_or (col_training_requirements row) (PStr ""));
                 ("experience_requirements",
                  py_or (col_experience_requirements row) (PStr ""));
                 ("eligibility_requirements",
                  py_or (col_eligibility_requirements row) (PStr ""))])
  end.

End Database.

(** The keys [calculate_score] reads from a job. *)
Definition job_keys : list string :=
  ["position_title"; "department_office"; "education_requirements";
   "training_requirements"; "experience_requirements"; "eligibility_requirements"].

Definition requirement_keys : list string :=
  ["education_requirements"; "training_requirements";
   "experience_requirements"; "eligibility_requirements"].

(** The keys of the scores in a result of [calculate_score]. *)
Definition score_keys : list string :=
  ["total_score"; "education_score"; "experience_score";
   "training_score"; "eligibility_score"].

Definition has_key (key : string) (r : pyval) : bool :=
  match field key r with
  | Some _ => true
  | None => false
  end.

End Postings.

Import Postings.

(* ===================================================================== *)
(** ** Console output *)
(* ===================================================================== *)

Module Console.

Inductive note : Type := Logical | Unexpected | Tied.

Inductive verdict : Type := WorkingCorrectly | PartialLogic | NeedsReview.

(** One [print] call: the fixed texts are named, the interpolated values
    are kept. *)
Inductive line : Type :=
| Heading (title : string)
| Rule
| Blank
| MissingScoreData
| ScoreOf (who : string) (score : Q)
| Note (n : note)
| JobHeading (job : string)
| LenarAdvantage (ahead : bool)
| NewAdvantage (count total : nat)
| Verdict (v : verdict)
| Bullet (value : pyval)
| Processing (name : string)
| Extracting (filename : string)
| FailedToProcess (name message : string)
| LoadedJob (job : string) (job_id : Z)
| FailedToLoadJob (job message : string)
| Calculating (job : string)
| ErrorCalculating (message : string)
| TracebackOf (message : string)
| Breakdown (education experience training eligibility : Q)
| SummaryOf (name : string)
| ScoresOf (name : string)
| TestFailed (message : string)
| TestCompleted.

(** A computation that prints: the lines printed, and how it ended. *)
Definition console (A : Type) : Type := (list line * result A)%type.

Definition emit {A : Type} (r : result A) : console A := ([], r).

(** [print] on the console of the run, which takes every line. *)
Definition print (l : line) : console unit := ([l], Ok tt).

Definition cbind {A B : Type} (m : console A) (k : A -> console B) : console B :=
  match m with
  | (out, Ok a) => let (out', r) := k a in (out ++ out', r)
  | (out, Raise e) => (out, Raise e)
  end.

(** [try: body except Exception as e: handler(e)], output kept. *)
Definition ctry {A : Type} (body : console A) (handler : exn -> console A)
  : console A :=
  match body with
  | (out, Ok a) => (out, Ok a)
  | (out, Raise e) =>
      if is_Exception e
      then let (out', r) := handler e in (out ++ out', r)
      else (out, Raise e)
  end.

Fixpoint cfor {A S : Type} (xs : list A) (body : A -> S -> console S) (s : S)
  : console S :=
  match xs with
  | [] => ([], Ok s)
  | x :: rest => cbind (body x s) (cfor rest body)
  end.

(** The number a value stands for; [bool] is a kind of [int]. *)
Definition py_number (v : pyval) : option Q :=
  match v with
  | PBool b => Some (if b then 1%Q else 0%Q)
  | PInt z => Some (inject_Z z)
  | PFloat q => Some q
  | _ => None
  end.

(** The first integer that [float] cannot hold: it rounds to 2^1024. *)
Definition float_limit : Z := (2 ^ 1024 - 2 ^ 970)%Z.

(** [float(z)] does not overflow. *)
Definition fits_float (z : Z) : bool := (Z.abs z <? float_limit)%Z.

Definition int_too_large : exn :=
  mk_exn (ExceptionSubclass "OverflowError") "int too large to convert to float".

(** [f"{v:.1f}"]: the number that is printed with one decimal.  An
    integer is turned into a float first, which overflows from
    [float_limit] on; a value that is not a number has no such format. *)
Definition format_1f (v : pyval) : result Q :=
  match v with
  | PBool b => Ok (if b then 1%Q else 0%Q)
  | PInt z => if fits_float z then Ok (inject_Z z) else Raise int_too_large
  | PFloat q => Ok q
  | PStr _ =>
      Raise (mk_exn (ExceptionSubclass "ValueError")
                    "Unknown format code 'f' for object of type 'str'")
  | _ =>
      Raise (mk_exn TypeError
                    ("unsupported format string passed to "
                       ++ type_name v ++ ".__format__"))
  end.

Definition Qgtb (a b : Q) : bool := negb (Qle_bool a b).

(** [a > b] between numbers.  Every comparison of the analysis is between
    values that were printed with [.1f] just before. *)
Definition py_gt (a b : pyval) : result bool :=
  match py_number a, py_number b with
  | Some x, Some y => Ok (Qgtb x y)
  | _, _ =>
      Raise (mk_exn TypeError
                    ("'>' not supported between instances of '"
                       ++ type_name a ++ "' and '" ++ type_name b ++ "'"))
  end.

End Console.

Import Console.

Notation "x <~ m ;; k" := (cbind m (fun x => k))
  (at level 61, m at next level, right associativity) : py_scope.

(* ===================================================================== *)
(** ** The analysis of the score matrix *)
(* ===================================================================== *)

Module Logic.

Definition instructor_jobs : list string :=
  ["Computer Studies Instructor"; "Education Lecturer"; "Security Instructor"].

(** [scores.get(job, {}).get('total_score', 0)] *)
Definition total_of (scores : pyval) (job : string) : result pyval :=
  entry <- py_get scores job (PDict []) ;;
  py_get entry "total_score" (PInt 0).

(** Body of [for job_name in instructor_jobs]. *)
Definition compare_instructor_job (lenar_scores new_scores : pyval)
           (job_name : string) (_ : unit) : console unit :=
  lenar_score <~ emit (total_of lenar_scores job_name) ;;
  new_score <~ emit (total_of new_scores job_name) ;;
  _ <~ print (JobHeading job_name) ;;
  l <~ emit (format_1f lenar_score) ;;
  _ <~ print (ScoreOf "Lenar" l) ;;
  n <~ emit (format_1f new_score) ;;
  _ <~ print (ScoreOf "New" n) ;;
  new_ahead <~ emit (py_gt new_score lenar_score) ;;
  if new_ahead then print (Note Logical)
  else
    lenar_ahead <~ emit (py_gt lenar_score new_score) ;;
    if lenar_ahead then print (Note Unexpected) else print (Note Tied).

(** [sum(1 for job in instructor_jobs if new > lenar)] *)
Fixpoint count_new_ahead (lenar_scores new_scores : pyval) (jobs : list string)
  : result nat :=
  match jobs with
  | [] => Ok 0
  | job :: rest =>
      new_score <- total_of new_scores job ;;
      lenar_score <- total_of lenar_scores job ;;
      ahead <- py_gt new_score lenar_score ;;
      more <- count_new_ahead lenar_scores new_scores rest ;;
      Ok ((if ahead then 1 else 0) + more)
  end.

Definition overall (lenar_admin_advantage : bool) (new_teaching_advantages : nat)
  : verdict :=
  if lenar_admin_advantage && (2 <=? new_teaching_advantages)%nat then WorkingCorrectly
  else if lenar_admin_advantage || (2 <=? new_teaching_advantages)%nat then PartialLogic
  else NeedsReview.

Definition analyze_scoring_logic (results : pyval) : console unit :=
  _ <~ print (Heading "Scoring Logic Analysis") ;;
  _ <~ print Rule ;;
  lenar_scores <~ emit (py_get results "Lenar" (PDict [])) ;;
  new_scores <~ emit (py_get results "New" (PDict [])) ;;
  if negb (truthy lenar_scores) || negb (truthy new_scores)
  then print MissingScoreData
  else
    _ <~ print (Heading "Score Comparison Analysis") ;;
    admin_lenar <~ emit (total_of lenar_scores "Administrative Officer") ;;
    admin_new <~ emit (total_of new_scores "Administrative Officer") ;;
    _ <~ print (Heading "Administrative Officer IV") ;;
    l <~ emit (format_1f admin_lenar) ;;
    _ <~ print (ScoreOf "Lenar" l) ;;
    n <~ emit (format_1f admin_new) ;;
    _ <~ print (ScoreOf "New" n) ;;
    lenar_ahead <~ emit (py_gt admin_lenar admin_new) ;;
    _ <~ (if lenar_ahead then print (Note Logical)
          else
            new_ahead <~ emit (py_gt admin_new admin_lenar) ;;
            if new_ahead then print (Note Unexpected) else print (Note Tied)) ;;
    _ <~ print (Heading "Instructor/Teaching Positions") ;;
    _ <~ cfor instructor_jobs (compare_instructor_job lenar_scores new_scores) tt ;;
    _ <~ print (Heading "Overall Assessment") ;;
    lenar_admin_advantage <~ emit (py_gt admin_lenar admin_new) ;;
    new_teaching_advantages <~
      emit (count_new_ahead lenar_scores new_scores instructor_jobs) ;;
    _ <~ print (LenarAdvantage lenar_admin_advantage) ;;
    _ <~ print (NewAdvantage new_teaching_advantages (List.length instructor_jobs)) ;;
    _ <~ print (Verdict (overall lenar_admin_advantage new_teaching_advantages)) ;;
    print (Heading "Detailed Breakdown Available Above").

(** The verdict a run printed, if it printed one. *)
Fixpoint verdict_of (out : list line) : option verdict :=
  match out with
  | [] => None
  | Verdict v :: _ => Some v
  | _ :: rest => verdict_of rest
  end.

(** The candidate's total for the job is the number [q]. *)
Definition total_is (scores : pyval) (job : string) (q : Q) : Prop :=
  exists v, total_of scores job = Ok v /\ py_number v = Some q.

(** The totals of a candidate for the four jobs of the comparison. *)
Definition totals_are (scores : pyval) (admin computer education security : Q)
  : Prop :=
  truthy scores = true /\
  total_is scores "Administrative Officer" admin /\
  total_is scores "Computer Studies Instructor" computer /\
  total_is scores "Education Lecturer" education /\
  total_is scores "Security Instructor" security.

(** The candidate's total for the job is printed as the number [q]. *)
Definition total_prints (scores : pyval) (job : string) (q : Q) : Prop :=
  exists v, total_of scores job = Ok v /\ format_1f v = Ok q.

(** The totals of a candidate for the four jobs, each of them printed. *)
Definition totals_print (scores : pyval) (admin computer education security : Q)
  : Prop :=
  truthy scores = true /\
  total_prints scores "Administrative Officer" admin /\
  total_prints scores "Computer Studies Instructor" computer /\
  total_prints scores "Education Lecturer" education /\
  total_prints scores "Security Instructor" security.

Definition ahead_count (a b c : bool) : nat :=
  (if a then 1 else 0) + ((if b then 1 else 0) + ((if c then 1 else 0) + 0)).

(** The score matrix of the two candidates. *)
Definition matrix (lenar_scores new_scores : pyval) : pyval :=
  PDict [("Lenar", lenar_scores); ("New", new_scores)].

(** Scores of a candidate who fits the administrative job, and of one who
    fits the instructor jobs. *)
Definition administrative_scores : pyval :=
  PDict [("Administrative Officer", PDict [("total_score", PInt 80)]);
         ("Education Lecturer", PDict [("total_score", PInt 30)]);
         ("Security Instructor", PDict [("total_score", PInt 20)])].

Definition teaching_scores : pyval :=
  PDict [("Administrative Officer", PDict [("total_score", PInt 40)]);
         ("Education Lecturer", PDict [("total_score", PInt 90)]);
         ("Security Instructor", PDict [("total_score", PInt 70)])].

End Logic.

Import Logic.

(* ===================================================================== *)
(** ** The comparison run *)
(* ===================================================================== *)

Module Run.

(** [list] and [dict] values cannot be put in a [set]. *)
Definition hashable (v : pyval) : bool :=
  match v with
  | PList _ | PDict _ => false
  | _ => true
  end.

(** [a == b] between hashable values: numbers by value ([True == 1 == 1.0]),
    strings by content. *)
Definition py_eqb (a b : pyval) : bool :=
  match a, b with
  | PNone, PNone => true
  | PStr s, PStr t => String.eqb s t
  | _, _ =>
      match py_number a, py_number b with
      | Some x, Some y => Qeq_bool x y
      | _, _ => false
      end
  end.

(** The elements of [set(values)], in the order of their first insertion,
    on top of those [seen] already. *)
Fixpoint py_set_from (seen values : list pyval) : result (list pyval) :=
  match values with
  | [] => Ok seen
  | v :: rest =>
      if hashable v then
        if existsb (py_eqb v) seen
        then py_set_from seen rest
        else py_set_from (seen ++ [v]) rest
      else Raise (mk_exn TypeError ("unhashable type: '" ++ type_name v ++ "'"))
  end.

Definition py_set (values : list pyval) : result (list pyval) :=
  py_set_from [] values.

(** No two elements of the list are equal as Python values. *)
Fixpoint pairwise_distinct (values : list pyval) : Prop :=
  match values with
  | [] => True
  | v :: rest => existsb (py_eqb v) rest = false /\ pairwise_distinct rest
  end.

Definition test_files : list (string * string) :=
  [("Lenar", "Sample PDS Lenar.xlsx"); ("New", "Sample PDS New.xlsx")].

Definition test_jobs : list (string * Z) :=
  [("Administrative Officer", 2%Z); ("Computer Studies Instructor", 5%Z);
   ("Education Lecturer", 3%Z); ("Security Instructor", 4%Z)].

Definition sample_files_dir : string := "SamplePDSFiles".

(** A loop that a [return] in its body can leave: [None] after the
    [return]. *)
Fixpoint cfor_until {A S : Type} (xs : list A)
         (body : A -> S -> console (option S)) (s : S) : console (option S) :=
  match xs with
  | [] => emit (Ok (Some s))
  | x :: rest =>
      r <~ body x s ;;
      match r with
      | None => emit (Ok None)
      | Some s' => cfor_until rest body s'
      end
  end.

Definition print_each (values : list pyval) : console unit :=
  cfor values (fun v _ => print (Bullet v)) tt.

Section Harness.

(** The order in which a set of the given elements is iterated. *)
Variable set_order : list pyval -> list pyval.

(** [os.path.join] and [os.path.exists]. *)
Variable path_join : string -> string -> string.
Variable path_exists : string -> bool.

(** [self.extractor.extract_pds_data], of improved_pds_extractor.py. *)
Variable extractor : string -> result pyval.

(** The database: see [get_job_posting_data]. *)
Variable query_posting : Z -> result (option job_row).

Variable engine : pyval -> pyval -> result pyval.

Definition extract_pds_data (filename : string) : console pyval :=
  let filepath := path_join sample_files_dir filename in
  if negb (path_exists filepath) then
    emit (Raise (mk_exn (ExceptionSubclass "FileNotFoundError")
                        ("Sample file not found: " ++ filepath)))
  else
    _ <~ print (Extracting filename) ;;
    result <~ emit (extractor filepath) ;;
    if negb (truthy result) then
      emit (Raise (mk_exn (ExceptionSubclass "Exception")
                          ("Failed to extract from " ++ filename
                             ++ ": No data returned")))
    else emit (Ok result).

Definition education_block (analysis : Analyzer.analysis) : console unit :=
  match education_fields analysis with
  | [] => emit (Ok tt)
  | fields =>
      _ <~ print (Heading "Education Fields") ;;
      print_each (firstn 5 fields)
  end.

Definition work_block (analysis : Analyzer.analysis) : console unit :=
  match work_experience_areas analysis with
  | [] => emit (Ok tt)
  | areas =>
      _ <~ print (Heading "Work Experience Areas") ;;
      unique <~ emit (py_set areas) ;;
      print_each (firstn 5 (set_order unique))
  end.

Definition training_block (analysis : Analyzer.analysis) : console unit :=
  match training_areas analysis with
  | [] => emit (Ok tt)
  | titles =>
      _ <~ print (Heading "Training Areas") ;;
      print_each (firstn 3 titles)
  end.

Definition print_pds_background_summary (name : string) (pds_data : pyval)
  : console unit :=
  analysis <~ emit (analyze_pds_background pds_data) ;;
  _ <~ print (SummaryOf name) ;;
  _ <~ print Rule ;;
  _ <~ education_block analysis ;;
  _ <~ work_block analysis ;;
  training_block analysis.

(** [calculate_score] on the console of the run, which takes every line:
    the result, with the two lines the handler prints. *)
Definition calculate_score_printing (pds_data job_data : pyval) : console pyval :=
  ctry (emit (calculate_score_body engine pds_data job_data))
       (fun e =>
          _ <~ print (ErrorCalculating (exc_str e)) ;;
          _ <~ print (TracebackOf (exc_str e)) ;;
          emit (Ok (error_scores (exc_str e)))).

(** Body of [for name, filename in self.test_files.items()]. *)
Definition load_pds (entry : string * string) (pds_data : list (string * pyval))
  : console (option (list (string * pyval))) :=
  let (name, filename) := entry in
  ctry (_ <~ print (Processing name) ;;
        data <~ extract_pds_data filename ;;
        _ <~ print_pds_background_summary name data ;;
        _ <~ print Blank ;;
        emit (Ok (Some (pds_data ++ [(name, data)]))))
       (fun e =>
          _ <~ print (FailedToProcess name (exc_str e)) ;;
          emit (Ok None)).

(** Body of [for job_name, job_id in self.test_jobs.items()]. *)
Definition load_job (entry : string * Z) (job_data : list (string * pyval))
  : console (option (list (string * pyval))) :=
  let (job_name, job_id) := entry in
  ctry (job <~ emit (get_job_posting_data query_posting job_id) ;;
        _ <~ print (LoadedJob job_name job_id) ;;
        emit (Ok (Some (job_data ++ [(job_name, job)]))))
       (fun e =>
          _ <~ print (FailedToLoadJob job_name (exc_str e)) ;;
          emit (Ok None)).

(** [f"{score_result[key]:.1f}"] *)
Definition formatted (score_result : pyval) (key : string) : console Q :=
  v <~ emit (py_getitem score_result key) ;;
  emit (format_1f v).

(** Body of [for job_name, job in job_data.items()]. *)
Definition score_job (pds : pyval) (entry : string * pyval)
           (row : list (string * pyval)) : console (list (string * pyval)) :=
  let (job_name, job) := entry in
  _ <~ print (Calculating job_name) ;;
  score_result <~ calculate_score_printing pds job ;;
  total <~ formatted score_result "total_score" ;;
  _ <~ print (ScoreOf job_name total) ;;
  education <~ formatted score_result "education_score" ;;
  experience <~ formatted score_result "experience_score" ;;
  training <~ formatted score_result "training_score" ;;
  eligibility <~ formatted score_result "eligibility_score" ;;
  _ <~ print (Breakdown education experience training eligibility) ;;
  emit (Ok (row ++ [(job_name, score_result)])).

(** Body of [for pds_name, pds in pds_data.items()]. *)
Definition score_pds (job_data : list (string * pyval)) (entry : string * pyval)
           (results : list (string * pyval)) : console (list (string * pyval)) :=
  let (pds_name, pds) := entry in
  _ <~ print (ScoresOf pds_name) ;;
  _ <~ print Rule ;;
  row <~ cfor job_data (score_job pds) [] ;;
  emit (Ok (results ++ [(pds_name, PDict row)])).

Definition run_comparison_test : console unit :=
  _ <~ print (Heading "PDS Scoring Logic Validation Test") ;;
  _ <~ print Rule ;;
  _ <~ print Blank ;;
  loaded <~ cfor_until test_files load_pds [] ;;
  match loaded with
  | None => emit (Ok tt)
  | Some pds_data =>
      jobs <~ cfor_until test_jobs load_job [] ;;
      match jobs with
      | None => emit (Ok tt)
      | Some job_data =>
          _ <~ print Blank ;;
          _ <~ print (Heading "Scoring Comparison Results") ;;
          _ <~ print Rule ;;
          results <~ cfor pds_data (score_pds job_data) [] ;;
          _ <~ print Blank ;;
          analyze_scoring_logic (PDict results)
      end
  end.

(** [main], the test object being built already. *)
Definition main : console unit :=
  _ <~ ctry run_comparison_test
            (fun e =>
               _ <~ print (TestFailed (exc_str e)) ;;
               print (TracebackOf (exc_str e))) ;;
  print TestCompleted.

(** The sample is there, is extracted to truthy data, and its summary
    is printed without an error. *)
Definition sample_loads (name filename : string) : Prop :=
  path_exists (path_join sample_files_dir filename) = true /\
  exists data,
    extractor (path_join sample_files_dir filename) = Ok data /\
    truthy data = true /\
    snd (print_pds_background_summary name data) = Ok tt.

Definition every_sample_loads : Prop :=
  forall name filename, In (name, filename) test_files -> sample_loads name filename.

Definition every_job_found : Prop :=
  forall job_name job_id,
    In (job_name, job_id) test_jobs -> exists row, query_posting job_id = Ok (Some row).

End Harness.







(** Sample inputs of a run: a path join, and a posting. *)
Definition posix_join (a b : string) : string := (a ++ "/" ++ b)%string.

Definition sample_row : job_row :=
  mk_job_row (PInt 2) (PStr "Administrative Officer IV") (PStr "HRMO")
             (PStr "Bachelor's degree in Human Resource") PNone
             (PStr "HR officer experience") (PStr "Career Service Professional").

(** A line that is neither the start of a calculation, nor the error of
    one, nor a verdict. *)
Definition is_quiet (l : line) : bool :=
  match l with
  | Calculating _ | Verdict _ | ErrorCalculating _ => false
  | _ => true
  end.

(** The lines of a given kind of an output. *)
Definition bullets (out : list line) : list pyval :=
  flat_map (fun l => match l with Bullet v => [v] | _ => [] end) out.

Definition calculations (out : list line) : list string :=
  flat_map (fun l => match l with Calculating job => [job] | _ => [] end) out.


End Run.

Import Run.

(* ===================================================================== *)
(** ** The security manager: responses *)
(* ===================================================================== *)

Module Responses.

Definition sensitive_fields : list string := ["password"; "secret"; "key"; "token"].

Definition database_fields : list string :=
  ["id"; "user_id"; "created_at"; "updated_at"].

(** [key in names] *)
Definition mem (key : string) (names : list string) : bool :=
  existsb (String.eqb key) names.

(** [d[key] = v]: the value of an existing key is replaced where the key
    stands, a new key goes to the end. *)
Fixpoint dict_set (key : string) (v : pyval) (d : list (string * pyval))
  : list (string * pyval) :=
  match d with
  | [] => [(key, v)]
  | (k, old) :: rest =>
      if String.eqb key k then (k, v) :: rest else (k, old) :: dict_set key v rest
  end.

Section Digest.

(** [hashlib.md5(key.encode()).hexdigest()] *)
Variable md5_hexdigest : string -> string.

Definition new_key (key : string) : string :=
  if mem key database_fields
  then ("_" ++ String.substring 0 6 (md5_hexdigest key))%string
  else key.

(** Body of [for key, value in data.items()], given the function for the
    values. *)
Definition obfuscate_item (recur : pyval -> pyval)
           (obfuscated : list (string * pyval)) (item : string * pyval)
  : list (string * pyval) :=
  match item with
  | (key, value) =>
      if mem key sensitive_fields then obfuscated
      else dict_set (new_key key) (recur value) obfuscated
  end.

Fixpoint obfuscate_response_data (data : pyval) : pyval :=
  match data with
  | PDict items =>
      PDict (fold_left (obfuscate_item obfuscate_response_data) items [])
  | PList items => PList (map obfuscate_response_data items)
  | _ => data
  end.

End Digest.

(** The keys of every mapping in the data, at any depth. *)
Fixpoint keys_deep (data : pyval) : list string :=
  match data with
  | PDict items =>
      flat_map (fun item => match item with (k, v) => k :: keys_deep v end) items
  | PList items => flat_map keys_deep items
  | _ => []
  end.

(** No mapping in the data, at any depth, has a key twice. *)
Fixpoint keys_unique (data : pyval) : Prop :=
  match data with
  | PDict items =>
      NoDup (map fst items) /\
      (fix all (l : list (string * pyval)) : Prop :=
         match l with
         | [] => True
         | (_, v) :: rest => keys_unique v /\ all rest
         end) items
  | PList items =>
      (fix all (l : list pyval) : Prop :=
         match l with
         | [] => True
         | v :: rest => keys_unique v /\ all rest
         end) items
  | _ => True
  end.

End Responses.

Import Responses.

(* ===================================================================== *)
(** ** The security manager: API keys *)
(* ===================================================================== *)

Module ApiKeys.

(** The entry stored for a key; the instants are microseconds on the
    clock that [datetime.now()] reads. *)
Record key_info : Type := mk_key_info {
  ki_user_id : pyval;
  ki_created : Z;
  ki_expires : Z
}.

(** [self.api_keys] *)
Definition key_store : Type := list (string * key_info).

Fixpoint store_get (key : string) (store : key_store) : option key_info :=
  match store with
  | [] => None
  | (k, info) :: rest => if String.eqb key k then Some info else store_get key rest
  end.

(** [store[key] = info] *)
Fixpoint store_set (key : string) (info : key_info) (store : key_store) : key_store :=
  match store with
  | [] => [(key, info)]
  | (k, old) :: rest =>
      if String.eqb key k then (k, info) :: rest
      else (k, old) :: store_set key info rest
  end.

(** [del store[key]] *)
Definition store_del (key : string) (store : key_store) : key_store :=
  filter (fun entry => negb (String.eqb key (fst entry))) store.

(** [timedelta(hours=1)] *)
Definition one_hour : Z := 3600000000.

Section Keys.

(** The text of the key: the base-64 form of the user, the time stamp and
    the salt. *)
Variable encode_key : pyval -> Z -> string -> string.

Variable obfuscation_salt : string.

(** [generate_dynamic_api_key]; the clock is read three times. *)
Definition generate_dynamic_api_key (stamp created expires_from : Z)
           (user_id : pyval) (store : key_store) : string * key_store :=
  let api_key :=
    encode_key (py_or user_id (PStr "anonymous")) stamp obfuscation_salt in
  (api_key,
   store_set api_key (mk_key_info user_id created (expires_from + one_hour)) store).

End Keys.

(** [validate_api_key]; the clock is read when the key is known. *)
Definition validate_api_key (now : Z) (api_key : string) (store : key_store)
  : bool * key_store :=
  match store_get api_key store with
  | None => (false, store)
  | Some key_info =>
      if (ki_expires key_info <? now)%Z
      then (false, store_del api_key store)
      else (true, store)
  end.

(** What the decorated endpoint does with a request: the header and the
    query argument are [None] when absent, [g.security_manager] likewise.
    [jsonify] is neither imported nor defined in security_manager.py, so
    the two statements that return a 401 response raise [NameError] when
    they look the name up. *)
Definition jsonify_undefined : exn :=
  mk_exn (ExceptionSubclass "NameError") "name 'jsonify' is not defined".

Definition first_truthy (a b : option string) : option string :=
  match a with
  | Some s => if String.eqb s "" then b else Some s
  | None => b
  end.

Definition is_set (key : option string) : bool :=
  match key with
  | Some s => negb (String.eqb s "")
  | None => false
  end.

Definition require_api_key {R : Type} (f : result R)
           (header argument : option string) (manager : option key_store) (now : Z)
  : result R * option key_store :=
  let api_key := first_truthy header argument in
  match api_key with
  | Some key =>
      if is_set api_key then
        match manager with
        | None => (Raise jsonify_undefined, manager)
        | Some store =>
            let (valid, store') := validate_api_key now key store in
            if valid then (f, Some store')
            else (Raise jsonify_undefined, Some store')
        end
      else (Raise jsonify_undefined, manager)
  | None => (Raise jsonify_undefined, manager)
  end.

End ApiKeys.

Import ApiKeys.

(* ===================================================================== *)
(** ** Python [str] operations of the security tools *)
(* ===================================================================== *)

(** A [str] is a [string] with one character for each code point, so the
    texts covered are those whose code points are all below 256. *)
Module PyStr.

Definition code (c : ascii) : nat := nat_of_ascii c.

Definition between (lo hi : nat) (c : ascii) : bool :=
  (lo <=? code c)%nat && (code c <=? hi)%nat.

(** [c.isspace()]: the controls 9 to 13 and 28 to 31, the blank, NEL and
    the no-break space. *)
Definition isspace (c : ascii) : bool :=
  between 9 13 c || between 28 32 c || (code c =? 133)%nat || (code c =? 160)%nat.

(** [c.lower()]: the letters A to Z, and the accented capitals 192 to 222
    but for the multiplication sign 215. *)
Definition lower_char (c : ascii) : ascii :=
  if between 65 90 c || between 192 214 c || between 216 222 c
  then ascii_of_nat (code c + 32)
  else c.

Fixpoint lower (s : string) : string :=
  match s with
  | EmptyString => EmptyString
  | String c rest => String (lower_char c) (lower rest)
  end.

Fixpoint lstrip (s : string) : string :=
  match s with
  | EmptyString => EmptyString
  | String c rest => if isspace c then lstrip rest else s
  end.

Fixpoint rstrip (s : string) : string :=
  match s with
  | EmptyString => EmptyString
  | String c rest =>
      match rstrip rest with
      | EmptyString => if isspace c then EmptyString else String c EmptyString
      | kept => String c kept
      end
  end.

(** [s.strip()] *)
Definition strip (s : string) : string := lstrip (rstrip s).

Definition newline : ascii := ascii_of_nat 10.

(** [s.split(sep)] for a separator of one character: never empty. *)
Fixpoint split_char (sep : ascii) (s : string) : list string :=
  match s with
  | EmptyString => [EmptyString]
  | String c rest =>
      if Ascii.eqb c sep then EmptyString :: split_char sep rest
      else match split_char sep rest with
           | [] => [String c EmptyString]
           | piece :: pieces => String c piece :: pieces
           end
  end.

(** [s.split(sep)[0]]: the text before the first [sep]. *)
Fixpoint before (sep s : string) : string :=
  match s with
  | EmptyString => EmptyString
  | String c rest =>
      if String.prefix sep s then EmptyString else String c (before sep rest)
  end.

(** [s.find(needle)]: the first index, or -1. *)
Fixpoint find (needle s : string) : Z :=
  if String.prefix needle s then 0%Z
  else match s with
       | EmptyString => (-1)%Z
       | String _ rest =>
           let i := find needle rest in
           if (i =? -1)%Z then (-1)%Z else (1 + i)%Z
       end.

(** [s[:n]] and [s[n:]] for [n >= 0]. *)
Fixpoint take (n : nat) (s : string) : string :=
  match n, s with
  | S m, String c rest => String c (take m rest)
  | _, _ => EmptyString
  end.

Fixpoint drop (n : nat) (s : string) : string :=
  match n, s with
  | S m, String _ rest => drop m rest
  | _, _ => s
  end.

Definition truthy (s : string) : bool :=
  match s with EmptyString => false | _ => true end.

Definition mem (s : string) (names : list string) : bool :=
  existsb (String.eqb s) names.

(** [c.isalnum()] on a code point below 256. *)
Definition isalnum (c : ascii) : bool :=
  between 48 57 c || between 65 90 c || between 97 122 c
  || (code c =? 170)%nat || between 178 179 c || (code c =? 181)%nat
  || between 185 186 c || between 188 190 c
  || between 192 214 c || between 216 246 c || between 248 255 c.

(** [''.join(c for c in s if p(c))] *)
Fixpoint keep_chars (p : ascii -> bool) (s : string) : string :=
  match s with
  | EmptyString => EmptyString
  | String c rest => if p c then String c (keep_chars p rest) else keep_chars p rest
  end.

(** [s.replace(old, new)] for an [old] that is not empty: the occurrences
    are taken from the left and do not overlap; [skip] counts what is
    left to pass of the occurrence just replaced. *)
Fixpoint replace_skip (old new : string) (skip : nat) (s : string) : string :=
  match s with
  | EmptyString => EmptyString
  | String c rest =>
      match skip with
      | S k => replace_skip old new k rest
      | O =>
          if String.prefix old s
          then (new ++ replace_skip old new (String.length old - 1) rest)%string
          else String c (replace_skip old new 0 rest)
      end
  end.

Definition replace (old new s : string) : string := replace_skip old new 0 s.

Fixpoint has_char (c : ascii) (s : string) : bool :=
  match s with
  | EmptyString => false
  | String d rest => Ascii.eqb d c || has_char c rest
  end.

End PyStr.

(* ===================================================================== *)
(** ** [security_manager.py]: [SecurityManager.minify_js] *)
(* ===================================================================== *)

Module Scripts.
Import PyStr.

(** One turn of the loop over the lines. *)
Definition minify_line (minified_lines : list string) (line : string) : list string :=
  let line := if str_contains "//" line && negb (str_contains "http" (lower line))
              then before "//" line
              else line in
  let line := strip line in
  if truthy line then minified_lines ++ [line] else minified_lines.

Definition minify_js (js_content : string) : string :=
  let lines := split_char newline js_content in
  let minified_lines := fold_left minify_line lines [] in
  String.concat " " minified_lines.

Section Salted.

(** [hashlib.md5(text.encode()).hexdigest()], and the salt drawn when the
    manager is made. *)
Variable md5_hexdigest : string -> string.
Variable obfuscation_salt : string.

Definition _obfuscate_name (name : string) : string :=
  let hash_hex := md5_hexdigest (name ++ obfuscation_salt) in
  ("_" ++ keep_chars isalnum (take 8 hash_hex))%string.

Definition obfuscation_map : list (string * string) :=
  [ ("UploadModule", _obfuscate_name "UploadModule");
    ("NavigationModule", _obfuscate_name "NavigationModule");
    ("CandidatesModule", _obfuscate_name "CandidatesModule");
    ("DashboardModule", _obfuscate_name "DashboardModule");
    ("loadJobPostings", _obfuscate_name "loadJobPostings");
    ("selectedJobId", _obfuscate_name "selectedJobId");
    ("uploadFiles", _obfuscate_name "uploadFiles");
    ("processResults", _obfuscate_name "processResults");
    ("console.log", "void 0;//");
    ("console.error", "void 0;//");
    ("console.warn", "void 0;//");
    ("debugCheckElements", _obfuscate_name "debugCheckElements") ].

Definition obfuscate_js_variables (js_content : string) : string :=
  fold_left (fun obfuscated_content '(original, obfuscated) =>
               replace original obfuscated obfuscated_content)
            obfuscation_map js_content.

End Salted.

(** The names [obfuscate_js_variables] looks for. *)
Definition replaced_names : list string :=
  [ "UploadModule"; "NavigationModule"; "CandidatesModule"; "DashboardModule";
    "loadJobPostings"; "selectedJobId"; "uploadFiles"; "processResults";
    "console.log"; "console.error"; "console.warn"; "debugCheckElements" ].

(** What one line leaves to be kept, if it is not empty. *)
Definition kept_of (line : string) : string :=
  strip (if str_contains "//" line && negb (str_contains "http" (lower line))
         then before "//" line else line).

(** What every kept line satisfies. *)
Definition tidy (piece : string) : Prop :=
  piece <> EmptyString /\ lstrip piece = piece /\ rstrip piece = piece /\
  (str_contains "//" piece = true -> str_contains "http" (lower piece) = true).

End Scripts.

(* ===================================================================== *)
(** ** [template_security.py]: the decoys and the framework names *)
(* ===================================================================== *)

Module Template.
Import PyStr.

Definition quote : string := String (ascii_of_nat 34) EmptyString.
Definition nl : string := String newline EmptyString.

Definition decoys : list string :=
  [ "<!-- Generated with Advanced Security Framework -->";
    "<meta name=" ++ quote ++ "generator" ++ quote ++ " content=" ++ quote
      ++ "Custom Enterprise Solution" ++ quote ++ ">";
    "<!-- Security: Level 5 Obfuscation Active -->" ]%string.

Definition decoy_html : string := String.concat (nl ++ "    ") decoys.

(** The text put in front of the end of the head. *)
Definition decoy_block : string := (nl ++ "    " ++ decoy_html ++ nl)%string.

Definition _add_decoy_elements (html_content : string) : string :=
  let head_end := find "</head>" html_content in
  if negb (head_end =? -1)%Z
  then (take (Z.to_nat head_end) html_content ++ decoy_block
        ++ drop (Z.to_nat head_end) html_content)%string
  else html_content.

Definition framework_prefixes : list string :=
  [ "btn"; "col"; "row"; "container"; "navbar"; "nav-"; "card";
    "form"; "input"; "alert"; "badge"; "modal"; "dropdown";
    "fa-"; "fas"; "far"; "fab"; "text-"; "bg-"; "d-"; "p-"; "m-";
    "border"; "rounded"; "shadow"; "position-"; "w-"; "h-" ].

Definition _is_framework_class (class_name : string) : bool :=
  existsb (fun prefix => String.prefix prefix class_name) framework_prefixes.

Definition framework_ids : list string :=
  [ "navbarNav"; "offcanvasNav"; "toast-container" ].

Definition _is_framework_id (id_name : string) : bool := mem id_name framework_ids.

End Template.

(* ===================================================================== *)
(** ** [security_toggle.py] *)
(* ===================================================================== *)

(** The file [.env.local] is the state: [None] while it does not exist,
    its text otherwise.  The console takes every line that is printed. *)
Module Toggle.
Import PyStr.

Inductive mode := Development | Production.

Inductive status := Secured | Unsecured | Undefined.

(** One constructor for each [print]; [Said] carries the text of the
    lines that are plain ASCII. *)
Inductive line :=
| Switching (m : mode)
| Enabled (m : mode)
| Features (m : mode)
| Said (text : string)
| StatusHeading
| ModeIs (s : status)
| Commands
| InvalidOption.

(** The file [.env.local]: absent, a file with its text, or something
    that is there and cannot be read as text (a directory, a file the user
    may not read, bytes that do not decode), with the exception that
    [open] or [read] raises on it. *)
Inductive env_file :=
| Absent
| Holds (content : string)
| Unreadable (e : exn).

(** A run: the lines printed, the file it leaves, and how it ended. *)
Record outcome : Type := mk_outcome {
  printed : list line;
  file_after : env_file;
  ended : result unit
}.

Definition nl : string := String newline EmptyString.

Definition development_env : string :=
  ("FLASK_ENV=development" ++ nl ++
   "PRODUCTION_MODE=false" ++ nl ++
   "DEBUG=true" ++ nl ++
   "ENABLE_SECURITY_FEATURES=false" ++ nl ++
   "OBFUSCATE_CODE=false" ++ nl ++
   "MINIFY_ASSETS=false" ++ nl ++
   "REMOVE_DEBUG_INFO=false" ++ nl)%string.

Definition production_env : string :=
  ("FLASK_ENV=production" ++ nl ++
   "PRODUCTION_MODE=true" ++ nl ++
   "DEBUG=false" ++ nl ++
   "ENABLE_SECURITY_FEATURES=true" ++ nl ++
   "OBFUSCATE_CODE=true" ++ nl ++
   "MINIFY_ASSETS=true" ++ nl ++
   "REMOVE_DEBUG_INFO=true" ++ nl)%string.

Section Device.

(** What [print] does with a line: it returns, or it raises and prints
    nothing of the line (UnicodeEncodeError, on a console that cannot
    encode it). *)
Variable say : line -> result unit.

(** What [open('.env.local', 'w')] does: it returns, and the text is
    written, or it raises and the file stays as it was. *)
Variable open_for_writing : result unit.

(** [print] of each line in turn, as far as the first that raises. *)
Fixpoint say_all (lines : list line) : list line * result unit :=
  match lines with
  | [] => ([], Ok tt)
  | l :: rest =>
      match say l with
      | Ok _ => let (out, r) := say_all rest in (l :: out, r)
      | Raise e => ([], Raise e)
      end
  end.

(** The common course of the two switches: the first [print], the
    [with open('.env.local', 'w') as f: f.write(settings)], the other
    [print]s. *)
Definition switch (first : line) (settings : string) (others : list line)
           (file : env_file) : outcome :=
  match say first with
  | Raise e => mk_outcome [] file (Raise e)
  | Ok _ =>
      match open_for_writing with
      | Raise e => mk_outcome [first] file (Raise e)
      | Ok _ =>
          let (out, r) := say_all others in
          mk_outcome (first :: out) (Holds settings) r
      end
  end.

Definition set_development_mode (file : env_file) : outcome :=
  switch (Switching Development) development_env
         [ Enabled Development;
           Features Development;
           Said "   - JavaScript obfuscation: OFF";
           Said "   - Template processing: OFF";
           Said "   - API key protection: OFF";
           Said "   - Debug removal: OFF";
           Said "   - Console logs: VISIBLE" ]
         file.

Definition set_production_mode (file : env_file) : outcome :=
  switch (Switching Production) production_env
         [ Enabled Production;
           Features Production;
           Said "   - JavaScript obfuscation: ON";
           Said "   - Template processing: ON";
           Said "   - API key protection: ON";
           Said "   - Debug removal: ON";
           Said "   - Console logs: STRIPPED" ]
         file.

(** The mode that a file which can be read stands for. *)
Definition current_status (file : env_file) : status :=
  match file with
  | Holds content =>
      if str_contains "PRODUCTION_MODE=true" content then Secured else Unsecured
  | _ => Undefined
  end.

Definition show_current_status (file : env_file) : outcome :=
  match say StatusHeading with
  | Raise e => mk_outcome [] file (Raise e)
  | Ok _ =>
      match file with
      | Unreadable e => mk_outcome [StatusHeading] file (Raise e)
      | _ =>
          let (out, r) :=
            say_all
              [ ModeIs (current_status file);
                Said "";
                Commands;
                Said "   python security_toggle.py dev   - Enable development mode";
                Said "   python security_toggle.py prod  - Enable production mode";
                Said "   python security_toggle.py status - Show current status" ] in
          mk_outcome (StatusHeading :: out) file r
      end
  end.

Definition main (argv : list string) (file : env_file) : outcome :=
  match argv with
  | _ :: argument :: _ =>
      let mode := lower argument in
      if mem mode ["dev"; "development"] then set_development_mode file
      else if mem mode ["prod"; "production"] then set_production_mode file
      else if mem mode ["status"; "check"] then show_current_status file
      else
        match say InvalidOption with
        | Raise e => mk_outcome [] file (Raise e)
        | Ok _ =>
            let shown := show_current_status file in
            mk_outcome (InvalidOption :: printed shown) (file_after shown)
                       (ended shown)
        end
  | _ => show_current_status file
  end.

End Device.




End Toggle.

(* ===================================================================== *)
(** ** Theorems: the background analyzer *)
(* ===================================================================== *)

Lemma for_each_app {A S : Type} (body : A -> S -> result S) (xs ys : list A) (s : S) :
  for_each (xs ++ ys) body s = bind (for_each xs body s) (for_each ys body).
Proof.
  revert s. induction xs as [|x xs IH]; intros s; simpl; [reflexivity|].
  destruct (body x s) as [s'|e]; simpl; [apply IH | reflexivity].
Qed.

(** A loop whose body only extends one list extends it by the
    contributions of the items, in the order of the items. *)
Section Accumulate.

Variable A : Type.
Variable extend : list pyval -> analysis -> analysis.
Hypothesis extend_nil : forall a, extend [] a = a.
Hypothesis extend_app : forall xs ys a, extend ys (extend xs a) = extend (xs ++ ys) a.

Variable body : A -> analysis -> result analysis.
Variable contrib : A -> list pyval.
Hypothesis body_extends : forall x a, body x a = Ok (extend (contrib x) a).

Lemma for_each_extends (xs : list A) (a : analysis) :
  for_each xs body a = Ok (extend (flat_map contrib xs) a).
Proof.
  revert a. induction xs as [|x xs IH]; intros a; simpl.
  - now rewrite extend_nil.
  - rewrite body_extends. simpl. rewrite IH, extend_app. reflexivity.
Qed.

End Accumulate.

Lemma extend_education_nil a : extend_education [] a = a.
Proof. destruct a; unfold extend_education; simpl; now rewrite app_nil_r. Qed.

Lemma extend_work_nil a : extend_work [] a = a.
Proof. destruct a; unfold extend_work; simpl; now rewrite app_nil_r. Qed.

Lemma extend_training_nil a : extend_training [] a = a.
Proof. destruct a; unfold extend_training; simpl; now rewrite app_nil_r. Qed.

Lemma extend_education_app xs ys a :
  extend_education ys (extend_education xs a) = extend_education (xs ++ ys) a.
Proof. unfold extend_education; simpl; now rewrite app_assoc. Qed.

Lemma extend_work_app xs ys a :
  extend_work ys (extend_work xs a) = extend_work (xs ++ ys) a.
Proof. unfold extend_work; simpl; now rewrite app_assoc. Qed.

Lemma extend_training_app xs ys a :
  extend_training ys (extend_training xs a) = extend_training (xs ++ ys) a.
Proof. unfold extend_training; simpl; now rewrite app_assoc. Qed.

Lemma analyze_course_extends (course : pyval) (a : analysis) :
  analyze_course course a = Ok (extend_education (course_contrib course) a).
Proof.
  unfold analyze_course, course_contrib, field_contrib.
  destruct course; simpl; rewrite ?extend_education_nil; try reflexivity.
  destruct (lookup "course" items) as [v|]; simpl;
    rewrite ?extend_education_nil; try reflexivity.
  destruct (truthy v); simpl; rewrite ?extend_education_nil; reflexivity.
Qed.

Lemma truthy_level_courses (v : pyval) :
  truthy v = false -> level_courses (Some v) = [].
Proof.
  destruct v; simpl; try reflexivity.
  - destruct items; [reflexivity | discriminate].
  - destruct items; [reflexivity | discriminate].
Qed.

Lemma analyze_level_extends (edu : list (string * pyval)) (level : string)
      (a : analysis) :
  analyze_level (PDict edu) level a =
  Ok (extend_education (level_courses (lookup level edu)) a).
Proof.
  unfold analyze_level. cbn [py_contains py_getitem bind].
  destruct (lookup level edu) as [held|] eqn:L; cbn [bind];
    [|now rewrite extend_education_nil].
  destruct (truthy held) eqn:T;
    [|now rewrite (truthy_level_courses held T), extend_education_nil].
  destruct held; simpl; rewrite ?extend_education_nil; try reflexivity.
  - apply for_each_extends;
      auto using extend_education_nil, extend_education_app, analyze_course_extends.
  - unfold course_contrib, field_contrib.
    destruct (lookup "course" items) as [v|]; simpl;
      rewrite ?extend_education_nil; try reflexivity.
    destruct (truthy v); simpl; rewrite ?extend_education_nil; reflexivity.
Qed.

Lemma analyze_exp_extends (exp : pyval) (a : analysis) :
  analyze_exp exp a = Ok (extend_work (exp_contrib exp) a).
Proof.
  unfold analyze_exp, exp_contrib, field_contrib.
  destruct exp; simpl; rewrite ?extend_work_nil; try reflexivity.
  destruct (lookup "position_title" items) as [p|];
    destruct (lookup "department_office" items) as [o|]; simpl;
    try destruct (truthy p); try destruct (truthy o); simpl;
    rewrite ?extend_work_nil; try reflexivity.
  unfold append_work, extend_work; simpl. now rewrite <- app_assoc.
Qed.

Lemma analyze_training_extends (training : pyval) (a : analysis) :
  analyze_training training a = Ok (extend_training (training_contrib training) a).
Proof.
  unfold analyze_training, training_contrib, field_contrib.
  destruct training; simpl; rewrite ?extend_training_nil; try reflexivity.
  destruct (lookup "title" items) as [t|]; simpl;
    try destruct (truthy t); simpl; rewrite ?extend_training_nil; reflexivity.
Qed.

Lemma education_phase (education : pyval) (a : analysis) :
  (if isinstance_dict education
   then for_each levels (analyze_level education) a
   else Ok a)
  = Ok (extend_education
          match education with
          | PDict edu => flat_map (fun level => level_courses (lookup level edu)) levels
          | _ => []
          end a).
Proof.
  destruct education; cbn [isinstance_dict];
    rewrite ?extend_education_nil; try reflexivity.
  apply (for_each_extends string extend_education
           extend_education_nil extend_education_app
           (analyze_level (PDict items))
           (fun level => level_courses (lookup level items))).
  intros; apply analyze_level_extends.
Qed.

Lemma work_phase (work_experience : pyval) (a : analysis) :
  match work_experience with
  | PList l => for_each l analyze_exp a
  | _ => Ok a
  end
  = Ok (extend_work
          match work_experience with
          | PList l => flat_map exp_contrib l
          | _ => []
          end a).
Proof.
  destruct work_experience; rewrite ?extend_work_nil; try reflexivity.
  apply for_each_extends;
    auto using extend_work_nil, extend_work_app, analyze_exp_extends.
Qed.

Lemma training_phase (learning_development : pyval) (a : analysis) :
  match learning_development with
  | PList l => for_each l analyze_training a
  | _ => Ok a
  end
  = Ok (extend_training
          match learning_development with
          | PList l => flat_map training_contrib l
          | _ => []
          end a).
Proof.
  destruct learning_development; rewrite ?extend_training_nil; try reflexivity.
  apply for_each_extends;
    auto using extend_training_nil, extend_training_app, analyze_training_extends.
Qed.

(** [analyze_pds_background] on a mapping returns the three buckets, and
    an empty [key_skills]. *)
Lemma analyze_pds_background_buckets (record : list (string * pyval)) :
  analyze_pds_background (PDict record) =
  Ok (mk_analysis (education_bucket record) (work_bucket record)
                  (training_bucket record) []).
Proof.
  unfold analyze_pds_background. cbn [py_get bind].
  rewrite education_phase. cbn [bind].
  rewrite work_phase. cbn [bind].
  rewrite training_phase. cbn [bind].
  unfold extend_training, extend_work, extend_education, empty_analysis.
  cbn [education_fields work_experience_areas training_areas key_skills app].
  unfold education_bucket, work_bucket, training_bucket.
  f_equal. f_equal.
  - now destruct (lookup "educational_background" record) as [[]|].
  - now destruct (lookup "work_experience" record) as [[]|].
  - now destruct (lookup "learning_development" record) as [[]|].
Qed.

(** *** Contributions of one entry *)

Lemma field_contrib_cases (key : string) (e : pyval) :
  field_contrib key e = if has_value key e then [field_value key e] else [].
Proof.
  unfold field_contrib, has_value, field_value.
  destruct e; simpl; try reflexivity.
  destruct (lookup key items) as [v|]; reflexivity.
Qed.

Lemma field_contrib_not_dict (key : string) (e : pyval) :
  isinstance_dict e = false -> field_contrib key e = [].
Proof. destruct e; simpl; intros H; [reflexivity .. | discriminate]. Qed.

Lemma field_contrib_truthy (key : string) (e v : pyval) :
  In v (field_contrib key e) -> truthy v = true.
Proof.
  rewrite field_contrib_cases. unfold has_value.
  destruct (isinstance_dict e); simpl; [|tauto].
  destruct (truthy (field_value key e)) eqn:T; simpl; [|tauto].
  intros [<-|[]]. exact T.
Qed.

Lemma flat_map_skip {A B : Type} (keep : A -> bool) (f : A -> list B) (l : list A) :
  (forall x, keep x = false -> f x = []) ->
  flat_map f (filter keep l) = flat_map f l.
Proof.
  intros Hskip. induction l as [|x l IH]; simpl; [reflexivity|].
  destruct (keep x) eqn:K; simpl.
  - now rewrite IH.
  - now rewrite (Hskip x K), IH.
Qed.

Lemma count_str_app (s : string) (xs ys : list pyval) :
  count_str s (xs ++ ys) = count_str s xs + count_str s ys.
Proof. unfold count_str. now rewrite filter_app, length_app. Qed.

Lemma truthy_str_nonempty (s : string) :
  truthy (PStr s) = true <-> s <> EmptyString.
Proof.
  simpl. destruct (String.eqb_spec s ""); simpl; split; congruence.
Qed.

Lemma count_str_field_contrib (key s : string) (e : pyval) :
  s <> EmptyString ->
  count_str s (field_contrib key e) = if holds_str key s e then 1 else 0.
Proof.
  intros Hs. rewrite field_contrib_cases. unfold has_value, holds_str, count_str.
  destruct (isinstance_dict e); simpl; [|reflexivity].
  destruct (field_value key e) as [|b|z|q|t|l|d]; simpl; try reflexivity.
  - now destruct b.
  - now destruct (negb (z =? 0)%Z).
  - now destruct (negb (Qeq_bool q 0)).
  - destruct (String.eqb_spec t "") as [->|Ht]; simpl.
    + destruct (String.eqb_spec s ""); [contradiction | reflexivity].
    + now destruct (s =? t)%string.
  - now destruct l.
  - now destruct d.
Qed.

Lemma count_str_flat_map (key s : string) (l : list pyval) :
  s <> EmptyString ->
  count_str s (flat_map (field_contrib key) l)
  = List.length (filter (holds_str key s) l).
Proof.
  intros Hs. induction l as [|e l IH]; simpl; [reflexivity|].
  rewrite count_str_app, count_str_field_contrib, IH by assumption.
  destruct (holds_str key s e); reflexivity.
Qed.

Lemma count_str_exp_contrib (s : string) (l : list pyval) :
  s <> EmptyString ->
  count_str s (flat_map exp_contrib l)
  = List.length (filter (holds_str "position_title" s) l)
    + List.length (filter (holds_str "department_office" s) l).
Proof.
  intros Hs. induction l as [|e l IH]; simpl; [reflexivity|].
  unfold exp_contrib at 1.
  rewrite !count_str_app, !count_str_field_contrib, IH by assumption.
  destruct (holds_str "position_title" s e);
    destruct (holds_str "department_office" s e); simpl; lia.
Qed.

Lemma level_courses_list (l : list pyval) :
  level_courses (Some (PList l)) = flat_map course_contrib l.
Proof. reflexivity. Qed.

Lemma level_courses_single (entry : list (string * pyval)) :
  level_courses (Some (PDict entry)) = level_courses (Some (PList [PDict entry])).
Proof. simpl. now rewrite app_nil_r. Qed.

Lemma flat_map_all_present (key : string) (entries : list pyval) :
  forallb (has_value key) entries = true ->
  flat_map (field_contrib key) entries = map (field_value key) entries.
Proof.
  induction entries as [|e l IH]; simpl; [reflexivity|].
  intros H. apply andb_prop in H as [He Hl].
  rewrite field_contrib_cases, He, IH by assumption. reflexivity.
Qed.

Lemma flat_map_keeps_order (contrib : pyval -> list pyval) (l : list pyval) :
  keeps_order contrib l (flat_map contrib l).
Proof.
  intros before first between second after ->.
  rewrite flat_map_app. simpl. rewrite flat_map_app. simpl.
  now rewrite <- ?app_assoc.
Qed.

Lemma level_courses_truthy (held : option pyval) (v : pyval) :
  In v (level_courses held) -> truthy v = true.
Proof.
  destruct held as [[| | | | |l|d]|]; simpl; try tauto.
  - intros H. apply in_flat_map in H as [e [_ He]].
    now apply field_contrib_truthy in He.
  - apply (field_contrib_truthy "course" (PDict d)).
Qed.

Lemma education_bucket_truthy (record : list (string * pyval)) (v : pyval) :
  In v (education_bucket record) -> truthy v = true.
Proof.
  unfold education_bucket.
  destruct (lookup "educational_background" record) as [[| | | | | |edu]|];
    simpl; try tauto.
  rewrite app_nil_r, !in_app_iff.
  intros [H|[H|H]]; now apply level_courses_truthy in H.
Qed.

Lemma work_bucket_truthy (record : list (string * pyval)) (v : pyval) :
  In v (work_bucket record) -> truthy v = true.
Proof.
  unfold work_bucket.
  destruct (lookup "work_experience" record) as [[| | | | |l|]|]; simpl; try tauto.
  intros H. apply in_flat_map in H as [e [_ He]].
  unfold exp_contrib in He. apply in_app_iff in He as [He|He];
    now apply field_contrib_truthy in He.
Qed.

Lemma training_bucket_truthy (record : list (string * pyval)) (v : pyval) :
  In v (training_bucket record) -> truthy v = true.
Proof.
  unfold training_bucket.
  destruct (lookup "learning_development" record) as [[| | | | |l|]|]; simpl; try tauto.
  intros H. apply in_flat_map in H as [e [_ He]].
  now apply field_contrib_truthy in He.
Qed.

Lemma analyze_raises_off_mappings (pds_data : pyval) (a : analysis) :
  analyze_pds_background pds_data = Ok a -> exists record, pds_data = PDict record.
Proof.
  destruct pds_data; simpl; try discriminate. intros _. now eexists.
Qed.

Lemma education_bucket_levels (record edu : list (string * pyval)) :
  lookup "educational_background" record = Some (PDict edu) ->
  education_bucket record =
    level_courses (lookup "college" edu) ++
    level_courses (lookup "graduate_studies" edu) ++
    level_courses (lookup "post_graduate" edu).
Proof.
  intros H. unfold education_bucket. rewrite H. simpl. now rewrite app_nil_r.
Qed.

Lemma education_bucket_ext (edu1 edu2 : list (string * pyval))
      (rest : list (string * pyval)) :
  (forall level, level_courses (lookup level edu1) = level_courses (lookup level edu2)) ->
  analyze_pds_background (with_section "educational_background" (PDict edu1) rest)
  = analyze_pds_background (with_section "educational_background" (PDict edu2) rest).
Proof.
  intros H. unfold with_section. rewrite !analyze_pds_background_buckets.
  unfold education_bucket, work_bucket, training_bucket. simpl.
  now rewrite !H.
Qed.

(** C2: the education bucket is the courses held under college, then
    graduate studies, then post-graduate; under a level, a list of entries
    yields the course of every entry in turn, and a single entry yields
    what the list made of that entry alone yields. *)
Theorem education_bucket_collects_courses :
  (forall record edu,
      lookup "educational_background" record = Some (PDict edu) ->
      exists a, analyze_pds_background (PDict record) = Ok a /\
                education_fields a =
                  level_courses (lookup "college" edu) ++
                  level_courses (lookup "graduate_studies" edu) ++
                  level_courses (lookup "post_graduate" edu)) /\
  (forall entries,
      forallb (has_value "course") entries = true ->
      level_courses (Some (PList entries)) = map (field_value "course") entries) /\
  (forall level entry others rest,
      analyze_pds_background
        (with_section "educational_background"
                      (PDict ((level, PDict entry) :: others)) rest)
      = analyze_pds_background
          (with_section "educational_background"
                        (PDict ((level, PList [PDict entry]) :: others)) rest)).
Proof.
  split; [|split].
  - intros record edu H. rewrite analyze_pds_background_buckets.
    eexists; split; [reflexivity|]. simpl. now apply education_bucket_levels.
  - intros entries H. rewrite level_courses_list.
    now apply flat_map_all_present.
  - intros level entry others rest. apply education_bucket_ext.
    intros l. cbn [lookup].
    destruct (String.eqb l level); [apply level_courses_single | reflexivity].
Qed.

Lemma education_bucket_collects_courses_witness :
  (exists a,
      analyze_pds_background
        (PDict [("educational_background",
                 PDict [("college", PDict [("course", PStr "BS Psychology")]);
                        ("graduate_studies",
                         PList [PDict [("course", PStr "MA Education")];
                                PDict [("course", PStr "MBA")]])])]) = Ok a /\
      education_fields a = [PStr "BS Psychology"; PStr "MA Education"; PStr "MBA"]) /\
  level_courses (Some (PList [PDict [("course", PStr "MA Education")];
                              PDict [("course", PStr "MBA")]]))
  = [PStr "MA Education"; PStr "MBA"].
Proof.
  destruct education_bucket_collects_courses as [Hlevels [Hlist _]].
  split.
  - apply (Hlevels _ [("college", PDict [("course", PStr "BS Psychology")]);
                      ("graduate_studies",
                       PList [PDict [("course", PStr "MA Education")];
                              PDict [("course", PStr "MBA")]])]).
    reflexivity.
  - apply (Hlist [PDict [("course", PStr "MA Education")];
                  PDict [("course", PStr "MBA")]]).
    reflexivity.
Defined.

(** C3: the work-experience bucket is, entry after entry, the entry's
    position title followed by its department or office, each kept on its
    own whenever it is set: the one is an element of the bucket whatever
    the other is. *)
Theorem work_bucket_position_and_office :
  forall record exps,
    lookup "work_experience" record = Some (PList exps) ->
    exists a,
      analyze_pds_background (PDict record) = Ok a /\
      work_experience_areas a = flat_map exp_contrib exps /\
      (forall e,
          exp_contrib e =
            (if has_value "position_title" e
             then [field_value "position_title" e] else []) ++
            (if has_value "department_office" e
             then [field_value "department_office" e] else [])) /\
      (forall e, In e exps -> has_value "position_title" e = true ->
                 In (field_value "position_title" e) (work_experience_areas a)) /\
      (forall e, In e exps -> has_value "department_office" e = true ->
                 In (field_value "department_office" e) (work_experience_areas a)).
Proof.
  intros record exps H. rewrite analyze_pds_background_buckets.
  eexists; split; [reflexivity|]. simpl. unfold work_bucket. rewrite H.
  split; [reflexivity|]. split; [|split].
  - intros e. unfold exp_contrib. now rewrite !field_contrib_cases.
  - intros e He Hp. apply in_flat_map. exists e. split; [assumption|].
    unfold exp_contrib. rewrite !field_contrib_cases, Hp. simpl. now left.
  - intros e He Ho. apply in_flat_map. exists e. split; [assumption|].
    unfold exp_contrib. rewrite !field_contrib_cases, Ho.
    apply in_app_iff. right. simpl. now left.
Qed.

Lemma work_bucket_position_and_office_witness :
  exists a,
    analyze_pds_background
      (PDict [("work_experience",
               PList [PDict [("position_title", PStr "HR Officer");
                             ("department_office", PStr "Registrar")]])]) = Ok a /\
    work_experience_areas a = [PStr "HR Officer"; PStr "Registrar"].
Proof.
  destruct (work_bucket_position_and_office
              [("work_experience",
                PList [PDict [("position_title", PStr "HR Officer");
                              ("department_office", PStr "Registrar")]])]
              [PDict [("position_title", PStr "HR Officer");
                      ("department_office", PStr "Registrar")]]
              eq_refl) as [a [Ha [Hw _]]].
  exists a. split; [exact Ha | exact Hw].
Defined.

Lemma exp_contrib_not_dict (e : pyval) :
  isinstance_dict e = false -> exp_contrib e = [].
Proof.
  intros H. unfold exp_contrib. now rewrite !field_contrib_not_dict.
Qed.

Lemma level_courses_skip (l : list pyval) :
  level_courses (Some (PList (filter isinstance_dict l))) = level_courses (Some (PList l)).
Proof.
  simpl. apply flat_map_skip. intros x. apply field_contrib_not_dict.
Qed.

Lemma level_courses_unexpected (held : pyval) :
  isinstance_list held = false -> isinstance_dict held = false ->
  level_courses (Some held) = level_courses (Some PNone).
Proof. destruct held; simpl; intros; try reflexivity; discriminate. Qed.

(** C4: on a mapping the analyzer returns a profile and never raises; a
    section that is missing or of an unexpected type leaves its bucket
    empty, and an entry that is not a mapping, or a level that holds
    neither a list nor a mapping, changes nothing in the profile. *)
Theorem analyzer_skips_malformed_sections :
  (forall record,
      exists a,
        analyze_pds_background (PDict record) = Ok a /\
        (isinstance_dict (field_value "educational_background" (PDict record)) = false ->
         education_fields a = []) /\
        (isinstance_list (field_value "work_experience" (PDict record)) = false ->
         work_experience_areas a = []) /\
        (isinstance_list (field_value "learning_development" (PDict record)) = false ->
         training_areas a = [])) /\
  (forall entries rest,
      analyze_pds_background (with_section "work_experience" (PList entries) rest)
      = analyze_pds_background
          (with_section "work_experience" (PList (filter isinstance_dict entries)) rest)) /\
  (forall entries rest,
      analyze_pds_background (with_section "learning_development" (PList entries) rest)
      = analyze_pds_background
          (with_section "learning_development"
                        (PList (filter isinstance_dict entries)) rest)) /\
  (forall level entries others rest,
      analyze_pds_background
        (with_section "educational_background"
                      (PDict ((level, PList entries) :: others)) rest)
      = analyze_pds_background
          (with_section "educational_background"
                        (PDict ((level, PList (filter isinstance_dict entries)) :: others))
                        rest)) /\
  (forall level held others rest,
      isinstance_list held = false -> isinstance_dict held = false ->
      analyze_pds_background
        (with_section "educational_background" (PDict ((level, held) :: others)) rest)
      = analyze_pds_background
          (with_section "educational_background" (PDict ((level, PNone) :: others)) rest)).
Proof.
  repeat apply conj.
  - intros record. rewrite analyze_pds_background_buckets.
    eexists; split; [reflexivity|]. simpl.
    unfold education_bucket, work_bucket, training_bucket.
    repeat apply conj.
    + now destruct (lookup "educational_background" record) as [[]|].
    + now destruct (lookup "work_experience" record) as [[]|].
    + now destruct (lookup "learning_development" record) as [[]|].
  - intros entries rest. unfold with_section.
    rewrite !analyze_pds_background_buckets.
    unfold education_bucket, work_bucket, training_bucket. simpl.
    rewrite (flat_map_skip isinstance_dict exp_contrib entries exp_contrib_not_dict).
    reflexivity.
  - intros entries rest. unfold with_section.
    rewrite !analyze_pds_background_buckets.
    unfold education_bucket, work_bucket, training_bucket. simpl.
    rewrite (flat_map_skip isinstance_dict training_contrib entries
                           (field_contrib_not_dict "title")).
    reflexivity.
  - intros level entries others rest. apply education_bucket_ext.
    intros l. cbn [lookup].
    destruct (String.eqb l level); [|reflexivity].
    symmetry. apply level_courses_skip.
  - intros level held others rest Hl Hd. apply education_bucket_ext.
    intros l. cbn [lookup].
    destruct (String.eqb l level); [|reflexivity].
    now apply level_courses_unexpected.
Qed.

Lemma analyzer_skips_malformed_sections_witness :
  (exists a,
      analyze_pds_background
        (PDict [("educational_background", PStr "n/a");
                ("work_experience", PInt 3)]) = Ok a /\
      education_fields a = [] /\ work_experience_areas a = [] /\ training_areas a = []) /\
  analyze_pds_background
    (with_section "educational_background"
                  (PDict [("college", PFloat (7 # 2))]) [])
  = analyze_pds_background
      (with_section "educational_background" (PDict [("college", PNone)]) []).
Proof.
  destruct analyzer_skips_malformed_sections as [Htotal [_ [_ [_ Hlevel]]]].
  split.
  - destruct (Htotal [("educational_background", PStr "n/a");
                      ("work_experience", PInt 3)]) as [a [Ha [He [Hw Ht]]]].
    exists a. split; [exact Ha|].
    split; [apply He; reflexivity|].
    split; [apply Hw; reflexivity | apply Ht; reflexivity].
  - apply (Hlevel "college" (PFloat (7 # 2)) [] []); reflexivity.
Defined.

Lemma count_level_courses (s : string) (held : option pyval) :
  s <> EmptyString ->
  count_str s (level_courses held) = level_count s held.
Proof.
  intros Hs. destruct held as [[| | | | |l|d]|]; try reflexivity.
  - apply (count_str_flat_map "course"); assumption.
  - apply (count_str_field_contrib "course" s (PDict d)); assumption.
Qed.

(** C5: every bucket lists the values in the order of the list they come
    from (the values of an earlier entry before those of a later one; the
    levels of education in the order college, graduate studies,
    post-graduate), and nothing is removed: a string is in a bucket as many
    times as it is held by the fields the bucket is drawn from. *)
Theorem buckets_keep_order_and_duplicates :
  forall record a,
    analyze_pds_background (PDict record) = Ok a ->
    (forall entries,
        lookup "work_experience" record = Some (PList entries) ->
        keeps_order exp_contrib entries (work_experience_areas a) /\
        forall s, s <> EmptyString ->
          count_str s (work_experience_areas a)
          = List.length (filter (holds_str "position_title" s) entries)
            + List.length (filter (holds_str "department_office" s) entries)) /\
    (forall entries,
        lookup "learning_development" record = Some (PList entries) ->
        keeps_order training_contrib entries (training_areas a) /\
        forall s, s <> EmptyString ->
          count_str s (training_areas a)
          = List.length (filter (holds_str "title" s) entries)) /\
    (forall edu,
        lookup "educational_background" record = Some (PDict edu) ->
        education_fields a =
          level_courses (lookup "college" edu) ++
          level_courses (lookup "graduate_studies" edu) ++
          level_courses (lookup "post_graduate" edu) /\
        (forall level entries,
            lookup level edu = Some (PList entries) ->
            keeps_order course_contrib entries (level_courses (lookup level edu))) /\
        forall s, s <> EmptyString ->
          count_str s (education_fields a)
          = level_count s (lookup "college" edu)
            + level_count s (lookup "graduate_studies" edu)
            + level_count s (lookup "post_graduate" edu)).
Proof.
  intros record a. rewrite analyze_pds_background_buckets.
  intros H. injection H as <-. simpl. repeat apply conj.
  - intros entries H. unfold work_bucket. rewrite H. split.
    + apply flat_map_keeps_order.
    + intros s Hs. now apply count_str_exp_contrib.
  - intros entries H. unfold training_bucket. rewrite H. split.
    + apply flat_map_keeps_order.
    + intros s Hs. now apply (count_str_flat_map "title").
  - intros edu H. rewrite (education_bucket_levels record edu H).
    split; [reflexivity|]. split.
    + intros level entries Hl. rewrite Hl. apply flat_map_keeps_order.
    + intros s Hs. rewrite !count_str_app, !count_level_courses by assumption. lia.
Qed.

Lemma buckets_keep_order_and_duplicates_witness :
  exists a,
    analyze_pds_background
      (PDict [("learning_development",
               PList [PDict [("title", PStr "Leadership")];
                      PDict [("title", PStr "Records Management")];
                      PDict [("title", PStr "Leadership")]])]) = Ok a /\
    training_areas a =
      [PStr "Leadership"; PStr "Records Management"; PStr "Leadership"] /\
    count_str "Leadership" (training_areas a) = 2.
Proof.
  eexists. split; [reflexivity|]. split; [reflexivity|].
  destruct (buckets_keep_order_and_duplicates
              [("learning_development",
                PList [PDict [("title", PStr "Leadership")];
                       PDict [("title", PStr "Records Management")];
                       PDict [("title", PStr "Leadership")]])]
              _ eq_refl) as [_ [Htraining _]].
  destruct (Htraining _ eq_refl) as [_ Hcount].
  apply (Hcount "Leadership"). discriminate.
Defined.

(** C9: no path of the analyzer appends to [key_skills]: the bucket of a
    returned profile is empty, and a profile is returned for every
    mapping. *)
Theorem key_skills_always_empty :
  (forall record, exists a,
      analyze_pds_background (PDict record) = Ok a /\ key_skills a = []) /\
  (forall pds_data a,
      analyze_pds_background pds_data = Ok a -> key_skills a = []).
Proof.
  split.
  - intros record. rewrite analyze_pds_background_buckets.
    eexists; split; reflexivity.
  - intros pds_data a H.
    destruct (analyze_raises_off_mappings pds_data a H) as [record ->].
    rewrite analyze_pds_background_buckets in H. now injection H as <-.
Qed.

Lemma key_skills_always_empty_witness :
  analyze_pds_background
    (PDict [("educational_background",
             PDict [("college", PDict [("course", PStr "BS Psychology")])]);
            ("work_experience",
             PList [PDict [("position_title", PStr "HR Officer")]])])
  = Ok (mk_analysis [PStr "BS Psychology"] [PStr "HR Officer"] [] []) /\
  key_skills (mk_analysis [PStr "BS Psychology"] [PStr "HR Officer"] [] []) = [].
Proof.
  split; [reflexivity|].
  apply (proj2 key_skills_always_empty
               (PDict [("educational_background",
                        PDict [("college", PDict [("course", PStr "BS Psychology")])]);
                       ("work_experience",
                        PList [PDict [("position_title", PStr "HR Officer")]])])).
  reflexivity.
Defined.

(** C10, as far as it holds: every element of every bucket is truthy, hence
    never the empty string, and it is a non-empty string whenever it is a
    string; a field that holds the empty string adds nothing to a bucket. *)
Theorem bucket_elements_are_truthy :
  (forall pds_data a,
      analyze_pds_background pds_data = Ok a ->
      forall v,
        In v (education_fields a ++ work_experience_areas a ++
              training_areas a ++ key_skills a) ->
        truthy v = true /\ (forall s, v = PStr s -> s <> EmptyString)) /\
  (forall d a,
      lookup "course" d = Some (PStr "") -> analyze_course (PDict d) a = Ok a) /\
  (forall edu level d a,
      lookup level edu = Some (PDict d) -> lookup "course" d = Some (PStr "") ->
      analyze_level (PDict edu) level a = Ok a) /\
  (forall d a,
      lookup "title" d = Some (PStr "") -> analyze_training (PDict d) a = Ok a) /\
  (forall d a,
      lookup "position_title" d = Some (PStr "") ->
      analyze_exp (PDict d) a
      = Ok (extend_work (field_contrib "department_office" (PDict d)) a)) /\
  (forall d a,
      lookup "department_office" d = Some (PStr "") ->
      analyze_exp (PDict d) a
      = Ok (extend_work (field_contrib "position_title" (PDict d)) a)).
Proof.
  repeat apply conj.
  - intros pds_data a H v Hv.
    destruct (analyze_raises_off_mappings pds_data a H) as [record ->].
    rewrite analyze_pds_background_buckets in H. injection H as <-.
    simpl in Hv. rewrite app_nil_r, !in_app_iff in Hv.
    assert (T : truthy v = true).
    { destruct Hv as [Hv|[Hv|Hv]];
        eauto using education_bucket_truthy, work_bucket_truthy, training_bucket_truthy. }
    split; [exact T|]. intros s ->. now apply truthy_str_nonempty.
  - intros d a H. rewrite analyze_course_extends.
    unfold course_contrib, field_contrib. rewrite H. simpl.
    now rewrite extend_education_nil.
  - intros edu level d a Hl Hc. rewrite analyze_level_extends, Hl.
    unfold level_courses, course_contrib, field_contrib. rewrite Hc. simpl.
    now rewrite extend_education_nil.
  - intros d a H. rewrite analyze_training_extends.
    unfold training_contrib, field_contrib. rewrite H. simpl.
    now rewrite extend_training_nil.
  - intros d a H. rewrite analyze_exp_extends. unfold exp_contrib.
    unfold field_contrib at 1. rewrite H. reflexivity.
  - intros d a H. rewrite analyze_exp_extends. unfold exp_contrib.
    unfold field_contrib at 2. rewrite H. simpl. now rewrite app_nil_r.
Qed.

Lemma bucket_elements_are_truthy_witness :
  truthy (PInt 5) = true /\
  analyze_training (PDict [("title", PStr ""); ("hours", PInt 8)]) empty_analysis
  = Ok empty_analysis.
Proof.
  destruct bucket_elements_are_truthy as [Htruthy [_ [_ [Htitle _]]]].
  split.
  - apply (Htruthy (PDict [("learning_development", PList [PDict [("title", PInt 5)]])])
                   (mk_analysis [] [] [PInt 5] []) eq_refl (PInt 5)).
    simpl. now left.
  - apply Htitle. reflexivity.
Defined.

(** C10 fails as it is worded: a title that is the number 5 is truthy, is
    kept, and is not a string. *)
Lemma bucket_element_not_a_string :
  exists a,
    analyze_pds_background
      (PDict [("learning_development", PList [PDict [("title", PInt 5)]])]) = Ok a /\
    training_areas a = [PInt 5] /\
    ~ nonempty_strings (training_areas a).
Proof.
  eexists. split; [reflexivity|]. split; [reflexivity|].
  intros H. destruct (H (PInt 5)) as [s [Hs _]]; [simpl; now left | discriminate].
Qed.

(* ===================================================================== *)
(** ** Theorems: the scoring entry point *)
(* ===================================================================== *)

Lemma bind_raise {A B : Type} (m : result A) (k : A -> result B) (e : exn) :
  bind m k = Raise e ->
  m = Raise e \/ exists a, m = Ok a /\ k a = Raise e.
Proof.
  destruct m as [a|e']; simpl; intros H.
  - right. now exists a.
  - left. now injection H as ->.
Qed.

Lemma py_getitem_raise (o : pyval) (k : string) (e : exn) :
  py_getitem o k = Raise e -> is_Exception e = true /\ exc_str e <> EmptyString.
Proof.
  destruct o; simpl; try (intros [= <-]; split; [reflexivity | discriminate]).
  destruct (lookup k items); [discriminate|].
  intros [= <-]; split; [reflexivity | discriminate].
Qed.








(* ===================================================================== *)
(** ** Theorems: the field validator *)
(* ===================================================================== *)

(** *** Prefixes and occurrences *)

Lemma prefix_app_keep (n a b : string) :
  String.prefix n a = true -> String.prefix n (a ++ b) = true.
Proof.
  revert a. induction n as [|x n IH]; intros a H.
  - now destruct (a ++ b)%string.
  - destruct a as [|y a]; [discriminate|]. simpl in *.
    destruct (Ascii.ascii_dec x y); [|discriminate]. now apply IH.
Qed.

Lemma prefix_self_app (n b : string) : String.prefix n (n ++ b) = true.
Proof.
  induction n as [|x n IH]; [now destruct b|].
  simpl. now destruct (Ascii.ascii_dec x x).
Qed.

(** A match that would reach a character foreign to the needle lies
    before it. *)
Lemma prefix_before_foreign (n a b : string) (c : ascii) :
  PyStr.has_char c n = false ->
  String.prefix n (a ++ String c b) = true -> String.prefix n a = true.
Proof.
  revert a. induction n as [|x n IH]; intros a F H.
  - now destruct a.
  - simpl in F. apply orb_false_iff in F as [Fx Fn].
    destruct a as [|y a]; simpl in *.
    + destruct (Ascii.ascii_dec x c) as [->|]; [|discriminate].
      now rewrite Ascii.eqb_refl in Fx.
    + destruct (Ascii.ascii_dec x y); [|discriminate]. now apply IH.
Qed.

Lemma str_contains_cons (n : string) (c : ascii) (s : string) :
  str_contains n (String c s) = String.prefix n (String c s) || str_contains n s.
Proof.
  cbn [str_contains]. now destruct (String.prefix n (String c s)).
Qed.

Lemma str_contains_app_foreign (x : ascii) (n a b : string) (c : ascii) :
  PyStr.has_char c (String x n) = false ->
  str_contains (String x n) (a ++ String c b)
  = str_contains (String x n) a || str_contains (String x n) (String c b).
Proof.
  intros F. induction a as [|y a IH].
  - reflexivity.
  - change (String y a ++ String c b)%string with (String y (a ++ String c b)).
    rewrite !str_contains_cons, IH, orb_assoc. f_equal. f_equal.
    destruct (String.prefix (String x n) (String y a)) eqn:P.
    + apply (prefix_app_keep _ _ (String c b)) in P. exact P.
    + destruct (String.prefix (String x n) (String y (a ++ String c b))) eqn:Q;
        [|reflexivity].
      apply (prefix_before_foreign (String x n) (String y a) b c F) in Q.
      congruence.
Qed.

Lemma prefix_nil (s : string) : String.prefix EmptyString s = true.
Proof. now destruct s. Qed.

Lemma str_contains_nil (x : ascii) (n : string) :
  str_contains (String x n) EmptyString = false.
Proof. reflexivity. Qed.

Lemma str_contains_app_l (n a b : string) :
  str_contains n a = true -> str_contains n (a ++ b) = true.
Proof.
  induction a as [|c a IH]; intros H.
  - destruct n; [|discriminate]. destruct b; reflexivity.
  - change (String c a ++ b)%string with (String c (a ++ b)).
    rewrite str_contains_cons in *. apply orb_true_iff in H as [H | H].
    + apply (prefix_app_keep _ _ b) in H.
      change (String c a ++ b)%string with (String c (a ++ b)) in H.
      now rewrite H.
    + rewrite (IH H). apply orb_true_r.
Qed.

Lemma str_contains_app_r (n a b : string) :
  str_contains n b = true -> str_contains n (a ++ b) = true.
Proof.
  intros H. induction a as [|c a IH]; [exact H|].
  change (String c a ++ b)%string with (String c (a ++ b)).
  rewrite str_contains_cons, IH. apply orb_true_r.
Qed.

Lemma str_contains_self (n : string) : str_contains n n = true.
Proof.
  destruct n as [|c n]; [reflexivity|].
  cbn [str_contains].
  assert (P : String.prefix (String c n) (String c n) = true).
  { induction (String c n) as [|x r IH]; [reflexivity|].
    simpl. now destruct (Ascii.ascii_dec x x). }
  now rewrite P.
Qed.

Lemma digit_not_space (c : ascii) : is_digit c = true -> is_space c = false.
Proof. destruct c as [[] [] [] [] [] [] [] []]; vm_compute; congruence. Qed.

Lemma lstrip_solid (s : string) (c : ascii) :
  first_char s = Some c -> is_space c = false -> lstrip s = s.
Proof.
  destruct s as [|a r]; simpl; [discriminate|].
  intros [= ->] ->. reflexivity.
Qed.

Lemma rstrip_solid (s : string) (c : ascii) :
  last_char s = Some c -> is_space c = false -> rstrip s = s.
Proof.
  revert c. induction s as [|a r IH]; simpl; intros c; [discriminate|].
  destruct (last_char r) as [b|] eqn:L.
  - intros [= ->] Hc. rewrite (IH c eq_refl Hc).
    destruct r; [discriminate | reflexivity].
  - intros [= ->] Hc. destruct r as [|x r'].
    + simpl. now rewrite Hc.
    + simpl in L. destruct (last_char r'); discriminate.
Qed.

Lemma strip_solid (s : string) (a b : ascii) :
  first_char s = Some a -> is_space a = false ->
  last_char s = Some b -> is_space b = false ->
  strip s = s.
Proof.
  intros Ha Hsa Hb Hsb. unfold strip.
  rewrite (rstrip_solid s b Hb Hsb). exact (lstrip_solid s a Ha Hsa).
Qed.

Lemma last_char_app (s t : string) :
  t <> EmptyString -> last_char (s ++ t)%string = last_char t.
Proof.
  intros Ht. induction s as [|c s IH]; simpl; [reflexivity|].
  rewrite IH. destruct t as [|x t']; [contradiction|].
  simpl. destruct (last_char t'); reflexivity.
Qed.

Lemma last_char_all (p : ascii -> bool) (s : string) :
  s <> EmptyString -> all_chars p s = true ->
  exists c, last_char s = Some c /\ p c = true.
Proof.
  induction s as [|a r IH]; [contradiction|]. intros _ H. simpl in H.
  apply andb_prop in H as [Ha Hr]. simpl.
  destruct r as [|x r'].
  - exists a. now split.
  - destruct IH as [c [Hc Hp]]; [discriminate | assumption |].
    exists c. now rewrite Hc.
Qed.

Lemma first_char_all (p : ascii -> bool) (s : string) :
  s <> EmptyString -> all_chars p s = true ->
  exists c, first_char s = Some c /\ p c = true.
Proof.
  destruct s as [|a r]; [contradiction|]. intros _ H. simpl in H.
  apply andb_prop in H as [Ha _]. exists a. now split.
Qed.

Lemma digit_string_2 (s : string) :
  digit_string 2 s ->
  exists a b, s = String a (String b EmptyString) /\
              is_digit a = true /\ is_digit b = true.
Proof.
  intros [Hlen Hall].
  destruct s as [|a [|b [|c r]]]; simpl in Hlen; try discriminate.
  simpl in Hall. rewrite andb_true_r in Hall.
  apply andb_prop in Hall as [Ha Hb]. now exists a, b.
Qed.

Lemma digit_string_4 (s : string) :
  digit_string 4 s ->
  exists a b c d, s = String a (String b (String c (String d EmptyString))) /\
                  is_digit a = true /\ is_digit b = true /\
                  is_digit c = true /\ is_digit d = true.
Proof.
  intros [Hlen Hall].
  destruct s as [|a [|b [|c [|d [|e r]]]]]; simpl in Hlen; try discriminate.
  simpl in Hall. rewrite andb_true_r in Hall.
  apply andb_prop in Hall as [Ha Hall].
  apply andb_prop in Hall as [Hb Hall].
  apply andb_prop in Hall as [Hc Hd]. now exists a, b, c, d.
Qed.

Ltac explode_digits :=
  repeat match goal with
         | H : digit_string 2 _ |- _ =>
             apply digit_string_2 in H as (? & ? & -> & ? & ?)
         | H : digit_string 4 _ |- _ =>
             apply digit_string_4 in H as (? & ? & ? & ? & -> & ? & ? & ? & ?)
         end.

Ltac use_digits :=
  repeat match goal with
         | H : is_digit ?c = true |- context [is_digit ?c] => rewrite H
         end.

Lemma date_text_recognized (t : string) :
  date_text t -> is_named_date t = true /\ strip t = t.
Proof.
  intros (y & m & d & Hy & Hm & Hd & ->). explode_digits. split.
  - unfold is_named_date. simpl. use_digits. reflexivity.
  - eapply strip_solid; try reflexivity; now apply digit_not_space.
Qed.

Lemma datetime_text_recognized (t : string) :
  datetime_text t -> is_named_date t = true /\ strip t = t.
Proof.
  intros (day & hh & mm & ss & (y & m & d & Hy & Hm & Hd & ->) & Hh & Hmin & Hs & ->).
  explode_digits. split.
  - unfold is_named_date. simpl. use_digits. reflexivity.
  - eapply strip_solid; try reflexivity; now apply digit_not_space.
Qed.

Lemma is_numeric_from_digits (s : string) :
  all_chars is_digit s = true -> is_numeric_from true s = true.
Proof.
  induction s as [|c r IH]; simpl; [reflexivity|].
  intros H. apply andb_prop in H as [Hc Hr]. rewrite Hc. now apply IH.
Qed.

Lemma is_numeric_from_decimal (whole frac : string) :
  all_chars is_digit whole = true -> digits frac ->
  is_numeric_from true (whole ++ "." ++ frac)%string = true.
Proof.
  intros Hw [Hne Hf]. induction whole as [|c r IH]; simpl.
  - rewrite Hf. destruct frac; [contradiction | reflexivity].
  - simpl in Hw. apply andb_prop in Hw as [Hc Hr]. rewrite Hc. now apply IH.
Qed.

Lemma numeric_text_recognized (t : string) :
  numeric_text t -> is_numeric t = true /\ strip t = t.
Proof.
  intros [[Hne Hall] | (whole & frac & [Hwne Hw] & [Hfne Hf] & ->)].
  - split.
    + destruct t as [|c r]; [contradiction|]. simpl in Hall.
      apply andb_prop in Hall as [Hc Hr]. unfold is_numeric. simpl. rewrite Hc.
      now apply is_numeric_from_digits.
    + destruct (first_char_all is_digit t Hne Hall) as [a [Ha Hda]].
      destruct (last_char_all is_digit t Hne Hall) as [b [Hb Hdb]].
      eapply strip_solid; eauto using digit_not_space.
  - split.
    + destruct whole as [|c r]; [contradiction|]. simpl in Hw.
      apply andb_prop in Hw as [Hc Hr]. unfold is_numeric. simpl. rewrite Hc.
      apply is_numeric_from_decimal; [assumption | now split].
    + destruct (first_char_all is_digit whole Hwne Hw) as [a [Ha Hda]].
      destruct (last_char_all is_digit frac Hfne Hf) as [b [Hb Hdb]].
      apply (strip_solid _ a b); auto using digit_not_space.
      * destruct whole; [contradiction | exact Ha].
      * rewrite last_char_app by discriminate. simpl. now rewrite Hb.
Qed.

Lemma date_or_numeric_recognized (t : string) :
  date_or_numeric t ->
  strip t = t /\ (is_named_date t = true \/ is_numeric t = true).
Proof.
  intros [H|[H|H]].
  - apply date_text_recognized in H as [H1 H2]. auto.
  - apply datetime_text_recognized in H as [H1 H2]. auto.
  - apply numeric_text_recognized in H as [H1 H2]. auto.
Qed.

(** A fragment the date rule or the numeric rule matches is rejected,
    unless it is a phone-shaped reference detail. *)
Lemma noise_rejected (min_len : nat) (recognizer : string -> bool)
      (kind : field_kind) (text : string) :
  recognizer (strip text) = true \/ is_numeric (strip text) = true ->
  (kind = reference_data -> is_local_phone (strip text) = false) ->
  validate min_len recognizer kind text = false.
Proof.
  intros H Hphone. unfold validate.
  destruct kind; simpl;
    destruct (is_empty (strip text)); try reflexivity;
    destruct (recognizer (strip text)); try reflexivity;
    destruct H as [H|H]; try discriminate; rewrite ?H; try reflexivity.
  now rewrite (Hphone eq_refl).
Qed.

(** *** The marks of a date *)

Lemma match_shape_length (p : list shape_item) (s : string) :
  match_shape p s = true -> String.length s = List.length p.
Proof.
  revert s. induction p as [|item p IH]; intros [|c r]; simpl; try discriminate.
  - reflexivity.
  - destruct item; discriminate.
  - destruct item; intros H; apply andb_prop in H as [_ H];
      now rewrite (IH r H).
Qed.

Lemma digit_groups_digits (s : string) :
  all_chars is_digit s = true -> digit_groups true s = 0.
Proof.
  induction s as [|c r IH]; simpl; [reflexivity|].
  intros H. apply andb_prop in H as [Hc Hr]. rewrite Hc. now apply IH.
Qed.

Lemma digit_groups_number (s : string) :
  digits s -> digit_groups false s = 1.
Proof.
  intros [Hne H]. destruct s as [|c r]; [contradiction|]. simpl in *.
  apply andb_prop in H as [Hc Hr]. rewrite Hc. now rewrite digit_groups_digits.
Qed.

Lemma digit_groups_skip (inside : bool) (a s : string) (c : ascii) :
  all_chars (fun c => negb (is_digit c)) (String c a) = true ->
  digit_groups inside (String c a ++ s) = digit_groups false s.
Proof.
  revert inside c. induction a as [|d a IH]; intros inside c H; simpl in H.
  - rewrite andb_true_r in H. apply negb_true_iff in H. simpl. now rewrite H.
  - apply andb_prop in H as [Hc Hr]. apply negb_true_iff in Hc.
    change (String c (String d a) ++ s)%string with (String c (String d a ++ s)).
    cbn [digit_groups]. rewrite Hc. now apply IH.
Qed.

Lemma alpha_not_digit (c : ascii) : is_alpha c = true -> is_digit c = false.
Proof. destruct c as [[] [] [] [] [] [] [] []]; vm_compute; congruence. Qed.

Lemma alpha_not_space (c : ascii) : is_alpha c = true -> is_space c = false.
Proof. destruct c as [[] [] [] [] [] [] [] []]; vm_compute; congruence. Qed.

Lemma alpha_is_alnum (c : ascii) : is_alpha c = true -> is_alnum c = true.
Proof. unfold is_alnum. now intros ->. Qed.

Lemma digit_is_alnum (c : ascii) : is_digit c = true -> is_alnum c = true.
Proof. unfold is_alnum. intros ->. apply orb_true_r. Qed.

Lemma place_char_not_digit (c : ascii) :
  place_char c = true -> negb (is_digit c) = true.
Proof. destruct c as [[] [] [] [] [] [] [] []]; vm_compute; congruence. Qed.

Lemma all_chars_impl (p q : ascii -> bool) (s : string) :
  (forall c, p c = true -> q c = true) ->
  all_chars p s = true -> all_chars q s = true.
Proof.
  intros Hpq. induction s as [|c r IH]; simpl; [reflexivity|].
  intros H. apply andb_prop in H as [Hc Hr]. now rewrite (Hpq c Hc), IH.
Qed.

Lemma all_chars_app (p : ascii -> bool) (a b : string) :
  all_chars p (a ++ b) = all_chars p a && all_chars p b.
Proof.
  induction a as [|c a IH]; simpl; [reflexivity|]. now rewrite IH, andb_assoc.
Qed.

(** The words of a text cut at a character that is neither a letter nor a
    digit. *)
Lemma split_words_cut (cur a b : string) (c : ascii) :
  is_alnum c = false ->
  split_words cur (a ++ String c b) = split_words cur a ++ split_words EmptyString b.
Proof.
  intros Hc. revert cur. induction a as [|x a IH]; intros cur; simpl.
  - now rewrite Hc.
  - destruct (is_alnum x); [apply IH|].
    now rewrite IH, app_assoc.
Qed.

Lemma digit_word_not_month (c : ascii) (w : string) :
  is_digit c = true -> is_month (String c w) = false.
Proof.
  destruct c as [[] [] [] [] [] [] [] []]; try (vm_compute; discriminate);
    intros _; reflexivity.
Qed.

Lemma to_lower_digit (c : ascii) : is_digit c = true -> to_lower c = c.
Proof. destruct c as [[] [] [] [] [] [] [] []]; vm_compute; congruence. Qed.

(** The words of a number: the number itself, after what was begun. *)
Lemma split_words_digits (cur s : string) :
  all_chars is_digit s = true ->
  split_words cur s = if is_empty (cur ++ s) then [] else [(cur ++ s)%string].
Proof.
  revert cur. induction s as [|c r IH]; intros cur H; simpl.
  - assert (E : (cur ++ "")%string = cur) by (induction cur; simpl; congruence).
    now rewrite E.
  - simpl in H. apply andb_prop in H as [Hc Hr].
    rewrite (digit_is_alnum c Hc), (IH _ Hr), (to_lower_digit c Hc).
    assert (E : ((cur ++ String c "") ++ r)%string = (cur ++ String c r)%string)
      by (induction cur; simpl; congruence).
    now rewrite E.
Qed.

Lemma names_month_number (s : string) :
  all_chars is_digit s = true -> names_month s = false.
Proof.
  intros H. unfold names_month. rewrite (split_words_digits _ _ H).
  destruct s as [|c r]; [reflexivity|]. simpl in H.
  apply andb_prop in H as [Hc _].
  cbn [append is_empty existsb]. now rewrite (digit_word_not_month c r Hc).
Qed.

(** A place and a code hold one number, and a month only if the place
    names one. *)
Lemma location_with_code_marks (location code : string) :
  place_name location -> digits code -> names_month location = false ->
  has_date_marks (location_with_code location code) = false.
Proof.
  intros [[c [Hfirst Hc]] Hall] Hcode Hmonth.
  unfold has_date_marks.
  change (location_with_code location code)
    with (location ++ String " " (String "|" (String " " code)))%string.
  apply orb_false_iff. split.
  - destruct location as [|x location]; [discriminate|].
    rewrite digit_groups_skip
      by (apply (all_chars_impl _ _ _ place_char_not_digit), Hall).
    change (digit_groups false (String " " (String "|" (String " " code))))
      with (digit_groups false code).
    now rewrite (digit_groups_number code Hcode).
  - unfold names_month in *.
    rewrite (split_words_cut _ _ _ " " eq_refl), existsb_app, Hmonth.
    change (split_words "" (String "|" (String " " code)))
      with (split_words "" code).
    apply (names_month_number code), Hcode.
Qed.

Ltac peel t L :=
  destruct t as [|? t]; simpl in L; [discriminate L|]; injection L as L.

Ltac read_shape H :=
  cbn [match_shape iso_date clock_time local_phone app] in H;
  repeat match goal with
         | H : _ && _ = true |- _ => apply andb_prop in H as [? H]
         end;
  repeat match goal with
         | H : Ascii.eqb _ _ = true |- _ => apply Ascii.eqb_eq in H; subst
         end.

Lemma named_date_marks (t : string) :
  is_named_date t = true -> has_date_marks t = true.
Proof.
  unfold is_named_date, named_date_shapes. cbn [existsb]. rewrite orb_false_r.
  intros H. unfold has_date_marks. apply orb_true_iff. left.
  apply orb_prop in H as [H|H]; pose proof (match_shape_length _ _ H) as L;
    simpl in L.
  - do 10 peel t L. destruct t; [|discriminate L].
    read_shape H. cbn [digit_groups]. use_digits. reflexivity.
  - do 19 peel t L. destruct t; [|discriminate L].
    read_shape H. cbn [digit_groups]. use_digits. reflexivity.
Qed.

(** The narrowest recogniser takes the named shapes and nothing else; the
    widest takes every fragment with the marks of a date. *)
Lemma named_dates_recognizer : date_recognizer is_named_date.
Proof. split; [trivial | exact named_date_marks]. Qed.

Lemma date_marks_recognizer : date_recognizer has_date_marks.
Proof. split; [exact named_date_marks | trivial]. Qed.

Lemma local_phone_marks (t : string) :
  is_local_phone t = true -> is_empty t = false /\ has_date_marks t = false.
Proof.
  unfold is_local_phone.
  intros H. pose proof (match_shape_length _ _ H) as L. simpl in L.
  do 11 peel t L. destruct t; [|discriminate L].
  split; [reflexivity|]. read_shape H.
  unfold has_date_marks. apply orb_false_iff. split.
  - cbn [digit_groups]. use_digits. reflexivity.
  - apply names_month_number. cbn [all_chars]. use_digits. reflexivity.
Qed.

Lemma not_a_date (recognizer : string -> bool) (t : string) :
  date_recognizer recognizer -> has_date_marks t = false -> recognizer t = false.
Proof.
  intros [_ Hup] H. destruct (recognizer t) eqn:R; [|reflexivity].
  apply Hup in R. congruence.
Qed.

(** C6, as far as it holds: whatever date patterns the table recognises
    beyond the named ones, a fragment that matches one, and a fragment that
    is a number with or without decimals, is rejected for every kind, but
    for a number with the shape of a local phone number as a reference
    detail; surrounding white space makes no difference.  The fragments
    listed in the claim are classified as it says. *)
Theorem dates_and_numbers_rejected :
  forall min_len recognizer,
    date_recognizer recognizer ->
    (forall kind text,
        recognizer (strip text) = true \/ is_numeric (strip text) = true \/
        date_or_numeric text \/ date_or_numeric (strip text) ->
        (kind = reference_data -> is_local_phone (strip text) = false) ->
        validate min_len recognizer kind text = false) /\
    validate min_len recognizer eligibility "2015-06-01 00:00:00" = false /\
    validate min_len recognizer eligibility "85.50" = false /\
    validate min_len recognizer eligibility "From" = false /\
    validate min_len recognizer eligibility "To" = false /\
    validate min_len recognizer eligibility "Present" = false /\
    validate min_len recognizer eligibility "Career Service Eligibility" = true /\
    validate min_len recognizer eligibility "CSE Professional" = true /\
    validate min_len recognizer eligibility "Tourism Professional Certification" = true.
Proof.
  intros min_len recognizer Hr.
  assert (Hnoise : forall kind text,
             recognizer (strip text) = true \/ is_numeric (strip text) = true \/
             date_or_numeric text \/ date_or_numeric (strip text) ->
             (kind = reference_data -> is_local_phone (strip text) = false) ->
             validate min_len recognizer kind text = false).
  { intros kind text H Hphone. apply noise_rejected; [|assumption].
    destruct H as [H|[H|[H|H]]]; auto;
      apply date_or_numeric_recognized in H as [Hs [H|H]];
      rewrite ?Hs; auto; left; now apply (proj1 Hr). }
  assert (Hkeep : forall text,
             has_date_marks (strip text) = false ->
             validate min_len recognizer eligibility text
             = validate min_len (fun _ => false) eligibility text).
  { intros text H. unfold validate. simpl.
    now rewrite (not_a_date recognizer _ Hr H). }
  split; [exact Hnoise|].
  repeat apply conj.
  - apply Hnoise; [|discriminate]. right. right. left. right. left.
    exists "2015-06-01", "00", "00", "00". repeat split.
    exists "2015", "06", "01". repeat split.
  - apply Hnoise; [|discriminate]. right. left. reflexivity.
  - unfold validate. simpl.
    match goal with |- context [recognizer ?t] => now destruct (recognizer t) end.
  - unfold validate. simpl.
    match goal with |- context [recognizer ?t] => now destruct (recognizer t) end.
  - unfold validate. simpl.
    match goal with |- context [recognizer ?t] => now destruct (recognizer t) end.
  - rewrite Hkeep by reflexivity. reflexivity.
  - rewrite Hkeep by reflexivity. reflexivity.
  - rewrite Hkeep by reflexivity. reflexivity.
Qed.

Lemma dates_and_numbers_rejected_witness :
  validate 10 has_date_marks reference_name "2019-06-01" = false /\
  validate 10 has_date_marks reference_data " 4342 " = false /\
  validate 10 has_date_marks eligibility "June 1, 2015" = false.
Proof.
  destruct (dates_and_numbers_rejected 10 has_date_marks date_marks_recognizer)
    as [H _].
  repeat apply conj.
  - apply H.
    + right. right. left. left. exists "2019", "06", "01". repeat split.
    + discriminate.
  - apply H.
    + right. left. reflexivity.
    + reflexivity.
  - apply H.
    + left. reflexivity.
    + discriminate.
Defined.

(** C6 fails as it is worded: a local phone number is all digits and is
    accepted as a reference detail, whatever the date patterns. *)
Lemma phone_number_is_numeric_yet_accepted :
  numeric_text "09123456789" /\
  (forall min_len, validate min_len is_named_date reference_data "09123456789" = true) /\
  (forall min_len recognizer,
      date_recognizer recognizer ->
      validate min_len recognizer reference_data "09123456789" = true).
Proof.
  split; [|split].
  - left. split; [discriminate | reflexivity].
  - intros min_len. reflexivity.
  - intros min_len recognizer Hr. unfold validate.
    change (strip "09123456789") with "09123456789". simpl.
    now rewrite (not_a_date recognizer "09123456789" Hr eq_refl).
Qed.

(** *** Places with a code *)

Lemma map_chars_app (f : ascii -> ascii) (a b : string) :
  map_chars f (a ++ b) = (map_chars f a ++ map_chars f b)%string.
Proof. induction a as [|c a IH]; simpl; [reflexivity | now rewrite IH]. Qed.

Lemma map_chars_digits (f : ascii -> ascii) (s : string) :
  (forall c, is_digit c = true -> f c = c) ->
  all_chars is_digit s = true -> map_chars f s = s.
Proof.
  intros Hf. induction s as [|c r IH]; simpl; [reflexivity|].
  intros H. apply andb_prop in H as [Hc Hr]. now rewrite (Hf c Hc), IH.
Qed.

Lemma to_upper_digit (c : ascii) : is_digit c = true -> to_upper c = c.
Proof. destruct c as [[] [] [] [] [] [] [] []]; vm_compute; congruence. Qed.

Lemma all_chars_map (p q : ascii -> bool) (f : ascii -> ascii) (s : string) :
  (forall c, p c = true -> q (f c) = true) ->
  all_chars p s = true -> all_chars q (map_chars f s) = true.
Proof.
  intros Hf. induction s as [|c r IH]; simpl; [reflexivity|].
  intros H. apply andb_prop in H as [Hc Hr]. now rewrite (Hf c Hc), IH.
Qed.

Lemma all_chars_no_char (p : ascii -> bool) (x : ascii) (s : string) :
  p x = false -> all_chars p s = true -> PyStr.has_char x s = false.
Proof.
  intros Hx. induction s as [|c r IH]; simpl; [reflexivity|].
  intros H. apply andb_prop in H as [Hc Hr]. rewrite (IH Hr), orb_false_r.
  destruct (Ascii.eqb_spec c x); [congruence | reflexivity].
Qed.

Lemma has_char_append (c : ascii) (a b : string) :
  PyStr.has_char c (a ++ b) = PyStr.has_char c a || PyStr.has_char c b.
Proof.
  induction a as [|d a IH]; [reflexivity|]. simpl. now rewrite IH, orb_assoc.
Qed.

Lemma prefix_has_char (p t : string) (c : ascii) :
  String.prefix p t = true -> PyStr.has_char c p = true -> PyStr.has_char c t = true.
Proof.
  revert t. induction p as [|x p IH]; intros t H Hc; [discriminate|].
  destruct t as [|y t]; [discriminate|]. simpl in *.
  destruct (Ascii.ascii_dec x y) as [<-|]; [|discriminate].
  apply orb_true_iff in Hc as [Hc|Hc]; [now rewrite Hc|].
  rewrite (IH t H Hc). apply orb_true_r.
Qed.

Lemma contains_needs_first (x : ascii) (n hay : string) :
  PyStr.has_char x hay = false -> str_contains (String x n) hay = false.
Proof.
  induction hay as [|c hay IH]; [reflexivity|]. simpl.
  intros H. apply orb_false_iff in H as [Hc Hh].
  destruct (Ascii.ascii_dec x c) as [->|]; [now rewrite Ascii.eqb_refl in Hc|].
  now apply IH.
Qed.

(** A match that ends on another character than the last of the text lies
    before it. *)
Lemma prefix_snoc (n a : string) (c z : ascii) :
  last_char n = Some z -> z <> c ->
  String.prefix n (a ++ String c EmptyString) = true -> String.prefix n a = true.
Proof.
  revert a. induction n as [|x n IH]; intros a L Hz H; [discriminate|].
  destruct a as [|y a]; simpl in *.
  - destruct (Ascii.ascii_dec x c) as [->|]; [|discriminate].
    destruct n; [|discriminate]. simpl in L. congruence.
  - destruct (Ascii.ascii_dec x y); [|discriminate].
    destruct n as [|x' n']; [now destruct a|].
    apply IH; [|exact Hz | exact H].
    simpl in L |- *. destruct (last_char n'); exact L.
Qed.

Lemma contains_snoc (x : ascii) (n a : string) (c z : ascii) :
  last_char (String x n) = Some z -> z <> c ->
  str_contains (String x n) (a ++ String c EmptyString)
  = str_contains (String x n) a.
Proof.
  intros L Hz. induction a as [|y a IH].
  - cbn [append str_contains]. 
    destruct (String.prefix (String x n) (String c "")) eqn:P; [|reflexivity].
    apply (prefix_snoc _ EmptyString c z L Hz) in P. discriminate.
  - change (String y a ++ String c "")%string with (String y (a ++ String c "")).
    rewrite !str_contains_cons, IH. f_equal.
    destruct (String.prefix (String x n) (String y a)) eqn:P.
    + now apply (prefix_app_keep _ _ (String c "")) in P.
    + destruct (String.prefix (String x n) (String y (a ++ String c ""))) eqn:Q;
        [|reflexivity].
      apply (prefix_snoc _ (String y a) c z L Hz) in Q. congruence.
Qed.

Lemma no_token_with_char (x : ascii) (l : string) (tokens : list string) :
  PyStr.has_char x l = true ->
  forallb (fun tok => negb (PyStr.has_char x tok)) tokens = true ->
  existsb (String.eqb l) tokens = false.
Proof.
  intros Hl. induction tokens as [|tok tokens IH]; simpl; [reflexivity|].
  intros H. apply andb_prop in H as [Ht Hr]. rewrite (IH Hr), orb_false_r.
  destruct (String.eqb_spec l tok) as [->|]; [|reflexivity].
  rewrite Hl in Ht. discriminate.
Qed.

Lemma no_label_without_colon (l : string) (tokens : list string) :
  PyStr.has_char ":" l = false ->
  existsb (fun tok => String.prefix (tok ++ ":") l) tokens = false.
Proof.
  intros Hl. induction tokens as [|tok tokens IH]; simpl; [reflexivity|].
  rewrite IH, orb_false_r.
  destruct (String.prefix (tok ++ ":") l) eqn:P; [|reflexivity].
  apply (prefix_has_char _ _ ":") in P; [congruence|].
  rewrite has_char_append. apply orb_true_r.
Qed.

(** The four kinds of characters of a place with a code. *)
Lemma coded_char_lower (c : ascii) :
  place_char c || Ascii.eqb c "|" || is_digit c = true ->
  place_char (to_lower c) || Ascii.eqb (to_lower c) "|" || is_digit (to_lower c) = true.
Proof. destruct c as [[] [] [] [] [] [] [] []]; vm_compute; congruence. Qed.

Lemma coded_char_upper (c : ascii) :
  place_char c || Ascii.eqb c "|" || is_digit c = true ->
  place_char (to_upper c) || Ascii.eqb (to_upper c) "|" || is_digit (to_upper c) = true.
Proof. destruct c as [[] [] [] [] [] [] [] []]; vm_compute; congruence. Qed.

Lemma location_with_code_chars (location code : string) :
  place_name location -> digits code ->
  all_chars (fun c => place_char c || Ascii.eqb c "|" || is_digit c)
            (location_with_code location code) = true.
Proof.
  intros [_ Hl] [_ Hc]. unfold location_with_code.
  rewrite !all_chars_app. apply andb_true_iff. split; [|apply andb_true_iff; split].
  - apply (all_chars_impl place_char); [|exact Hl].
    intros c ->. reflexivity.
  - reflexivity.
  - apply (all_chars_impl is_digit); [|exact Hc].
    intros c ->. apply orb_true_r.
Qed.

Lemma location_with_code_mapped (f : ascii -> ascii) (location code : string) :
  f " "%char = " "%char -> f "|"%char = "|"%char ->
  (forall c, is_digit c = true -> f c = c) ->
  digits code ->
  map_chars f (location_with_code location code)
  = ((map_chars f location ++ " ") ++ String "|" (" " ++ code))%string.
Proof.
  intros Hs Hb Hd [_ Hc]. unfold location_with_code.
  rewrite map_chars_app. cbn [append map_chars].
  rewrite Hs, Hb, (map_chars_digits f code Hd Hc).
  induction (map_chars f location) as [|x a IH]; simpl; [reflexivity|].
  now rewrite IH.
Qed.

Lemma location_with_code_strip (location code : string) :
  place_name location -> digits code ->
  strip (location_with_code location code) = location_with_code location code.
Proof.
  intros [[c [Hfirst Hc]] _] [Hne Hd]. unfold location_with_code.
  destruct (last_char_all is_digit code Hne Hd) as [d [Hlast Hdd]].
  apply (strip_solid _ c d).
  - destruct location; [discriminate | exact Hfirst].
  - now apply alpha_not_space.
  - rewrite last_char_app by discriminate.
    change (" | " ++ code)%string with (" | " ++ code)%string.
    rewrite (last_char_app " | " code Hne). exact Hlast.
  - now apply digit_not_space.
Qed.

(** A place with a code passes every rule of the reference details, when
    the place itself is neither a placeholder, nor the beginning of a
    government-ID label, nor the name of a month. *)
Lemma location_with_code_accepted
      (min_len : nat) (recognizer : string -> bool) (location code : string) :
  date_recognizer recognizer ->
  place_name location -> digits code ->
  names_month location = false ->
  is_placeholder location = false ->
  is_government_id_prefixed location = false ->
  validate min_len recognizer reference_data (location_with_code location code) = true.
Proof.
  intros Hr Hplace Hcode Hmonth Hholder Hgov.
  pose proof (location_with_code_chars location code Hplace Hcode) as Hchars.
  pose proof (location_with_code_mapped to_lower location code
                eq_refl eq_refl to_lower_digit Hcode) as Hlower.
  pose proof (location_with_code_mapped to_upper location code
                eq_refl eq_refl to_upper_digit Hcode) as Hupper.
  fold (lower (location_with_code location code)) in Hlower.
  fold (upper (location_with_code location code)) in Hupper.
  fold (lower location) in Hlower. fold (upper location) in Hupper.
  set (text := location_with_code location code) in *.
  assert (Hcolon_l : PyStr.has_char ":" (lower text) = false).
  { apply (all_chars_no_char
             (fun c => place_char c || Ascii.eqb c "|" || is_digit c));
      [reflexivity|].
    apply (all_chars_map _ _ to_lower _ coded_char_lower Hchars). }
  assert (Hcolon_u : PyStr.has_char ":" (upper text) = false).
  { apply (all_chars_no_char
             (fun c => place_char c || Ascii.eqb c "|" || is_digit c));
      [reflexivity|].
    apply (all_chars_map _ _ to_upper _ coded_char_upper Hchars). }
  assert (Hbar_l : PyStr.has_char "|" (lower text) = true).
  { rewrite Hlower, has_char_append. apply orb_true_r. }
  assert (Hbar_u : PyStr.has_char "|" (upper text) = true).
  { rewrite Hupper, has_char_append. apply orb_true_r. }
  assert (E1 : is_empty text = false).
  { destruct Hplace as [[c [Hfirst _]] _]. subst text. unfold location_with_code.
    destruct location; [discriminate | reflexivity]. }
  assert (E2 : recognizer text = false).
  { apply (not_a_date recognizer _ Hr).
    now apply location_with_code_marks. }
  assert (E4 : is_numeric text = false).
  { destruct Hplace as [[c [Hfirst Hc]] _]. subst text. unfold location_with_code.
    destruct location as [|x location]; [discriminate|].
    injection Hfirst as ->. unfold is_numeric. cbn [append is_numeric_from].
    rewrite (alpha_not_digit c Hc). now destruct (Ascii.eqb c "."). }
  assert (E5 : is_placeholder text = false).
  { unfold is_placeholder in *.
    apply orb_false_iff in Hholder as [_ Hinc].
    apply orb_false_iff. split; [apply orb_false_iff; split|].
    - now apply (no_token_with_char "|").
    - now apply no_label_without_colon.
    - rewrite Hlower.
      rewrite (str_contains_app_foreign "i" "nclusive dates" _ _ "|" eq_refl).
      rewrite (contains_snoc "i" "nclusive dates" _ " " "s" eq_refl)
        by discriminate.
      rewrite Hinc. cbn [orb]. apply contains_needs_first.
      apply (all_chars_no_char (fun c => Ascii.eqb c "|" || Ascii.eqb c " " || is_digit c));
        [reflexivity|].
      cbn [all_chars append]. destruct Hcode as [_ Hd].
      apply (all_chars_impl is_digit); [|exact Hd].
      intros c ->. apply orb_true_r. }
  assert (E6 : is_bare_agency text = false).
  { unfold is_bare_agency. now apply (no_token_with_char "|"). }
  assert (E7 : is_government_id_prefixed text = false).
  { unfold is_government_id_prefixed in *. rewrite Hlower.
    destruct (String.prefix "government issued id"
                ((lower location ++ " ") ++ String "|" (" " ++ code))) eqn:P;
      [|reflexivity].
    apply (prefix_before_foreign "government issued id" _ _ "|" eq_refl) in P.
    apply (prefix_snoc "government issued id" _ " " "d" eq_refl) in P;
      [congruence | discriminate]. }
  assert (E8 : is_agency_label text = false).
  { unfold is_agency_label. now apply no_label_without_colon. }
  unfold validate. fold text.
  replace (strip text) with text
    by (symmetry; now apply location_with_code_strip).
  cbn [rule_table common_rules noise_rules app first_match].
  rewrite E1, E2. destruct (is_local_phone text); [reflexivity|].
  now rewrite E4, E5, E6, E7, E8.
Qed.

(** C7: whatever date patterns the table recognises beyond the named
    ones, a reference name is accepted exactly when it is not noise, is not
    a government-ID label, and has a run of at least two letters; numbers
    and government-ID labels are rejected as names.  As a reference detail
    a bare agency abbreviation is rejected, a local phone number is
    accepted, and so is every place followed by a code, [<place> | <code>],
    whose place is not caught by an earlier rule.  The fragments listed in
    the claim are classified as it says. *)
Theorem reference_fragments_classified :
  forall min_len recognizer,
    date_recognizer recognizer ->
    (forall text,
        validate min_len recognizer reference_name text =
          negb (is_empty (strip text)) && negb (recognizer (strip text)) &&
          negb (is_numeric (strip text)) && negb (is_placeholder (strip text)) &&
          negb (is_government_id_label (strip text)) &&
          has_alphabetic_token (strip text)) /\
    (forall text,
        numeric_text text \/ is_numeric (strip text) = true ->
        validate min_len recognizer reference_name text = false) /\
    (forall text,
        is_government_id_label (strip text) = true ->
        validate min_len recognizer reference_name text = false) /\
    (forall a,
        In a agency_abbreviations ->
        validate min_len recognizer reference_data a = false /\
        validate min_len recognizer reference_data (lower a) = false) /\
    (forall text,
        is_local_phone (strip text) = true ->
        validate min_len recognizer reference_data text = true) /\
    (forall location code,
        place_name location -> digits code ->
        names_month location = false ->
        is_placeholder location = false ->
        is_government_id_prefixed location = false ->
        validate min_len recognizer reference_data
                 (location_with_code location code) = true) /\
    validate min_len recognizer reference_name "Prof. Norilyn Dela Cruz" = true /\
    validate min_len recognizer reference_name "SSS: 123456789" = false /\
    validate min_len recognizer reference_name "Government Issued ID" = false /\
    validate min_len recognizer reference_data "Zamboanga City | 4342" = true /\
    validate min_len recognizer reference_data "SSS" = false /\
    validate min_len recognizer reference_data "09123456789" = true.
Proof.
  intros min_len recognizer Hr.
  assert (Hname : forall text,
             validate min_len recognizer reference_name text =
               negb (is_empty (strip text)) && negb (recognizer (strip text)) &&
               negb (is_numeric (strip text)) && negb (is_placeholder (strip text)) &&
               negb (is_government_id_label (strip text)) &&
               has_alphabetic_token (strip text)).
  { intros text. unfold validate. simpl.
    destruct (is_empty (strip text)); [reflexivity|].
    destruct (recognizer (strip text)); [reflexivity|].
    destruct (is_numeric (strip text)); [reflexivity|].
    destruct (is_placeholder (strip text)); [reflexivity|].
    destruct (is_government_id_label (strip text)); [reflexivity|].
    now destruct (has_alphabetic_token (strip text)). }
  assert (Hphone : forall text,
             is_local_phone (strip text) = true ->
             validate min_len recognizer reference_data text = true).
  { intros text H. destruct (local_phone_marks _ H) as [He Hd].
    unfold validate. simpl.
    now rewrite He, (not_a_date recognizer _ Hr Hd), H. }
  repeat apply conj.
  - exact Hname.
  - intros text H. apply noise_rejected; [|discriminate].
    destruct H as [H|H]; [|now right].
    apply numeric_text_recognized in H as [H ->]. now right.
  - intros text H. rewrite Hname, H.
    now rewrite andb_false_r.
  - intros a Ha. simpl in Ha.
    destruct Ha as [<-|[<-|[<-|[<-|[]]]]]; split; unfold validate; simpl;
      match goal with
      | |- context [recognizer ?t] => now destruct (recognizer t)
      end.
  - exact Hphone.
  - intros location code. now apply location_with_code_accepted.
  - rewrite Hname.
    change (strip "Prof. Norilyn Dela Cruz") with "Prof. Norilyn Dela Cruz".
    now rewrite (not_a_date recognizer "Prof. Norilyn Dela Cruz" Hr eq_refl).
  - rewrite Hname. change (strip "SSS: 123456789") with "SSS: 123456789".
    now destruct (recognizer "SSS: 123456789").
  - rewrite Hname. change (strip "Government Issued ID") with "Government Issued ID".
    now destruct (recognizer "Government Issued ID").
  - apply (location_with_code_accepted min_len recognizer "Zamboanga City" "4342" Hr);
      try reflexivity.
    + split; [now exists "Z"%char | reflexivity].
    + split; [discriminate | reflexivity].
  - unfold validate. simpl.
    match goal with |- context [recognizer ?t] => now destruct (recognizer t) end.
  - apply Hphone. reflexivity.
Qed.

Lemma reference_fragments_classified_witness :
  validate 10 has_date_marks reference_name "123456" = false /\
  validate 10 has_date_marks reference_name "TIN: 987654321" = false /\
  validate 10 has_date_marks reference_data "GSIS" = false /\
  validate 10 has_date_marks reference_data " 09171234567" = true /\
  validate 10 has_date_marks reference_data "Quezon City | 1100" = true.
Proof.
  destruct (reference_fragments_classified 10 has_date_marks date_marks_recognizer)
    as [_ [Hnumber [Hlabel [Hagency [Hphone [Hplace _]]]]]].
  repeat apply conj.
  - apply Hnumber. left. left. split; [discriminate | reflexivity].
  - apply Hlabel. reflexivity.
  - apply (Hagency "GSIS"). simpl. tauto.
  - apply Hphone. reflexivity.
  - apply (Hplace "Quezon City" "1100"); try reflexivity.
    + split; [now exists "Q"%char | reflexivity].
    + split; [discriminate | reflexivity].
Defined.

(* ===================================================================== *)
(** ** Theorems: the scoring engine *)
(* ===================================================================== *)

Section EngineFacts.

Local Open Scope Q_scope.

Lemma round_half_even_close (q : Q) :
  - (1 # 2) <= inject_Z (round_half_even q) - q <= 1 # 2.
Proof.
  unfold round_half_even.
  pose proof (Qfloor_le q) as Hlo. pose proof (Qlt_floor q) as Hhi.
  rewrite inject_Z_plus in Hhi. change (inject_Z 1) with 1 in Hhi.
  destruct (Qcompare (q - inject_Z (Qfloor q)) (1 # 2)) eqn:C.
  - apply Qeq_alt in C. destruct (Z.even (Qfloor q)).
    + lra.
    + rewrite inject_Z_plus. change (inject_Z 1) with 1. lra.
  - apply Qlt_alt in C. lra.
  - apply Qgt_alt in C. rewrite inject_Z_plus. change (inject_Z 1) with 1. lra.
Qed.

Lemma round_half_even_range (q : Q) (n : Z) :
  0 <= q -> q <= inject_Z n -> (0 <= round_half_even q <= n)%Z.
Proof.
  intros H0 Hn. unfold round_half_even.
  pose proof (Qfloor_le q) as Hlo.
  assert (F0 : (0 <= Qfloor q)%Z).
  { change 0%Z with (Qfloor 0). now apply Qfloor_resp_le. }
  assert (Fn : (Qfloor q <= n)%Z).
  { rewrite <- (Qfloor_Z n). now apply Qfloor_resp_le. }
  assert (Fs : inject_Z (Qfloor q) < q -> (Qfloor q + 1 <= n)%Z).
  { intros Hlt. assert (Qfloor q < n)%Z; [|lia].
    rewrite Zlt_Qlt. lra. }
  destruct (Qcompare (q - inject_Z (Qfloor q)) (1 # 2)) eqn:C.
  - apply Qeq_alt in C. destruct (Z.even (Qfloor q)); [lia|].
    split; [lia|]. apply Fs. lra.
  - lia.
  - apply Qgt_alt in C. split; [lia|]. apply Fs. lra.
Qed.

Lemma round1_close (q : Q) : - (1 # 20) <= round1 q - q <= 1 # 20.
Proof.
  unfold round1. pose proof (round_half_even_close (q * 10)) as H.
  set (n := inject_Z (round_half_even (q * 10))) in *.
  assert (E : n / 10 == n * (1 # 10)) by (unfold Qdiv; reflexivity).
  rewrite E. lra.
Qed.

Lemma round1_range (q : Q) : 0 <= q <= 100 -> 0 <= round1 q <= 100.
Proof.
  intros [H0 H100]. unfold round1.
  destruct (round_half_even_range (q * 10) 1000) as [Hlo Hhi].
  - lra.
  - change (inject_Z 1000) with 1000. lra.
  - rewrite Zle_Qle in Hlo, Hhi.
    change (inject_Z 0) with 0 in Hlo. change (inject_Z 1000) with 1000 in Hhi.
    set (n := inject_Z (round_half_even (q * 10))) in *.
    assert (E : n / 10 == n * (1 # 10)) by (unfold Qdiv; reflexivity).
    rewrite E. lra.
Qed.

Lemma clamp01_range (q : Q) : 0 <= clamp01 q <= 1.
Proof.
  unfold clamp01.
  destruct (Qle_bool q 0) eqn:A; [lra|].
  destruct (Qle_bool 1 q) eqn:B; [lra|].
  assert (~ q <= 0) by (intros H; apply Qle_bool_iff in H; congruence).
  assert (~ 1 <= q) by (intros H'; apply Qle_bool_iff in H'; congruence).
  lra.
Qed.

Lemma category_score_range bucket requirement :
  0 <= category_score bucket requirement <= 100.
Proof.
  unfold category_score.
  destruct bucket; [|lra]. destruct requirement; [|lra].
  destruct (is_blank s); [lra|].
  pose proof (clamp01_range (overlap_ratio s l)). lra.
Qed.

Lemma weighted_sum_range w a b c d :
  valid_weights w ->
  0 <= a <= 100 -> 0 <= b <= 100 -> 0 <= c <= 100 -> 0 <= d <= 100 ->
  0 <= weighted_sum w a b c d <= 100.
Proof.
  intros (H1 & H2 & H3 & H4 & Hs) Ha Hb Hc Hd. unfold weighted_sum.
  nra.
Qed.

Lemma weighted_sum_close w a b c d a' b' c' d' t :
  valid_weights w ->
  - (1 # 20) <= a' - a <= 1 # 20 ->
  - (1 # 20) <= b' - b <= 1 # 20 ->
  - (1 # 20) <= c' - c <= 1 # 20 ->
  - (1 # 20) <= d' - d <= 1 # 20 ->
  - (1 # 20) <= t - weighted_sum w a b c d <= 1 # 20 ->
  Qabs (t - weighted_sum w a' b' c' d') <= 1 # 10.
Proof.
  intros (H1 & H2 & H3 & H4 & Hs) Ha Hb Hc Hd Ht.
  apply Qabs_Qle_condition. unfold weighted_sum in *.
  nra.
Qed.

Variable w : weights.
Hypothesis w_valid : valid_weights w.

Lemma well_scored_report (edu exp trn elg : Q) :
  0 <= edu <= 100 -> 0 <= exp <= 100 -> 0 <= trn <= 100 -> 0 <= elg <= 100 ->
  forall details,
    well_scored w
      (PDict [("total_score", PFloat (round1 (weighted_sum w edu exp trn elg)));
              ("education_score", PFloat (round1 edu));
              ("experience_score", PFloat (round1 exp));
              ("training_score", PFloat (round1 trn));
              ("eligibility_score", PFloat (round1 elg));
              ("assessment_details", details)]).
Proof.
  intros He Hx Ht Hg details.
  exists (round1 (weighted_sum w edu exp trn elg)),
         (round1 edu), (round1 exp), (round1 trn), (round1 elg).
  repeat (split; [reflexivity|]).
  repeat (split; [now apply round1_range|]).
  split.
  - apply round1_range. now apply weighted_sum_range.
  - apply (weighted_sum_close w edu exp trn elg); auto using round1_close.
Qed.

Lemma well_scored_zero (rest : list (string * pyval)) :
  well_scored w
    (PDict (("total_score", PInt 0) :: ("education_score", PInt 0) ::
            ("experience_score", PInt 0) :: ("training_score", PInt 0) ::
            ("eligibility_score", PInt 0) :: rest)).
Proof.
  exists 0, 0, 0, 0, 0.
  repeat (split; [reflexivity|]).
  repeat (split; [lra|]).
  apply Qabs_Qle_condition. unfold weighted_sum. lra.
Qed.

End EngineFacts.

Lemma analyze_raise_is_exception (pds_data : pyval) (e : exn) :
  analyze_pds_background pds_data = Raise e -> is_Exception e = true.
Proof.
  destruct pds_data; try (simpl; now intros [= <-]).
  rewrite analyze_pds_background_buckets. discriminate.
Qed.

(** The engine returns either a report of four category scores in
    [0,100], or zero scores with an error. *)
Lemma assess_shape (w : weights) (candidate job : pyval) :
  (exists edu exp trn elg : Q,
      assess w candidate job = Ok (report w edu exp trn elg) /\
      (0 <= edu <= 100)%Q /\ (0 <= exp <= 100)%Q /\
      (0 <= trn <= 100)%Q /\ (0 <= elg <= 100)%Q) \/
  (exists message, assess w candidate job = Ok (error_scores message)).
Proof.
  unfold assess, score_body.
  destruct (analyze_pds_background candidate) as [profile|e] eqn:A; cbn [bind].
  - destruct job; cbn [py_get bind try_except is_Exception exc_cls];
      try (right; eexists; reflexivity).
    left. do 4 eexists. split; [reflexivity|].
    repeat split; apply category_score_range.
  - right. unfold try_except. rewrite (analyze_raise_is_exception _ _ A).
    eexists; reflexivity.
Qed.

Ltac getitem_or_error G :=
  match goal with
  | |- context [py_getitem ?o ?k] =>
      destruct (py_getitem o k) eqn:G; cbn [bind];
      [| right; right; unfold try_except;
         rewrite (proj1 (py_getitem_raise _ _ _ G)); eexists; reflexivity]
  end.

(** On a console that takes every line the handler returns its zeros. *)
Lemma calculate_score_quiet
      (engine : pyval -> pyval -> result pyval) (pds_data job_data : pyval) :
  calculate_score engine takes_line takes_traceback pds_data job_data
  = try_except (calculate_score_body engine pds_data job_data)
               (fun e => Ok (error_scores (exc_str e))).
Proof. reflexivity. Qed.

(** What [calculate_score] returns does not depend on the console. *)
Lemma calculate_score_any_console
      (engine : pyval -> pyval -> result pyval)
      (print_error : string -> result unit) (print_exc : exn -> result unit)
      (pds_data job_data r : pyval) :
  calculate_score engine print_error print_exc pds_data job_data = Ok r ->
  calculate_score engine takes_line takes_traceback pds_data job_data = Ok r.
Proof.
  unfold calculate_score, try_except.
  destruct (calculate_score_body engine pds_data job_data) as [r'|e]; [trivial|].
  destruct (is_Exception e); [|trivial].
  destruct (print_error (exc_str e)) as [[]|]; cbn [bind]; [|discriminate].
  destruct (print_exc e) as [[]|]; cbn [bind]; [trivial | discriminate].
Qed.

(** What the entry point returns when it calls the engine above. *)
Lemma calculate_score_assess_shape (w : weights) (candidate job : pyval) :
  (exists edu exp trn elg : Q,
      calculate_score (assess w) takes_line takes_traceback candidate job
      = Ok (PDict [("total_score", PFloat (round1 (weighted_sum w edu exp trn elg)));
                   ("education_score", PFloat (round1 edu));
                   ("experience_score", PFloat (round1 exp));
                   ("training_score", PFloat (round1 trn));
                   ("eligibility_score", PFloat (round1 elg));
                   ("assessment_details", report w edu exp trn elg)]) /\
      (0 <= edu <= 100)%Q /\ (0 <= exp <= 100)%Q /\
      (0 <= trn <= 100)%Q /\ (0 <= elg <= 100)%Q) \/
  (exists message,
      calculate_score (assess w) takes_line takes_traceback candidate job
      = Ok (PDict [("total_score", PInt 0);
                   ("education_score", PInt 0);
                   ("experience_score", PInt 0);
                   ("training_score", PInt 0);
                   ("eligibility_score", PInt 0);
                   ("assessment_details", error_scores message)])) \/
  (exists message,
      calculate_score (assess w) takes_line takes_traceback candidate job
      = Ok (error_scores message)).
Proof.
  rewrite calculate_score_quiet. unfold calculate_score_body.
  getitem_or_error G1. getitem_or_error G2. getitem_or_error G3.
  getitem_or_error G4. getitem_or_error G5. getitem_or_error G6.
  match goal with
  | |- context [assess w candidate ?j] =>
      destruct (assess_shape w candidate j)
        as [(edu & exp & trn & elg & -> & He & Hx & Ht & Hg) | [message ->]]
  end.
  - left. exists edu, exp, trn, elg. split; [reflexivity|]. now repeat split.
  - right. left. exists message. reflexivity.
Qed.

(** C8: with weights that are not negative and sum to 1, the entry point
    and the engine it calls return, for every candidate and job, four
    category scores in [0,100] and a total in [0,100] that is within one
    tenth of the weighted sum of the four reported scores (each reported
    value being rounded to one decimal place).  The entry point returns on
    a console that takes the lines of its handler, and whatever the console
    does, a result that it returns is scored in this way. *)
Theorem scores_bounded_and_weighted :
  forall w, valid_weights w ->
    forall candidate job,
      (exists r, assess w candidate job = Ok r /\ well_scored w r) /\
      (exists r, calculate_score (assess w) takes_line takes_traceback candidate job
                 = Ok r /\ well_scored w r) /\
      (forall print_error print_exc r,
          calculate_score (assess w) print_error print_exc candidate job = Ok r ->
          well_scored w r).
Proof.
  intros w Hw candidate job.
  assert (Hquiet : exists r,
             calculate_score (assess w) takes_line takes_traceback candidate job
             = Ok r /\ well_scored w r).
  { destruct (calculate_score_assess_shape w candidate job)
      as [(edu & exp & trn & elg & -> & He & Hx & Ht & Hg) | [[message ->] | [message ->]]].
    + eexists; split; [reflexivity|]. now apply well_scored_report.
    + eexists; split; [reflexivity|]. apply well_scored_zero.
    + eexists; split; [reflexivity|]. apply well_scored_zero. }
  split; [|split; [exact Hquiet|]].
  - destruct (assess_shape w candidate job)
      as [(edu & exp & trn & elg & -> & He & Hx & Ht & Hg) | [message ->]].
    + eexists; split; [reflexivity|].
      destruct (well_scored_report w Hw edu exp trn elg He Hx Ht Hg PNone)
        as (t & a & b & c & d & H).
      exists t, a, b, c, d. exact H.
    + eexists; split; [reflexivity|]. apply well_scored_zero.
  - intros print_error print_exc r H.
    apply calculate_score_any_console in H.
    destruct Hquiet as [r' [Hr' Hwell]]. rewrite Hr' in H. now injection H as <-.
Qed.

Lemma scores_bounded_and_weighted_witness :
  (exists r, assess sample_weights sample_candidate sample_job = Ok r /\
             well_scored sample_weights r) /\
  (exists r, calculate_score (assess sample_weights) takes_line takes_traceback
                             sample_candidate sample_job = Ok r /\
             well_scored sample_weights r).
Proof.
  destruct (scores_bounded_and_weighted sample_weights) with
    (candidate := sample_candidate) (job := sample_job) as [H1 [H2 _]].
  - unfold valid_weights, sample_weights; simpl. repeat split; lra.
  - split; [exact H1 | exact H2].
Defined.

(* ===================================================================== *)
(** ** Further properties: the scoring entry point and its callers *)
(* ===================================================================== *)

Lemma bind_ok {A B : Type} (m : result A) (k : A -> result B) (b : B) :
  bind m k = Ok b -> exists a, m = Ok a /\ k a = Ok b.
Proof.
  destruct m as [a|e]; simpl; [|discriminate]. intros H. now exists a.
Qed.

Lemma py_get_ok (o : pyval) (k : string) (default v : pyval) :
  py_get o k default = Ok v ->
  exists d, o = PDict d /\
            v = match lookup k d with Some x => x | None => default end.
Proof.
  destruct o; simpl; try discriminate. intros [= <-]. now eexists.
Qed.

Ltac open_bind H :=
  apply bind_ok in H as [? [? H]].

(** The success branch of [calculate_score]: what the body returns. *)
Lemma calculate_score_body_ok
      (engine : pyval -> pyval -> result pyval) (pds_data job_data r : pyval) :
  calculate_score_body engine pds_data job_data = Ok r ->
  exists job details d,
    engine pds_data job = Ok details /\ details = PDict d /\
    r = PDict [("total_score",
                match lookup "total_score" d with Some x => x | None => PInt 0 end);
               ("education_score",
                match lookup "education_score" d with Some x => x | None => PInt 0 end);
               ("experience_score",
                match lookup "experience_score" d with Some x => x | None => PInt 0 end);
               ("training_score",
                match lookup "training_score" d with Some x => x | None => PInt 0 end);
               ("eligibility_score",
                match lookup "eligibility_score" d with Some x => x | None => PInt 0 end);
               ("assessment_details", details)].
Proof.
  unfold calculate_score_body. intros H.
  do 6 open_bind H.
  apply bind_ok in H as [details [Hengine H]].
  apply bind_ok in H as [t [Ht H]]. apply py_get_ok in Ht as [d [-> ->]].
  simpl in H. injection H as <-.
  eexists _, _, d. split; [exact Hengine|]. split; reflexivity.
Qed.

(** X1: whatever the engine does, a result returned by [calculate_score]
    is a mapping that holds the five scores; it holds [error] exactly when
    the computation raised, and [assessment_details] exactly when it did
    not. *)
Theorem calculate_score_result_has_scores :
  forall engine print_error print_exc pds_data job_data r,
    calculate_score engine print_error print_exc pds_data job_data = Ok r ->
    (forall key, In key score_keys -> has_key key r = true) /\
    (has_key "error" r = true <->
     exists e, calculate_score_body engine pds_data job_data = Raise e) /\
    (has_key "assessment_details" r = true <->
     exists r', calculate_score_body engine pds_data job_data = Ok r').
Proof.
  intros engine print_error print_exc pds_data job_data r H.
  apply calculate_score_any_console in H. revert H.
  rewrite calculate_score_quiet. unfold try_except.
  destruct (calculate_score_body engine pds_data job_data) as [r'|e] eqn:B.
  - intros [= ->].
    destruct (calculate_score_body_ok _ _ _ _ B) as (job & details & d & _ & _ & ->).
    repeat split.
    + intros key Hk. simpl in Hk.
      destruct Hk as [<-|[<-|[<-|[<-|[<-|[]]]]]]; reflexivity.
    + discriminate.
    + intros [e He]. discriminate.
    + now eexists.
  - destruct (is_Exception e); [|discriminate]. intros [= <-].
    repeat split.
    + intros key Hk. simpl in Hk.
      destruct Hk as [<-|[<-|[<-|[<-|[<-|[]]]]]]; reflexivity.
    + now eexists.
    + discriminate.
    + intros [r' Hr']. discriminate.
Qed.

Lemma calculate_score_result_has_scores_witness :
  has_key "total_score"
          (error_scores "'NoneType' object is not subscriptable") = true.
Proof.
  apply (proj1 (calculate_score_result_has_scores
                  (raising_engine (mk_exn (ExceptionSubclass "ValueError") "unused"))
                  takes_line takes_traceback (PDict []) PNone
                  (error_scores "'NoneType' object is not subscriptable") eq_refl)).
  simpl. now left.
Defined.

Lemma py_or_cases (a b : pyval) :
  (truthy a = true /\ py_or a b = a) \/ (truthy a = false /\ py_or a b = b).
Proof. unfold py_or. destruct (truthy a); auto. Qed.

(** X2: a posting that [get_job_posting_data] returns has every field
    [calculate_score] reads, and a requirement that is NULL (or otherwise
    falsy) in the database has become the empty string; so when such a job
    is scored, a failure is never a missing field: the engine raised, or
    returned something that is not a mapping.  Where the query finds no
    row, [get_job_posting_data] raises an exception derived from
    [Exception] whose message names the id; an exception of the database
    itself reaches the caller as it is. *)
Theorem loaded_job_has_every_field :
  (forall query_posting job_id job,
      get_job_posting_data query_posting job_id = Ok job ->
      (exists row, query_posting job_id = Ok (Some row)) /\
      (forall key, In key job_keys -> exists v, py_getitem job key = Ok v) /\
      (forall key, In key requirement_keys ->
         exists v, field key job = Some v /\ (truthy v = true \/ v = PStr "")) /\
      (forall engine pds_data e,
          calculate_score_body engine pds_data job = Raise e ->
          (exists p j, engine p j = Raise e) \/
          (exists p j r, engine p j = Ok r /\ isinstance_dict r = false))) /\
  (forall query_posting job_id,
      query_posting job_id = Ok None ->
      get_job_posting_data query_posting job_id = Raise (not_found job_id) /\
      is_Exception (not_found job_id) = true /\
      str_contains (string_of_Z job_id) (exc_str (not_found job_id)) = true) /\
  (forall query_posting job_id e,
      query_posting job_id = Raise e ->
      get_job_posting_data query_posting job_id = Raise e).
Proof.
  split; [|split].
  - intros query_posting job_id job. unfold get_job_posting_data.
    destruct (query_posting job_id) as [[row|]|e]; cbn [bind]; try discriminate.
    intros [= <-].
    split; [now exists row|]. split; [|split].
    + intros key Hk. simpl in Hk.
      destruct Hk as [<-|[<-|[<-|[<-|[<-|[<-|[]]]]]]]; eexists; reflexivity.
    + intros key Hk. simpl in Hk.
      destruct Hk as [<-|[<-|[<-|[<-|[]]]]]; eexists; (split; [reflexivity|]);
        match goal with
        | |- context [py_or ?a ?b] =>
            destruct (py_or_cases a b) as [[T ->]|[_ ->]]; auto
        end.
    + intros engine pds_data e. unfold calculate_score_body.
      cbn [py_getitem lookup String.eqb Ascii.eqb Bool.eqb bind].
      intros H.
      apply bind_raise in H as [H | [details [Hd H]]]; [left; eauto|].
      right. destruct details; try (do 3 eexists; split; [exact Hd | reflexivity]).
      simpl in H. discriminate.
  - intros query_posting job_id H. unfold get_job_posting_data. rewrite H.
    cbn [bind]. split; [reflexivity|]. split; [reflexivity|].
    unfold not_found. cbn [exc_str].
    apply (str_contains_app_r _ "Job posting ID ").
    apply str_contains_app_l, str_contains_self.
  - intros query_posting job_id e H. unfold get_job_posting_data. now rewrite H.
Qed.

Lemma loaded_job_has_every_field_witness :
  exists v,
    field "training_requirements"
          (PDict [("id", PInt 2);
                  ("position_title", PStr "Administrative Officer IV");
                  ("department_office", PStr "HRMO");
                  ("education_requirements", PStr "Bachelor's degree");
                  ("training_requirements", PStr "");
                  ("experience_requirements", PStr "1 year");
                  ("eligibility_requirements", PStr "CS Professional")]) = Some v /\
    (truthy v = true \/ v = PStr "").
Proof.
  destruct (proj1 loaded_job_has_every_field
              (fun _ => Ok (Some (mk_job_row (PInt 2) (PStr "Administrative Officer IV")
                                             (PStr "HRMO") (PStr "Bachelor's degree")
                                             PNone (PStr "1 year")
                                             (PStr "CS Professional"))))
              2%Z _ eq_refl) as [_ [_ [Hreq _]]].
  apply (Hreq "training_requirements"). simpl. tauto.
Defined.

(* ===================================================================== *)
(** ** Further properties: the analysis of the score matrix *)
(* ===================================================================== *)

Lemma format_1f_number (v : pyval) (q : Q) :
  format_1f v = Ok q -> py_number v = Some q.
Proof.
  destruct v; simpl; try discriminate; try (now intros [= <-]).
  destruct (fits_float z); [now intros [= <-] | discriminate].
Qed.

(** A number is printed, unless it is an integer too large for a float. *)
Lemma format_1f_cases (v : pyval) (q : Q) :
  py_number v = Some q -> format_1f v = Ok q \/ format_1f v = Raise int_too_large.
Proof.
  destruct v; simpl; try discriminate; intros [= <-]; auto.
  destruct (fits_float z); auto.
Qed.

Lemma py_gt_number (a b : pyval) (x y : Q) :
  py_number a = Some x -> py_number b = Some y -> py_gt a b = Ok (Qgtb x y).
Proof. unfold py_gt. now intros -> ->. Qed.

Lemma Qgtb_asym (x y : Q) : Qgtb x y = true -> Qgtb y x = false.
Proof.
  unfold Qgtb. destruct (Qle_bool x y) eqn:A; [discriminate|]. intros _.
  destruct (Qle_bool y x) eqn:B; [reflexivity|].
  assert (~ (x <= y)%Q) by (rewrite <- Qle_bool_iff; congruence).
  assert (~ (y <= x)%Q) by (rewrite <- Qle_bool_iff; congruence).
  lra.
Qed.

Lemma Qgtb_eq (x y : Q) : (x == y)%Q -> Qgtb x y = false.
Proof.
  intros E. unfold Qgtb.
  assert (H : Qle_bool x y = true) by (apply Qle_bool_iff; lra).
  now rewrite H.
Qed.

Ltac use_totals :=
  repeat match goal with
         | H : total_of ?s ?j = Ok _ |- context [total_of ?s ?j] => rewrite H
         | H : format_1f ?v = _ |- context [format_1f ?v] => rewrite H
         | H1 : py_number ?a = Some _, H2 : py_number ?b = Some _
           |- context [py_gt ?a ?b] =>
             rewrite (py_gt_number _ _ _ _ H1 H2)
         end.

Ltac run_analysis :=
  unfold instructor_jobs, compare_instructor_job;
  repeat (progress (use_totals;
                    cbn [cbind emit print app bind cfor count_new_ahead])).

(** With every total printed, the analysis ends without an error and
    prints the verdict that [overall] gives. *)
Lemma analysis_of_numbers (results l n : pyval) (al cl el sl an cn en sn : Q) :
  py_get results "Lenar" (PDict []) = Ok l ->
  py_get results "New" (PDict []) = Ok n ->
  totals_print l al cl el sl -> totals_print n an cn en sn ->
  snd (analyze_scoring_logic results) = Ok tt /\
  verdict_of (fst (analyze_scoring_logic results))
  = Some (overall (Qgtb al an)
                  (ahead_count (Qgtb cn cl) (Qgtb en el) (Qgtb sn sl))).
Proof.
  intros Hl Hn (Tl & (v1 & G1 & F1) & (v2 & G2 & F2) & (v3 & G3 & F3) & (v4 & G4 & F4))
         (Tn & (u1 & K1 & E1) & (u2 & K2 & E2) & (u3 & K3 & E3) & (u4 & K4 & E4)).
  pose proof (format_1f_number _ _ F1) as N1. pose proof (format_1f_number _ _ F2) as N2.
  pose proof (format_1f_number _ _ F3) as N3. pose proof (format_1f_number _ _ F4) as N4.
  pose proof (format_1f_number _ _ E1) as M1. pose proof (format_1f_number _ _ E2) as M2.
  pose proof (format_1f_number _ _ E3) as M3. pose proof (format_1f_number _ _ E4) as M4.
  unfold analyze_scoring_logic. rewrite Hl, Hn.
  cbn [cbind emit print app]. rewrite Tl, Tn. cbn [negb orb].
  run_analysis.
  unfold ahead_count.
  generalize (Qgtb al an) (Qgtb an al) (Qgtb cn cl) (Qgtb cl cn)
             (Qgtb en el) (Qgtb el en) (Qgtb sn sl) (Qgtb sl sn).
  intros [] [] [] [] [] [] [] []; split; reflexivity.
Qed.

(** The analysis prints its verdict after the eight totals: where one of
    them is not printed, there is no verdict. *)
Lemma verdict_needs_prints (results l n : pyval) (al cl el sl an cn en sn : Q) :
  py_get results "Lenar" (PDict []) = Ok l ->
  py_get results "New" (PDict []) = Ok n ->
  totals_are l al cl el sl -> totals_are n an cn en sn ->
  verdict_of (fst (analyze_scoring_logic results)) <> None ->
  totals_print l al cl el sl /\ totals_print n an cn en sn.
Proof.
  intros Hl Hn (Tl & (v1 & G1 & N1) & (v2 & G2 & N2) & (v3 & G3 & N3) & (v4 & G4 & N4))
         (Tn & (u1 & K1 & M1) & (u2 & K2 & M2) & (u3 & K3 & M3) & (u4 & K4 & M4)) V.
  assert (Stop : forall P : Prop,
             verdict_of (fst (analyze_scoring_logic results)) = None -> P)
    by (intros P E; now elim V).
  unfold analyze_scoring_logic in Stop. rewrite Hl, Hn in Stop.
  cbn [cbind emit print app] in Stop. rewrite Tl, Tn in Stop. cbn [negb orb] in Stop.
  destruct (format_1f_cases v1 al N1) as [F1|F1];
    [|apply Stop; run_analysis; reflexivity].
  destruct (format_1f_cases u1 an M1) as [E1|E1];
    [|apply Stop; run_analysis; reflexivity].
  destruct (format_1f_cases v2 cl N2) as [F2|F2];
    [|apply Stop; run_analysis; now destruct (Qgtb al an), (Qgtb an al)].
  destruct (format_1f_cases u2 cn M2) as [E2|E2];
    [|apply Stop; run_analysis; now destruct (Qgtb al an), (Qgtb an al)].
  destruct (format_1f_cases v3 el N3) as [F3|F3];
    [|apply Stop; run_analysis;
      now destruct (Qgtb al an), (Qgtb an al), (Qgtb cn cl), (Qgtb cl cn)].
  destruct (format_1f_cases u3 en M3) as [E3|E3];
    [|apply Stop; run_analysis;
      now destruct (Qgtb al an), (Qgtb an al), (Qgtb cn cl), (Qgtb cl cn)].
  destruct (format_1f_cases v4 sl N4) as [F4|F4];
    [|apply Stop; run_analysis;
      now destruct (Qgtb al an), (Qgtb an al), (Qgtb cn cl), (Qgtb cl cn),
                   (Qgtb en el), (Qgtb el en)].
  destruct (format_1f_cases u4 sn M4) as [E4|E4];
    [|apply Stop; run_analysis;
      now destruct (Qgtb al an), (Qgtb an al), (Qgtb cn cl), (Qgtb cl cn),
                   (Qgtb en el), (Qgtb el en)].
  split; (split; [assumption|]); repeat split; eexists; split; eassumption.
Qed.

(** X3: when every total is a number, the analysis prints the verdict
    "working correctly" only if Lenar is strictly ahead on the
    administrative job and New strictly ahead on at least two of the three
    instructor jobs; so the same scores with the two candidates exchanged
    get the verdict "needs review". *)
Theorem verdict_reverses_when_candidates_swap :
  forall results swapped l n al cl el sl an cn en sn,
    py_get results "Lenar" (PDict []) = Ok l ->
    py_get results "New" (PDict []) = Ok n ->
    py_get swapped "Lenar" (PDict []) = Ok n ->
    py_get swapped "New" (PDict []) = Ok l ->
    totals_are l al cl el sl -> totals_are n an cn en sn ->
    verdict_of (fst (analyze_scoring_logic results)) = Some WorkingCorrectly ->
    (Qgtb al an = true /\
     2 <= ahead_count (Qgtb cn cl) (Qgtb en el) (Qgtb sn sl)) /\
    snd (analyze_scoring_logic swapped) = Ok tt /\
    verdict_of (fst (analyze_scoring_logic swapped)) = Some NeedsReview.
Proof.
  intros results swapped l n al cl el sl an cn en sn Hl Hn Sl Sn Tl Tn V.
  destruct (verdict_needs_prints results l n _ _ _ _ _ _ _ _ Hl Hn Tl Tn)
    as [Pl Pn]; [rewrite V; discriminate|].
  revert V.
  destruct (analysis_of_numbers results l n _ _ _ _ _ _ _ _ Hl Hn Pl Pn) as [_ ->].
  destruct (analysis_of_numbers swapped n l _ _ _ _ _ _ _ _ Sl Sn Pn Pl) as [-> ->].
  pose proof (Qgtb_asym al an) as A. pose proof (Qgtb_asym cn cl) as C.
  pose proof (Qgtb_asym en el) as E. pose proof (Qgtb_asym sn sl) as S.
  unfold overall, ahead_count.
  destruct (Qgtb al an); destruct (Qgtb cn cl); destruct (Qgtb en el);
    destruct (Qgtb sn sl); simpl; intros [=];
    rewrite ?A, ?C, ?E, ?S by reflexivity;
    repeat match goal with
           | |- context [Qgtb ?x ?y] => destruct (Qgtb x y)
           end; simpl;
    repeat split; try reflexivity; lia.
Qed.

Lemma verdict_reverses_when_candidates_swap_witness :
  verdict_of (fst (analyze_scoring_logic (matrix teaching_scores administrative_scores)))
  = Some NeedsReview.
Proof.
  refine (proj2 (proj2 (verdict_reverses_when_candidates_swap
                          (matrix administrative_scores teaching_scores)
                          (matrix teaching_scores administrative_scores)
                          administrative_scores teaching_scores
                          80 0 30 20 40 0 90 70
                          eq_refl eq_refl eq_refl eq_refl _ _ eq_refl)));
    (split; [reflexivity|]); repeat split; eexists; split; reflexivity.
Defined.

(** X4: if the scores of either candidate are missing or empty, the
    analysis prints the missing-data line, gives no verdict and ends
    without an error; and if the two candidates tie on all four jobs, with
    totals that [.1f] prints, as they do when every scoring failed and
    returned zeros, the verdict is "needs review".  A total that is an
    integer too large for a float ends the analysis with OverflowError
    before any verdict. *)
Theorem no_verdict_without_scores_and_ties_need_review :
  (forall results l n,
      py_get results "Lenar" (PDict []) = Ok l ->
      py_get results "New" (PDict []) = Ok n ->
      truthy l = false \/ truthy n = false ->
      analyze_scoring_logic results
      = ([Heading "Scoring Logic Analysis"; Rule; MissingScoreData], Ok tt)) /\
  (forall results l n al cl el sl an cn en sn,
      py_get results "Lenar" (PDict []) = Ok l ->
      py_get results "New" (PDict []) = Ok n ->
      totals_print l al cl el sl -> totals_print n an cn en sn ->
      (al == an)%Q -> (cl == cn)%Q -> (el == en)%Q -> (sl == sn)%Q ->
      snd (analyze_scoring_logic results) = Ok tt /\
      verdict_of (fst (analyze_scoring_logic results)) = Some NeedsReview) /\
  (forall results l n z,
      py_get results "Lenar" (PDict []) = Ok l ->
      py_get results "New" (PDict []) = Ok n ->
      truthy l = true -> truthy n = true ->
      total_of l "Administrative Officer" = Ok (PInt z) ->
      (exists v, total_of n "Administrative Officer" = Ok v) ->
      fits_float z = false ->
      snd (analyze_scoring_logic results) = Raise int_too_large /\
      verdict_of (fst (analyze_scoring_logic results)) = None).
Proof.
  split; [|split].
  - intros results l n Hl Hn H. unfold analyze_scoring_logic.
    rewrite Hl, Hn. cbn [cbind emit print app].
    destruct H as [-> | ->]; [reflexivity|].
    now destruct (truthy l).
  - intros results l n al cl el sl an cn en sn Hl Hn Tl Tn Ea Ec Ee Es.
    destruct (analysis_of_numbers results l n _ _ _ _ _ _ _ _ Hl Hn Tl Tn) as [-> ->].
    split; [reflexivity|].
    rewrite (Qgtb_eq al an Ea), (Qgtb_eq cn cl), (Qgtb_eq en el), (Qgtb_eq sn sl)
      by (symmetry; assumption).
    reflexivity.
  - intros results l n z Hl Hn Tl Tn Gl [v Gn] Hz.
    unfold analyze_scoring_logic. rewrite Hl, Hn.
    cbn [cbind emit print app]. rewrite Tl, Tn. cbn [negb orb].
    rewrite Gl, Gn. cbn [cbind emit print app format_1f]. rewrite Hz.
    split; reflexivity.
Qed.

Lemma no_verdict_without_scores_and_ties_need_review_witness :
  analyze_scoring_logic (PDict [("Lenar", PDict [])])
  = ([Heading "Scoring Logic Analysis"; Rule; MissingScoreData], Ok tt) /\
  verdict_of
    (fst (analyze_scoring_logic
            (matrix (PDict [("Administrative Officer", error_scores "no engine")])
                    (PDict [("Administrative Officer", error_scores "no engine")]))))
  = Some NeedsReview.
Proof.
  destruct no_verdict_without_scores_and_ties_need_review as [Hmissing [Hties _]].
  split.
  - apply (Hmissing (PDict [("Lenar", PDict [])]) (PDict []) (PDict [])
                    eq_refl eq_refl).
    now left.
  - refine (proj2 (Hties
                     (matrix (PDict [("Administrative Officer",
                                      error_scores "no engine")])
                             (PDict [("Administrative Officer",
                                      error_scores "no engine")]))
                     (PDict [("Administrative Officer", error_scores "no engine")])
                     (PDict [("Administrative Officer", error_scores "no engine")])
                     0%Q 0%Q 0%Q 0%Q 0%Q 0%Q 0%Q 0%Q eq_refl eq_refl _ _ _ _ _ _));
      try reflexivity;
      (split; [reflexivity|]); repeat split; eexists; split; reflexivity.
Defined.

(* ===================================================================== *)
(** ** Further properties: the background summary *)
(* ===================================================================== *)

Lemma cbind_fst {A B : Type} (m : console A) (k : A -> console B) :
  fst (cbind m k)
  = fst m ++ match snd m with
             | Ok a => fst (k a)
             | Raise _ => []
             end.
Proof.
  destruct m as [out [a|e]]; simpl.
  - now destruct (k a).
  - now rewrite app_nil_r.
Qed.

Lemma cbind_snd {A B : Type} (m : console A) (k : A -> console B) :
  snd (cbind m k)
  = match snd m with
    | Ok a => snd (k a)
    | Raise e => Raise e
    end.
Proof.
  destruct m as [out [a|e]]; simpl; [now destruct (k a) | reflexivity].
Qed.

Lemma print_each_ok (values : list pyval) :
  print_each values = (map Bullet values, Ok tt).
Proof.
  unfold print_each. induction values as [|v l IH]; simpl; [reflexivity|].
  now rewrite IH.
Qed.

Lemma bullets_map (values : list pyval) : bullets (map Bullet values) = values.
Proof.
  unfold bullets. induction values as [|v l IH]; simpl; [reflexivity|].
  now rewrite IH.
Qed.

Lemma bullets_app (a b : list line) : bullets (a ++ b) = bullets a ++ bullets b.
Proof. unfold bullets. apply flat_map_app. Qed.

Lemma py_eqb_sym (a b : pyval) : py_eqb a b = py_eqb b a.
Proof.
  destruct a, b; simpl; try reflexivity;
    try apply String.eqb_sym;
    unfold Qeq_bool; apply Z.eqb_sym.
Qed.

Lemma existsb_app_false {A : Type} (p : A -> bool) (xs ys : list A) :
  existsb p (xs ++ ys) = false <-> existsb p xs = false /\ existsb p ys = false.
Proof. rewrite existsb_app. apply orb_false_iff. Qed.

Lemma pairwise_distinct_snoc (seen : list pyval) (v : pyval) :
  pairwise_distinct seen -> existsb (py_eqb v) seen = false ->
  pairwise_distinct (seen ++ [v]).
Proof.
  induction seen as [|x l IH]; simpl; intros H Hv.
  - auto.
  - destruct H as [Hx Hl]. apply orb_false_iff in Hv as [Hvx Hvl]. split.
    + apply existsb_app_false. split; [exact Hx|]. simpl.
      now rewrite py_eqb_sym, Hvx.
    + now apply IH.
Qed.

Lemma py_set_from_ok (values seen unique : list pyval) :
  py_set_from seen values = Ok unique ->
  forallb hashable values = true /\
  (pairwise_distinct seen -> pairwise_distinct unique) /\
  (forall x, In x unique -> In x seen \/ In x values) /\
  List.length unique <= List.length seen + List.length values.
Proof.
  revert seen. induction values as [|v l IH]; simpl; intros seen H.
  - injection H as <-. repeat split; auto. lia.
  - destruct (hashable v) eqn:Hv; [|discriminate].
    destruct (existsb (py_eqb v) seen) eqn:E;
      destruct (IH _ H) as (Hh & Hd & Hin & Hlen).
    + repeat split; auto; [|lia].
      intros x Hx. destruct (Hin x Hx); auto.
    + repeat split; auto.
      * intros Hs. apply Hd. now apply pairwise_distinct_snoc.
      * intros x Hx. destruct (Hin x Hx) as [Hx'|Hx']; auto.
        apply in_app_iff in Hx' as [Hx'|[<-|[]]]; auto.
      * rewrite length_app in Hlen. simpl in Hlen. lia.
Qed.

Lemma py_set_from_total (values seen : list pyval) :
  forallb hashable values = true -> exists unique, py_set_from seen values = Ok unique.
Proof.
  revert seen. induction values as [|v l IH]; simpl; intros seen H.
  - now eexists.
  - apply andb_prop in H as [Hv Hl]. rewrite Hv.
    destruct (existsb (py_eqb v) seen); now apply IH.
Qed.

Lemma py_set_from_unhashable (values seen : list pyval) :
  forallb hashable values = false ->
  exists e, py_set_from seen values = Raise e /\ exc_cls e = TypeError.
Proof.
  revert seen. induction values as [|v l IH]; simpl; intros seen H; [discriminate|].
  destruct (hashable v); simpl in H.
  - destruct (existsb (py_eqb v) seen); now apply IH.
  - eexists. split; reflexivity.
Qed.

Lemma pairwise_distinct_NoDup (values : list pyval) :
  forallb hashable values = true -> pairwise_distinct values -> NoDup values.
Proof.
  induction values as [|v l IH]; simpl; intros Hh Hd; [constructor|].
  apply andb_prop in Hh as [Hv Hl]. destruct Hd as [Hvl Hd].
  constructor; [|now apply IH].
  intros Hin.
  assert (R : py_eqb v v = true).
  { destruct v; simpl in *; try discriminate; try reflexivity.
    - unfold Qeq_bool. apply Z.eqb_refl.
    - unfold Qeq_bool. apply Z.eqb_refl.
    - unfold Qeq_bool. apply Z.eqb_refl.
    - apply String.eqb_refl. }
  assert (T : existsb (py_eqb v) l = true).
  { apply existsb_exists. now exists v. }
  congruence.
Qed.

Lemma firstn_length_le' {A : Type} (n : nat) (l : list A) :
  List.length (firstn n l) <= n.
Proof. rewrite length_firstn. lia. Qed.

Lemma firstn_In {A : Type} (n : nat) (l : list A) (x : A) :
  In x (firstn n l) -> In x l.
Proof.
  revert l. induction n as [|n IH]; intros [|a l]; simpl; try tauto.
  intros [->|H]; auto.
Qed.

Lemma pairwise_distinct_perm (xs ys : list pyval) :
  Permutation xs ys -> pairwise_distinct xs -> pairwise_distinct ys.
Proof.
  assert (E : forall v a b, Permutation a b ->
                existsb (py_eqb v) a = existsb (py_eqb v) b).
  { intros v a b P. induction P; simpl.
    - reflexivity.
    - now rewrite IHP.
    - destruct (py_eqb v y), (py_eqb v x); reflexivity.
    - congruence. }
  intros P. induction P; simpl.
  - auto.
  - intros [Hx Hl]. split; [|auto]. now rewrite <- (E x l l' P).
  - intros [Hy [Hx Hl]]. apply orb_false_iff in Hy as [Hyx Hyl].
    repeat split; auto. apply orb_false_iff. split; [|exact Hx].
    now rewrite py_eqb_sym.
  - auto.
Qed.

Lemma pairwise_distinct_firstn (n : nat) (values : list pyval) :
  pairwise_distinct values -> pairwise_distinct (firstn n values).
Proof.
  revert values. induction n as [|n IH]; intros [|v l]; simpl; auto.
  intros [Hv Hl]. split; [|now apply IH].
  destruct (existsb (py_eqb v) (firstn n l)) eqn:E; [|reflexivity].
  apply existsb_exists in E as [x [Hx Hvx]].
  assert (T : existsb (py_eqb v) l = true).
  { apply existsb_exists. exists x. split; [|exact Hvx]. eapply firstn_In; eauto. }
  congruence.
Qed.

Ltac step_snd := rewrite cbind_snd; cbn [emit print snd fst].

Ltac step_fst := rewrite cbind_fst; cbn [emit print snd fst app].

Lemma education_block_out (a : analysis) :
  snd (education_block a) = Ok tt /\
  bullets (fst (education_block a)) = firstn 5 (education_fields a).
Proof.
  unfold education_block. destruct (education_fields a) as [|v l] eqn:E.
  - split; reflexivity.
  - rewrite print_each_ok. cbn [cbind print app fst snd]. split; [reflexivity|].
    cbn [bullets flat_map app]. apply bullets_map.
Qed.

Lemma training_block_out (a : analysis) :
  snd (training_block a) = Ok tt /\
  bullets (fst (training_block a)) = firstn 3 (training_areas a).
Proof.
  unfold training_block. destruct (training_areas a) as [|v l] eqn:E.
  - split; reflexivity.
  - rewrite print_each_ok. cbn [cbind print app fst snd]. split; [reflexivity|].
    cbn [bullets flat_map app]. apply bullets_map.
Qed.

Lemma work_block_out (set_order : list pyval -> list pyval) (a : analysis) :
  (forall l, Permutation (set_order l) l) ->
  forallb hashable (work_experience_areas a) = true ->
  snd (work_block set_order a) = Ok tt /\
  List.length (bullets (fst (work_block set_order a))) <= 5 /\
  NoDup (bullets (fst (work_block set_order a))) /\
  pairwise_distinct (bullets (fst (work_block set_order a))) /\
  forall x, In x (bullets (fst (work_block set_order a))) ->
            In x (work_experience_areas a).
Proof.
  intros Hperm Hh. unfold work_block.
  destruct (work_experience_areas a) as [|v l] eqn:E.
  - simpl. split; [reflexivity|]. split; [lia|]. split; [constructor|].
    split; [exact I | tauto].
  - destruct (py_set_from_total (v :: l) [] Hh) as [unique Hu].
    unfold py_set. rewrite Hu. cbn [cbind print emit app fst snd].
    rewrite print_each_ok. cbn [cbind print emit app fst snd].
    cbn [bullets flat_map app].
    change (flat_map _ (map Bullet ?x)) with (bullets (map Bullet x)).
    rewrite bullets_map.
    destruct (py_set_from_ok _ _ _ Hu) as (_ & Hd & Hin & _).
    assert (Dp : pairwise_distinct (set_order unique)).
    { apply (pairwise_distinct_perm unique); [|now apply Hd].
      apply Permutation_sym, Hperm. }
    assert (In_u : forall x, In x (firstn 5 (set_order unique)) -> In x (v :: l)).
    { intros x Hx. apply firstn_In in Hx.
      apply (Permutation_in _ (Hperm unique)) in Hx.
      destruct (Hin x Hx) as [[]|Hx']. exact Hx'. }
    repeat split.
    + apply firstn_length_le'.
    + apply pairwise_distinct_NoDup; [|now apply pairwise_distinct_firstn].
      apply forallb_forall. intros x Hx.
      rewrite forallb_forall in Hh. apply Hh. now apply In_u.
    + now apply pairwise_distinct_firstn.
    + exact In_u.
Qed.

Lemma work_block_unhashable (set_order : list pyval -> list pyval) (a : analysis) :
  forallb hashable (work_experience_areas a) = false ->
  exists e, snd (work_block set_order a) = Raise e /\ exc_cls e = TypeError.
Proof.
  intros Hh. unfold work_block.
  destruct (work_experience_areas a) as [|v l] eqn:E; [discriminate|].
  destruct (py_set_from_unhashable (v :: l) [] Hh) as [e [He Hc]].
  unfold py_set. rewrite He. cbn [cbind print emit app fst snd]. now exists e.
Qed.

(** X5: a work area that is a list or a mapping passes the analyzer, which
    only tests that it is truthy, but not the summary, which puts the
    areas in a set: on a record with such an area the analyzer returns a
    profile and the summary raises [TypeError]. *)
Theorem summary_raises_on_unhashable_area :
  forall set_order name record exps e,
    lookup "work_experience" record = Some (PList exps) ->
    In e exps ->
    (has_value "position_title" e = true /\
     hashable (field_value "position_title" e) = false) \/
    (has_value "department_office" e = true /\
     hashable (field_value "department_office" e) = false) ->
    (exists a, analyze_pds_background (PDict record) = Ok a) /\
    exists err,
      snd (print_pds_background_summary set_order name (PDict record)) = Raise err /\
      exc_cls err = TypeError /\ is_Exception err = true.
Proof.
  intros set_order name record exps e Hw He Hbad.
  split; [rewrite analyze_pds_background_buckets; now eexists|].
  unfold print_pds_background_summary.
  rewrite analyze_pds_background_buckets.
  set (a := mk_analysis _ _ _ _).
  assert (Hh : forallb hashable (work_experience_areas a) = false).
  { destruct (forallb hashable (work_experience_areas a)) eqn:F; [|reflexivity].
    rewrite forallb_forall in F. subst a. cbn [work_experience_areas] in F.
    unfold work_bucket in F. rewrite Hw in F.
    assert (Hin : forall key, has_value key e = true ->
                    In (field_value key e) (field_contrib key e)).
    { intros key Hk. rewrite field_contrib_cases, Hk. now left. }
    destruct Hbad as [[Hv Hu]|[Hv Hu]];
      rewrite <- Hu; symmetry; apply F; apply in_flat_map; exists e; (split; [exact He|]);
      unfold exp_contrib; apply in_app_iff; [left | right]; now apply Hin. }
  destruct (work_block_unhashable set_order a Hh) as [err [Herr Hcls]].
  destruct (education_block_out a) as [Hes _].
  exists err. do 3 step_snd. rewrite cbind_snd, Hes, cbind_snd, Herr.
  repeat split; [exact Hcls|].
  unfold is_Exception. now rewrite Hcls.
Qed.

Lemma summary_raises_on_unhashable_area_witness :
  exists err,
    snd (print_pds_background_summary
           (fun l => l) "Lenar"
           (PDict [("work_experience",
                    PList [PDict [("position_title", PList [PStr "Clerk"])]])]))
    = Raise err /\ exc_cls err = TypeError.
Proof.
  destruct (summary_raises_on_unhashable_area
              (fun l => l) "Lenar"
              [("work_experience",
                PList [PDict [("position_title", PList [PStr "Clerk"])]])]
              [PDict [("position_title", PList [PStr "Clerk"])]]
              (PDict [("position_title", PList [PStr "Clerk"])])
              eq_refl (or_introl eq_refl)
              (or_introl (conj eq_refl eq_refl)))
    as [_ [err [Herr [Hcls _]]]].
  exists err. split; assumption.
Defined.

(** X6: on a record whose work areas can all be put in a set, the summary
    ends without an error and shows the first five education fields and
    the first three trainings in the order of the profile, and at most
    five work areas, each one an area of the profile and no two of them
    equal. *)
Theorem summary_shows_bounded_distinct_areas :
  forall set_order name record,
    (forall l, Permutation (set_order l) l) ->
    forallb hashable (work_bucket record) = true ->
    snd (print_pds_background_summary set_order name (PDict record)) = Ok tt /\
    exists shown,
      bullets (fst (print_pds_background_summary set_order name (PDict record)))
      = firstn 5 (education_bucket record) ++ shown ++
        firstn 3 (training_bucket record) /\
      List.length shown <= 5 /\ NoDup shown /\ pairwise_distinct shown /\
      forall x, In x shown -> In x (work_bucket record).
Proof.
  intros set_order name record Hperm Hh.
  unfold print_pds_background_summary.
  rewrite analyze_pds_background_buckets.
  set (a := mk_analysis _ _ _ _).
  destruct (education_block_out a) as [Hes Heb].
  destruct (training_block_out a) as [Hts Htb].
  destruct (work_block_out set_order a Hperm Hh) as (Hws & Hlen & Hnd & Hpd & Hin).
  split.
  - do 3 step_snd. rewrite cbind_snd, Hes, cbind_snd, Hws. exact Hts.
  - exists (bullets (fst (work_block set_order a))).
    split; [|now repeat split].
    do 3 step_fst. rewrite cbind_fst, Hes, cbind_fst, Hws.
    change (bullets (SummaryOf name :: Rule :: ?rest)) with (bullets rest).
    rewrite !bullets_app, Heb, Htb. reflexivity.
Qed.

Lemma summary_shows_bounded_distinct_areas_witness :
  snd (print_pds_background_summary (fun l => l) "Lenar" sample_candidate) = Ok tt.
Proof.
  apply (summary_shows_bounded_distinct_areas (fun l => l) "Lenar").
  - intros l. apply Permutation_refl.
  - reflexivity.
Defined.

(* ===================================================================== *)
(** ** Further properties: the comparison run *)
(* ===================================================================== *)

Lemma quiet_facts (out : list line) :
  forallb is_quiet out = true -> calculations out = [] /\ verdict_of out = None.
Proof.
  induction out as [|l out IH]; simpl; [auto|].
  intros H. apply andb_prop in H as [Hl Ho]. destruct (IH Ho) as [Hc Hv].
  destruct l; simpl in *; try discriminate; auto.
Qed.


Lemma quiet_bullets (values : list pyval) :
  forallb is_quiet (map Bullet values) = true.
Proof. induction values; simpl; auto. Qed.

Lemma quiet_education_block (a : analysis) :
  forallb is_quiet (fst (education_block a)) = true.
Proof.
  unfold education_block. destruct (education_fields a); [reflexivity|].
  rewrite print_each_ok. cbn [cbind print fst app forallb is_quiet andb].
  apply quiet_bullets.
Qed.

Lemma quiet_training_block (a : analysis) :
  forallb is_quiet (fst (training_block a)) = true.
Proof.
  unfold training_block. destruct (training_areas a); [reflexivity|].
  rewrite print_each_ok. cbn [cbind print fst app forallb is_quiet andb].
  apply quiet_bullets.
Qed.

Lemma quiet_work_block (set_order : list pyval -> list pyval) (a : analysis) :
  forallb is_quiet (fst (work_block set_order a)) = true.
Proof.
  unfold work_block. destruct (work_experience_areas a) as [|v l]; [reflexivity|].
  destruct (py_set (v :: l)) as [unique|e]; cbn [cbind print emit fst app];
    [|reflexivity].
  rewrite print_each_ok. cbn [fst app forallb is_quiet andb].
  apply quiet_bullets.
Qed.

Lemma quiet_summary (set_order : list pyval -> list pyval) (name : string)
      (pds_data : pyval) :
  forallb is_quiet (fst (print_pds_background_summary set_order name pds_data)) = true.
Proof.
  unfold print_pds_background_summary.
  destruct (analyze_pds_background pds_data) as [a|e]; [|reflexivity].
  do 3 step_fst. rewrite cbind_fst.
  cbn [forallb is_quiet andb]. rewrite forallb_app, quiet_education_block.
  destruct (snd (education_block a)); [|reflexivity].
  rewrite cbind_fst, forallb_app, quiet_work_block.
  destruct (snd (work_block set_order a)); [|reflexivity].
  apply quiet_training_block.
Qed.

Ltac crunch :=
  cbn [ctry cbind emit print fst snd app negb forallb is_quiet andb].

Section RunFacts.

Variable set_order : list pyval -> list pyval.
Variable path_join : string -> string -> string.
Variable path_exists : string -> bool.
Variable extractor : string -> result pyval.
Variable query_posting : Z -> result (option job_row).
Variable engine : pyval -> pyval -> result pyval.

Let summary := print_pds_background_summary set_order.
Let loads := sample_loads set_order path_join path_exists extractor.
Let load := load_pds set_order path_join path_exists extractor.

(** One pass of the first loop: it prints no calculation and no verdict,
    and it goes on exactly when the sample loads. *)
Lemma load_pds_spec (name filename : string) (acc : list (string * pyval)) :
  forallb is_quiet (fst (load (name, filename) acc)) = true /\
  (forall acc',
      snd (load (name, filename) acc) = Ok (Some acc') ->
      loads name filename /\
      exists data, extractor (path_join sample_files_dir filename) = Ok data /\
                   acc' = acc ++ [(name, data)]) /\
  (loads name filename ->
   exists data, extractor (path_join sample_files_dir filename) = Ok data /\
                snd (load (name, filename) acc) = Ok (Some (acc ++ [(name, data)]))).
Proof.
  subst summary loads load.
  unfold sample_loads, load_pds, extract_pds_data.
  destruct (path_exists (path_join sample_files_dir filename)) eqn:Hex;
    cbn [negb].
  2:{ crunch. split; [reflexivity|]. split; [intros acc' [=]|].
      intros [[=] _]. }
  destruct (extractor (path_join sample_files_dir filename)) as [data|e] eqn:Hx.
  2:{ crunch. destruct (is_Exception e); crunch;
        (split; [reflexivity|]); (split; [intros acc' [=]|]);
        intros [_ [data [[=] _]]]. }
  crunch. destruct (truthy data) eqn:Ht; cbn [negb].
  2:{ crunch. split; [reflexivity|]. split; [intros acc' [=]|].
      intros [_ [d [[= <-] [T _]]]]. congruence. }
  crunch. pose proof (quiet_summary set_order name data) as Hq.
  destruct (print_pds_background_summary set_order name data) as [os rs] eqn:Hs.
  cbn [fst] in Hq.
  destruct rs as [[]|e]; crunch.
  - rewrite forallb_app, Hq. split; [reflexivity|]. split.
    + intros acc' [= <-]. split.
      * split; [reflexivity|]. exists data. rewrite Hs. now repeat split.
      * exists data. now split.
    + intros _. exists data. now split.
  - destruct (is_Exception e); crunch; rewrite ?forallb_app, ?app_nil_r, Hq;
      (split; [reflexivity|]); (split; [intros acc' [=]|]);
      intros [_ [d [[= <-] [_ S]]]]; rewrite Hs in S; discriminate.
Qed.

Lemma load_job_spec (job_name : string) (job_id : Z) (acc : list (string * pyval)) :
  forallb is_quiet (fst (load_job query_posting (job_name, job_id) acc)) = true /\
  (forall acc',
      snd (load_job query_posting (job_name, job_id) acc) = Ok (Some acc') ->
      (exists row, query_posting job_id = Ok (Some row)) /\
      exists job, get_job_posting_data query_posting job_id = Ok job /\
                  acc' = acc ++ [(job_name, job)]) /\
  ((exists row, query_posting job_id = Ok (Some row)) ->
   exists job, get_job_posting_data query_posting job_id = Ok job /\
               snd (load_job query_posting (job_name, job_id) acc)
               = Ok (Some (acc ++ [(job_name, job)]))).
Proof.
  unfold load_job, get_job_posting_data.
  destruct (query_posting job_id) as [[row|]|e]; cbn [bind]; crunch.
  - split; [reflexivity|]. split.
    + intros acc' [= <-]. split; [now exists row|]. eexists. now split.
    + intros _. eexists. now split.
  - split; [reflexivity|]. split; [intros acc' [=]|].
    intros [row [=]].
  - destruct (is_Exception e); crunch;
      (split; [reflexivity|]); (split; [intros acc' [=]|]); intros [row [=]].
Qed.

End RunFacts.

Lemma cfor_until_spec {A S : Type} (P : A -> Prop)
      (body : A -> S -> console (option S)) (xs : list A) (s : S) :
  (forall x s0,
      forallb is_quiet (fst (body x s0)) = true /\
      (forall s', snd (body x s0) = Ok (Some s') -> P x)) ->
  forallb is_quiet (fst (cfor_until xs body s)) = true /\
  (forall s', snd (cfor_until xs body s) = Ok (Some s') -> Forall P xs).
Proof.
  intros Hbody. revert s. induction xs as [|x xs IH]; intros s.
  - simpl. split; [reflexivity | constructor].
  - cbn [cfor_until]. destruct (Hbody x s) as [Hq Hp].
    rewrite cbind_fst, cbind_snd, forallb_app, Hq.
    destruct (snd (body x s)) as [[s1|]|e] eqn:R.
    + destruct (IH s1) as [Hq1 Hp1]. split; [exact Hq1|].
      intros s' Hs'. constructor; [now apply (Hp s1) | now apply (Hp1 s')].
    + split; [reflexivity | discriminate].
    + split; [reflexivity | discriminate].
Qed.



(** X7: the run computes a score, or prints a verdict, only after both
    samples were found, extracted to truthy data and summarised without an
    error, and all four postings were found: a single failure before the
    scoring ends the run with no score at all. *)
Theorem run_scores_only_after_every_load :
  forall set_order path_join path_exists extractor query_posting engine,
    let out := fst (run_comparison_test set_order path_join path_exists
                                        extractor query_posting engine) in
    calculations out <> [] \/ verdict_of out <> None ->
    every_sample_loads set_order path_join path_exists extractor /\
    every_job_found query_posting.
Proof.
  intros set_order path_join path_exists extractor query_posting engine out H.
  assert (Hquiet : forallb is_quiet out = true -> False).
  { intros Q. apply quiet_facts in Q as [Qc Qv]. destruct H; contradiction. }
  clear H. subst out. unfold run_comparison_test in Hquiet.
  revert Hquiet. do 3 step_fst. rewrite cbind_fst.
  cbn [forallb is_quiet andb]. rewrite forallb_app.
  destruct (cfor_until_spec
              (fun entry => sample_loads set_order path_join path_exists extractor
                                         (fst entry) (snd entry))
              (load_pds set_order path_join path_exists extractor)
              test_files []) as [Q1 P1].
  { intros [name filename] s0.
    destruct (load_pds_spec set_order path_join path_exists extractor
                            name filename s0) as (Hq & Hok & _).
    split; [exact Hq|]. intros s' Hs'. now destruct (Hok s' Hs'). }
  rewrite Q1. cbn [andb].
  destruct (snd (cfor_until test_files _ [])) as [[pds_data|]|e] eqn:R1;
    try (intros Hquiet; exfalso; now apply Hquiet).
  rewrite cbind_fst, forallb_app.
  destruct (cfor_until_spec
              (fun entry => exists row, query_posting (snd entry) = Ok (Some row))
              (load_job query_posting) test_jobs []) as [Q2 P2].
  { intros [job_name job_id] s0.
    destruct (load_job_spec query_posting job_name job_id s0) as (Hq & Hok & _).
    split; [exact Hq|]. intros s' Hs'. now destruct (Hok s' Hs'). }
  rewrite Q2. cbn [andb].
  destruct (snd (cfor_until test_jobs _ [])) as [[job_data|]|e] eqn:R2;
    try (intros Hquiet; exfalso; now apply Hquiet).
  intros _. split.
  - intros name filename Hin. specialize (P1 _ eq_refl).
    rewrite Forall_forall in P1. exact (P1 _ Hin).
  - intros job_name job_id Hin. specialize (P2 _ eq_refl).
    rewrite Forall_forall in P2. exact (P2 _ Hin).
Qed.



(** On the console of the run the entry point returns what it returns on
    a console that takes the lines of its handler. *)
Lemma calculate_score_printing_result
      (engine : pyval -> pyval -> result pyval) (pds_data job_data : pyval) :
  snd (calculate_score_printing engine pds_data job_data)
  = calculate_score engine takes_line takes_traceback pds_data job_data.
Proof.
  unfold calculate_score_printing, calculate_score, try_except, ctry, emit.
  destruct (calculate_score_body engine pds_data job_data) as [r|e]; [reflexivity|].
  now destruct (is_Exception e).
Qed.
















Lemma run_scores_only_after_every_load_witness :
  every_job_found (fun _ => Ok (Some sample_row)).
Proof.
  apply (run_scores_only_after_every_load
           (fun l => l) posix_join (fun _ => true) (fun _ => Ok sample_candidate)
           (fun _ => Ok (Some sample_row))
           (raising_engine (mk_exn (ExceptionSubclass "ValueError") "no engine"))).
  left. vm_compute. discriminate.
Defined.


(* ===================================================================== *)
(** ** Further properties: obfuscated responses *)
(* ===================================================================== *)

(** Induction on a value, with the hypothesis for the items of a list and
    for the values of a mapping. *)
Lemma pyval_induction (P : pyval -> Prop) :
  P PNone -> (forall b, P (PBool b)) -> (forall z, P (PInt z)) ->
  (forall q, P (PFloat q)) -> (forall s, P (PStr s)) ->
  (forall items, Forall P items -> P (PList items)) ->
  (forall items, Forall (fun item => P (snd item)) items -> P (PDict items)) ->
  forall v, P v.
Proof.
  intros Hnone Hbool Hint Hfloat Hstr Hlist Hdict.
  fix IH 1. intros [| b | z | q | s | items | items].
  - exact Hnone.
  - apply Hbool.
  - apply Hint.
  - apply Hfloat.
  - apply Hstr.
  - apply Hlist. induction items as [|x rest IHrest]; constructor.
    + apply IH.
    + exact IHrest.
  - apply Hdict. induction items as [|[k x] rest IHrest]; constructor.
    + apply IH.
    + exact IHrest.
Qed.

Lemma keys_unique_dict (items : list (string * pyval)) :
  keys_unique (PDict items) <->
  NoDup (map fst items) /\ Forall (fun item => keys_unique (snd item)) items.
Proof.
  cbn [keys_unique]. apply and_iff_compat_l.
  induction items as [|[k v] rest IH].
  - split; [constructor | auto].
  - split.
    + intros [Hv Hrest]. constructor; [exact Hv | now apply IH].
    + intros H. inversion H as [|? ? Hv Hrest]; subst. split; [exact Hv | now apply IH].
Qed.

Lemma keys_unique_list (items : list pyval) :
  keys_unique (PList items) <-> Forall keys_unique items.
Proof.
  cbn [keys_unique]. induction items as [|v rest IH].
  - split; [constructor | auto].
  - split.
    + intros [Hv Hrest]. constructor; [exact Hv | now apply IH].
    + intros H. inversion H as [|? ? Hv Hrest]; subst. split; [exact Hv | now apply IH].
Qed.

Lemma dict_set_keys (key : string) (v : pyval) (d : list (string * pyval)) :
  map fst (dict_set key v d)
  = if mem key (map fst d) then map fst d else map fst d ++ [key].
Proof.
  unfold mem. induction d as [|[k old] rest IH]; simpl; [reflexivity|].
  destruct (String.eqb key k); simpl; [reflexivity|]. rewrite IH.
  now destruct (existsb (String.eqb key) (map fst rest)).
Qed.

Lemma mem_In (key : string) (names : list string) :
  mem key names = true <-> In key names.
Proof.
  unfold mem. rewrite existsb_exists. split.
  - intros [x [Hx E]]. apply String.eqb_eq in E. now subst.
  - intros H. exists key. split; [exact H | apply String.eqb_refl].
Qed.

Lemma dict_set_NoDup (key : string) (v : pyval) (d : list (string * pyval)) :
  NoDup (map fst d) -> NoDup (map fst (dict_set key v d)).
Proof.
  intros H. rewrite dict_set_keys.
  destruct (mem key (map fst d)) eqn:M; [exact H|].
  apply NoDup_app; [exact H | repeat constructor; auto |].
  intros x Hx [<-|[]]. apply mem_In in Hx. congruence.
Qed.

Lemma dict_set_In (key : string) (v : pyval) (d : list (string * pyval))
      (k : string) (x : pyval) :
  In (k, x) (dict_set key v d) -> (k = key /\ x = v) \/ In (k, x) d.
Proof.
  induction d as [|[k0 old] rest IH]; simpl.
  - intros [[= <- <-]|[]]. now left.
  - destruct (String.eqb_spec key k0) as [<-|Hne]; simpl.
    + intros [[= <- <-]|H]; auto.
    + intros [H|H]; auto. destruct (IH H); auto.
Qed.

Lemma dict_set_fresh (key : string) (v : pyval) (d : list (string * pyval)) :
  ~ In key (map fst d) -> dict_set key v d = d ++ [(key, v)].
Proof.
  induction d as [|[k old] rest IH]; simpl; intros H; [reflexivity|].
  destruct (String.eqb_spec key k) as [->|Hne]; [tauto|].
  rewrite IH; [reflexivity | tauto].
Qed.

Section ResponseFacts.

Variable md5_hexdigest : string -> string.

Let obfuscate := obfuscate_response_data md5_hexdigest.

Lemma new_key_clean (key : string) :
  mem key sensitive_fields = false ->
  mem (new_key md5_hexdigest key) sensitive_fields = false /\
  mem (new_key md5_hexdigest key) database_fields = false.
Proof.
  intros H. unfold new_key.
  destruct (mem key database_fields) eqn:D; [|auto].
  split; reflexivity.
Qed.

Lemma new_key_of_clean (key : string) :
  mem key database_fields = false -> new_key md5_hexdigest key = key.
Proof. unfold new_key. now intros ->. Qed.

(** What the loop over the items of a mapping builds. *)
Lemma obfuscate_items_spec (recur : pyval -> pyval)
      (items acc : list (string * pyval)) :
  (NoDup (map fst acc) ->
   NoDup (map fst (fold_left (obfuscate_item md5_hexdigest recur) items acc))) /\
  (forall k x,
      In (k, x) (fold_left (obfuscate_item md5_hexdigest recur) items acc) ->
      In (k, x) acc \/
      exists k0 v0, In (k0, v0) items /\ mem k0 sensitive_fields = false /\
                    k = new_key md5_hexdigest k0 /\ x = recur v0).
Proof.
  revert acc. induction items as [|[k0 v0] rest IH]; intros acc; cbn [fold_left].
  - split; auto.
  - assert (E : obfuscate_item md5_hexdigest recur acc (k0, v0)
                = if mem k0 sensitive_fields then acc
                  else dict_set (new_key md5_hexdigest k0) (recur v0) acc)
      by reflexivity.
    rewrite E. clear E. destruct (mem k0 sensitive_fields) eqn:S.
    + destruct (IH acc) as [Hnd Hin]. split; [exact Hnd|].
      intros k x H. destruct (Hin k x H) as [Ha|(k1 & v1 & H1 & H2)]; auto.
      right. exists k1, v1. split; [now right | exact H2].
    + destruct (IH (dict_set (new_key md5_hexdigest k0) (recur v0) acc))
        as [Hnd Hin].
      split.
      * intros H. apply Hnd. now apply dict_set_NoDup.
      * intros k x H. destruct (Hin k x H) as [Ha|(k1 & v1 & H1 & H2)].
        -- apply dict_set_In in Ha as [[-> ->]|Ha]; auto.
           right. exists k0, v0. split; [now left | auto].
        -- right. exists k1, v1. split; [now right | exact H2].
Qed.

Lemma named_fields_removed :
  forall data key,
    In key (keys_deep (obfuscate_response_data md5_hexdigest data)) ->
    mem key sensitive_fields = false /\ mem key database_fields = false.
Proof.
  intros data. induction data as [| | | | | items IH | items IH] using pyval_induction;
    try (intros key []).
  - intros key. cbn [obfuscate_response_data keys_deep].
    rewrite in_flat_map. intros [x [Hx Hk]].
    apply in_map_iff in Hx as [v [<- Hv]].
    rewrite Forall_forall in IH. now apply (IH v Hv).
  - intros key. cbn [obfuscate_response_data keys_deep].
    rewrite in_flat_map. intros [[k x] [Hx Hk]].
    destruct (obfuscate_items_spec (obfuscate_response_data md5_hexdigest) items [])
      as [_ Hin].
    destruct (Hin k x Hx) as [[]|(k0 & v0 & H0 & Hs & -> & ->)].
    destruct Hk as [<-|Hk]; [now apply new_key_clean|].
    rewrite Forall_forall in IH. exact (IH (k0, v0) H0 key Hk).
Qed.

Lemma obfuscated_keys_unique (data : pyval) :
  keys_unique (obfuscate_response_data md5_hexdigest data).
Proof.
  induction data as [| | | | | items IH | items IH] using pyval_induction;
    try exact I.
  - cbn [obfuscate_response_data]. apply keys_unique_list.
    apply Forall_forall. intros x Hx. apply in_map_iff in Hx as [v [<- Hv]].
    rewrite Forall_forall in IH. now apply IH.
  - cbn [obfuscate_response_data]. apply keys_unique_dict.
    destruct (obfuscate_items_spec (obfuscate_response_data md5_hexdigest) items [])
      as [Hnd Hin].
    split; [apply Hnd; constructor|].
    apply Forall_forall. intros [k x] Hx.
    destruct (Hin k x Hx) as [[]|(k0 & v0 & H0 & Hs & -> & ->)].
    rewrite Forall_forall in IH. exact (IH (k0, v0) H0).
Qed.

Lemma fold_clean_items (recur : pyval -> pyval) (items acc : list (string * pyval)) :
  NoDup (map fst (acc ++ items)) ->
  (forall k v, In (k, v) items ->
     mem k sensitive_fields = false /\ mem k database_fields = false /\ recur v = v) ->
  fold_left (obfuscate_item md5_hexdigest recur) items acc = acc ++ items.
Proof.
  revert acc. induction items as [|[k v] rest IH]; intros acc Hnd Hclean;
    cbn [fold_left].
  - now rewrite app_nil_r.
  - destruct (Hclean k v (or_introl eq_refl)) as (Hs & Hd & Hv).
    assert (E : obfuscate_item md5_hexdigest recur acc (k, v)
                = if mem k sensitive_fields then acc
                  else dict_set (new_key md5_hexdigest k) (recur v) acc)
      by reflexivity.
    rewrite E. clear E. rewrite Hs, (new_key_of_clean k Hd), Hv.
    assert (Hfresh : ~ In k (map fst acc)).
    { rewrite map_app in Hnd. cbn [map fst] in Hnd.
      apply NoDup_remove_2 in Hnd. rewrite in_app_iff in Hnd. tauto. }
    rewrite (dict_set_fresh k v acc Hfresh).
    rewrite IH.
    + now rewrite <- app_assoc.
    + now rewrite <- app_assoc.
    + intros k' v' H. apply Hclean. now right.
Qed.

Lemma clean_data_fixed :
  forall data,
    keys_unique data ->
    (forall key, In key (keys_deep data) ->
       mem key sensitive_fields = false /\ mem key database_fields = false) ->
    obfuscate_response_data md5_hexdigest data = data.
Proof.
  intros data. induction data as [| | | | | items IH | items IH] using pyval_induction;
    try reflexivity.
  - intros Hu Hk. cbn [obfuscate_response_data]. f_equal.
    apply keys_unique_list in Hu.
    rewrite <- (map_id items) at 2. apply map_ext_in. intros v Hv.
    rewrite Forall_forall in IH, Hu. apply IH; [exact Hv | now apply Hu |].
    intros key H. apply Hk. cbn [keys_deep]. apply in_flat_map. now exists v.
  - intros Hu Hk. cbn [obfuscate_response_data]. f_equal.
    apply keys_unique_dict in Hu as [Hnd Hvals].
    apply (fold_clean_items _ items []); [exact Hnd|].
    intros k v Hin.
    assert (Hkey : In k (keys_deep (PDict items))).
    { cbn [keys_deep]. apply in_flat_map. exists (k, v). split; [exact Hin | now left]. }
    destruct (Hk k Hkey) as [Hs Hd]. repeat split; auto.
    rewrite Forall_forall in IH, Hvals.
    apply (IH (k, v) Hin); [exact (Hvals (k, v) Hin)|].
    intros key H. apply Hk. cbn [keys_deep]. apply in_flat_map.
    exists (k, v). split; [exact Hin | now right].
Qed.

(** X9: whatever the digest, no mapping in the obfuscated data, at any
    depth, has a key named password, secret, key or token, nor a key named
    id, user_id, created_at or updated_at. *)
Theorem obfuscated_data_has_no_named_field :
  forall data key,
    In key (keys_deep (obfuscate_response_data md5_hexdigest data)) ->
    mem key sensitive_fields = false /\ mem key database_fields = false.
Proof. exact named_fields_removed. Qed.

(** X10: data whose mappings have no key twice and no key of the two
    name lists, at any depth, is returned as it is. *)
Theorem clean_data_is_unchanged :
  forall data,
    keys_unique data ->
    (forall key, In key (keys_deep data) ->
       mem key sensitive_fields = false /\ mem key database_fields = false) ->
    obfuscate_response_data md5_hexdigest data = data.
Proof. exact clean_data_fixed. Qed.

(** X11: obfuscating a second time changes nothing. *)
Theorem obfuscation_is_idempotent :
  forall data,
    obfuscate_response_data md5_hexdigest
      (obfuscate_response_data md5_hexdigest data)
    = obfuscate_response_data md5_hexdigest data.
Proof.
  intros data. apply clean_data_fixed.
  - apply obfuscated_keys_unique.
  - apply named_fields_removed.
Qed.

End ResponseFacts.

Lemma obfuscated_data_has_no_named_field_witness :
  mem "_1f2e3d" sensitive_fields = false /\ mem "_1f2e3d" database_fields = false.
Proof.
  apply (obfuscated_data_has_no_named_field
           (fun _ => "1f2e3d4c5b6a79881f2e3d4c5b6a7988")
           (PDict [("id", PInt 7); ("password", PStr "hunter2");
                   ("profile", PList [PDict [("token", PStr "t"); ("name", PStr "Ana")]])])
           "_1f2e3d").
  simpl. now left.
Defined.

Lemma clean_data_is_unchanged_witness :
  obfuscate_response_data (fun _ => "1f2e3d4c5b6a79881f2e3d4c5b6a7988")
                          (PDict [("name", PStr "Ana"); ("scores", PList [PInt 1])])
  = PDict [("name", PStr "Ana"); ("scores", PList [PInt 1])].
Proof.
  apply (clean_data_is_unchanged (fun _ => "1f2e3d4c5b6a79881f2e3d4c5b6a7988")).
  - simpl. repeat split; repeat constructor; simpl; intuition discriminate.
  - simpl. intros key [<-|[<-|[]]]; split; reflexivity.
Defined.

(* ===================================================================== *)
(** ** Further properties: API keys *)
(* ===================================================================== *)

Lemma store_get_set_same (key : string) (info : key_info) (store : key_store) :
  store_get key (store_set key info store) = Some info.
Proof.
  induction store as [|[k old] rest IH]; simpl.
  - now rewrite String.eqb_refl.
  - destruct (String.eqb key k) eqn:E; simpl; rewrite E; [reflexivity | exact IH].
Qed.

Lemma store_get_set_other (key other : string) (info : key_info) (store : key_store) :
  other <> key -> store_get other (store_set key info store) = store_get other store.
Proof.
  intros Hne. induction store as [|[k old] rest IH]; simpl.
  - destruct (String.eqb_spec other key); [contradiction | reflexivity].
  - destruct (String.eqb_spec key k) as [<-|Hk]; simpl.
    + destruct (String.eqb_spec other key); [contradiction | reflexivity].
    + now rewrite IH.
Qed.

Lemma store_get_del_same (key : string) (store : key_store) :
  store_get key (store_del key store) = None.
Proof.
  unfold store_del. induction store as [|[k old] rest IH]; simpl; [reflexivity|].
  destruct (String.eqb key k) eqn:E; simpl; [exact IH|]. now rewrite E.
Qed.

Lemma store_get_del_other (key other : string) (store : key_store) :
  other <> key -> store_get other (store_del key store) = store_get other store.
Proof.
  intros Hne. unfold store_del.
  induction store as [|[k old] rest IH]; simpl; [reflexivity|].
  destruct (String.eqb_spec key k) as [<-|Hk]; simpl.
  - destruct (String.eqb_spec other key); [contradiction | exact IH].
  - now rewrite IH.
Qed.

(** X12: a key that [generate_dynamic_api_key] has just stored is
    accepted at every instant up to one hour after the last reading of the
    clock, that instant included, and the check leaves the store as it is;
    at any later instant it is refused and removed.  Generating a key
    leaves the entries of the other keys as they are. *)
Theorem generated_key_valid_for_one_hour :
  forall encode_key salt stamp created expires_from user_id store now,
    let generated := generate_dynamic_api_key encode_key salt stamp created
                                              expires_from user_id store in
    ((now <= expires_from + one_hour)%Z ->
     validate_api_key now (fst generated) (snd generated) = (true, snd generated)) /\
    ((expires_from + one_hour < now)%Z ->
     fst (validate_api_key now (fst generated) (snd generated)) = false /\
     store_get (fst generated)
               (snd (validate_api_key now (fst generated) (snd generated))) = None) /\
    (forall other, other <> fst generated ->
                   store_get other (snd generated) = store_get other store).
Proof.
  intros encode_key salt stamp created expires_from user_id store now generated.
  subst generated. unfold generate_dynamic_api_key, validate_api_key.
  cbn [fst snd]. rewrite store_get_set_same. cbn [ki_expires].
  split; [|split].
  - intros H.
    destruct (Z.ltb_spec (expires_from + one_hour) now); [lia | reflexivity].
  - intros H. destruct (Z.ltb_spec (expires_from + one_hour) now); [|lia].
    cbn [fst snd]. split; [reflexivity | apply store_get_del_same].
  - intros other Hne. now apply store_get_set_other.
Qed.

Lemma generated_key_valid_for_one_hour_witness :
  validate_api_key 3600000005
                   "anonymous:5:salt"
                   [("anonymous:5:salt", mk_key_info PNone 5 (5 + one_hour))]
  = (true, [("anonymous:5:salt", mk_key_info PNone 5 (5 + one_hour))]).
Proof.
  apply (proj1 (generated_key_valid_for_one_hour
                  (fun _ _ _ => "anonymous:5:salt") "salt" 5 5 5 PNone []
                  3600000005)).
  unfold one_hour. lia.
Defined.

(** X13: [validate_api_key] accepts a key only if it is stored and not
    yet expired, and then changes nothing; when it refuses a key, the key
    is not in the store afterwards and is refused at every later call,
    whatever the clock reads; the entries of the other keys are never
    touched. *)
Theorem validation_only_removes_the_refused_key :
  forall now api_key store,
    let checked := validate_api_key now api_key store in
    (fst checked = true ->
     snd checked = store /\
     exists info, store_get api_key store = Some info /\ (now <= ki_expires info)%Z) /\
    (fst checked = false ->
     store_get api_key (snd checked) = None /\
     forall later, validate_api_key later api_key (snd checked)
                   = (false, snd checked)) /\
    (forall other, other <> api_key ->
                   store_get other (snd checked) = store_get other store).
Proof.
  intros now api_key store checked. subst checked. unfold validate_api_key.
  destruct (store_get api_key store) as [info|] eqn:G.
  - destruct (Z.ltb_spec (ki_expires info) now); cbn [fst snd].
    + split; [discriminate|]. split.
      * intros _. split; [apply store_get_del_same|].
        intros later. now rewrite store_get_del_same.
      * intros other Hne. now apply store_get_del_other.
    + split; [|split; [discriminate | reflexivity]].
      intros _. split; [reflexivity|]. now exists info.
  - cbn [fst snd]. split; [discriminate|]. split; [|reflexivity].
    intros _. split; [exact G|]. intros later. now rewrite G.
Qed.

Lemma validation_only_removes_the_refused_key_witness :
  store_get "old" (snd (validate_api_key 10 "old" [("old", mk_key_info PNone 1 2)]))
  = None.
Proof.
  apply (proj1 (proj2 (validation_only_removes_the_refused_key
                         10 "old" [("old", mk_key_info PNone 1 2)]))).
  reflexivity.
Defined.

Lemma validation_accepts_unchanged (now : Z) (api_key : string) (store : key_store) :
  fst (validate_api_key now api_key store) = true ->
  snd (validate_api_key now api_key store) = store.
Proof.
  unfold validate_api_key. destruct (store_get api_key store) as [info|].
  - now destruct (ki_expires info <? now)%Z.
  - discriminate.
Qed.

(** X14: the decorated endpoint runs, and its outcome is returned, exactly
    when the request carries a non-empty key that the manager accepts; in
    every other case the outcome is the [NameError] of the undefined
    [jsonify], never the outcome of the endpoint. *)
Theorem endpoint_runs_only_with_accepted_key :
  forall (R : Type) (f : result R) header argument manager now,
    let outcome := require_api_key f header argument manager now in
    (exists key store,
        first_truthy header argument = Some key /\ key <> EmptyString /\
        manager = Some store /\
        validate_api_key now key store = (true, store) /\
        outcome = (f, Some store)) \/
    (fst outcome = Raise jsonify_undefined /\
     forall key store,
       first_truthy header argument = Some key -> manager = Some store ->
       key = EmptyString \/ fst (validate_api_key now key store) = false).
Proof.
  intros R f header argument manager now outcome. subst outcome.
  unfold require_api_key.
  destruct (first_truthy header argument) as [key|] eqn:K.
  2:{ right. split; [reflexivity | discriminate]. }
  unfold is_set. destruct (String.eqb_spec key "") as [->|Hne]; cbn [negb].
  { right. split; [reflexivity|]. intros k s [= <-] _. now left. }
  destruct manager as [store|].
  2:{ right. split; [reflexivity | discriminate]. }
  destruct (validate_api_key now key store) as [valid store'] eqn:V.
  destruct valid.
  - left. exists key, store.
    pose proof (validation_accepts_unchanged now key store) as U.
    rewrite V in U. cbn [fst snd] in U. rewrite (U eq_refl) in *.
    repeat split; auto.
  - right. split; [reflexivity|].
    intros k s [= <-] [= <-]. right. now rewrite V.
Qed.

Lemma endpoint_runs_only_with_accepted_key_witness :
  fst (require_api_key (Ok (PStr "candidates")) None (Some "") None 0)
  = Raise jsonify_undefined.
Proof.
  destruct (endpoint_runs_only_with_accepted_key
              pyval (Ok (PStr "candidates")) None (Some "") None 0)
    as [(key & store & _ & _ & [=] & _) | [H _]].
  exact H.
Defined.

(* ===================================================================== *)
(** ** Further properties: the security toggle *)
(* ===================================================================== *)

Lemma pystr_mem_In (s : string) (names : list string) :
  PyStr.mem s names = true <-> In s names.
Proof.
  unfold PyStr.mem. rewrite existsb_exists. split.
  - intros (x & Hin & E). apply String.eqb_eq in E. now subst.
  - intros H. exists s. split; [exact H | apply String.eqb_refl].
Qed.

Lemma pystr_mem_not_In (s : string) (names : list string) :
  PyStr.mem s names = false <-> ~ In s names.
Proof.
  rewrite <- pystr_mem_In. destruct (PyStr.mem s names); split; intros H;
    try reflexivity; try discriminate; try (intros E; discriminate).
  now elim H.
Qed.








(* ===================================================================== *)
(** ** Further properties: the decoys of the template processor *)
(* ===================================================================== *)

Lemma find_absent (x : ascii) (n s : string) :
  str_contains (String x n) s = false -> PyStr.find (String x n) s = (-1)%Z.
Proof.
  induction s as [|c s IH]; intros H.
  - reflexivity.
  - rewrite str_contains_cons in H. apply orb_false_iff in H as [P C].
    cbn [PyStr.find]. rewrite P, (IH C). reflexivity.
Qed.

Lemma find_bounds (n s : string) : (-1 <= PyStr.find n s)%Z.
Proof.
  induction s as [|c s IH]; cbn [PyStr.find].
  - destruct (String.prefix n ""); lia.
  - destruct (String.prefix n (String c s)); [lia|].
    destruct (Z.eqb_spec (PyStr.find n s) (-1)); lia.
Qed.

(** Where the needle begins with a character it does not hold again, its
    first occurrence after a text without it is at the end of that text. *)
Lemma find_after_clean (x : ascii) (n pre post : string) :
  PyStr.has_char x n = false ->
  str_contains (String x n) pre = false ->
  PyStr.find (String x n) (pre ++ String x n ++ post) = Z.of_nat (String.length pre).
Proof.
  intros F. induction pre as [|c pre IH]; intros H.
  - cbn [append String.length PyStr.find].
    change (String x (n ++ post)) with (String x n ++ post)%string.
    now rewrite prefix_self_app.
  - rewrite str_contains_cons in H. apply orb_false_iff in H as [P C].
    change (String c pre ++ String x n ++ post)%string
      with (String c (pre ++ String x (n ++ post))).
    cbn [PyStr.find].
    destruct (String.prefix (String x n) (String c (pre ++ String x (n ++ post)))) eqn:Q.
    + exfalso. simpl in Q, P.
      destruct (Ascii.ascii_dec x c); [|discriminate].
      apply (prefix_before_foreign n pre (n ++ post) x F) in Q. congruence.
    + change (String x (n ++ post)) with (String x n ++ post)%string.
      rewrite (IH C). cbn [String.length].
      destruct (Z.eqb_spec (Z.of_nat (String.length pre)) (-1)); lia.
Qed.

Lemma take_app_length (a b : string) : PyStr.take (String.length a) (a ++ b) = a.
Proof.
  induction a as [|c a IH]; simpl.
  - now destruct b.
  - now rewrite IH.
Qed.

Lemma drop_app_length (a b : string) : PyStr.drop (String.length a) (a ++ b) = b.
Proof. induction a as [|c a IH]; simpl; [now destruct b | exact IH]. Qed.

Lemma take_drop (k : nat) (s : string) : (PyStr.take k s ++ PyStr.drop k s)%string = s.
Proof.
  revert s. induction k as [|k IH]; intros [|c s]; simpl; try reflexivity.
  now rewrite IH.
Qed.

Lemma prefix_split (n s : string) :
  String.prefix n s = true -> s = (n ++ PyStr.drop (String.length n) s)%string.
Proof.
  revert s. induction n as [|x n IH]; intros s H.
  - now destruct s.
  - destruct s as [|y s]; [discriminate|]. simpl in *.
    destruct (Ascii.ascii_dec x y) as [->|]; [|discriminate].
    now rewrite <- (IH s H).
Qed.

(** The first occurrence splits the text. *)
Lemma find_present (x : ascii) (n s : string) :
  str_contains (String x n) s = true ->
  exists pre post, s = (pre ++ String x n ++ post)%string /\
                   str_contains (String x n) pre = false.
Proof.
  induction s as [|c s IH]; intros H.
  - discriminate.
  - rewrite str_contains_cons in H.
    destruct (String.prefix (String x n) (String c s)) eqn:P.
    + exists EmptyString, (PyStr.drop (String.length (String x n)) (String c s)).
      split; [|reflexivity]. now apply prefix_split.
    + simpl in H. destruct (IH H) as (pre & post & -> & C).
      exists (String c pre), post. split; [reflexivity|].
      rewrite str_contains_cons, C, orb_false_r.
      destruct (String.prefix (String x n) (String c pre)) eqn:Q; [|reflexivity].
      apply (prefix_app_keep _ _ (String x n ++ post)) in Q.
      change (String c pre ++ String x n ++ post)%string
        with (String c (pre ++ String x n ++ post)) in Q.
      congruence.
Qed.

Lemma app_assoc_str (a b c : string) : ((a ++ b) ++ c = a ++ (b ++ c))%string.
Proof. induction a as [|x a IH]; simpl; [reflexivity | now rewrite IH]. Qed.

Lemma length_app_str (a b : string) :
  String.length (a ++ b) = String.length a + String.length b.
Proof. induction a as [|x a IH]; simpl; [reflexivity | now rewrite IH]. Qed.

Lemma decoys_before (pre post : string) :
  str_contains "</head>" pre = false ->
  Template._add_decoy_elements (pre ++ "</head>" ++ post)
  = (pre ++ Template.decoy_block ++ "</head>" ++ post)%string.
Proof.
  intros C. unfold Template._add_decoy_elements.
  rewrite (find_after_clean "<" "/head>" pre post eq_refl C).
  rewrite Nat2Z.id.
  destruct (Z.eqb_spec (Z.of_nat (String.length pre)) (-1)); [lia|].
  cbn [negb]. now rewrite take_app_length, drop_app_length.
Qed.

(** X16: where the page has no [</head>], [_add_decoy_elements] returns it
    as it is; otherwise the page splits at the first [</head>], and the
    result is the page with the block of decoys put in front of that first
    [</head>], nothing else changed. *)
Theorem decoys_go_before_the_first_head_end (html_content : string) :
  (str_contains "</head>" html_content = false ->
   Template._add_decoy_elements html_content = html_content) /\
  (str_contains "</head>" html_content = true ->
   exists pre post,
     html_content = (pre ++ "</head>" ++ post)%string /\
     str_contains "</head>" pre = false /\
     Template._add_decoy_elements html_content
     = (pre ++ Template.decoy_block ++ "</head>" ++ post)%string).
Proof.
  split; intros H.
  - unfold Template._add_decoy_elements.
    now rewrite (find_absent "<" "/head>" _ H).
  - destruct (find_present "<" "/head>" _ H) as (pre & post & -> & C).
    exists pre, post. repeat split; [exact C | now apply decoys_before].
Qed.

Lemma decoys_go_before_the_first_head_end_witness :
  Template._add_decoy_elements "<html><body></body></html>"
  = "<html><body></body></html>".
Proof.
  apply (proj1 (decoys_go_before_the_first_head_end "<html><body></body></html>")).
  reflexivity.
Defined.

(** X17: [_add_decoy_elements] is not idempotent: on a page with a
    [</head>], a second call puts a second block of decoys in front of the
    same [</head>], behind the first block. *)
Theorem decoys_pile_up (pre post : string) :
  str_contains "</head>" pre = false ->
  Template._add_decoy_elements
    (Template._add_decoy_elements (pre ++ "</head>" ++ post))
  = (pre ++ Template.decoy_block ++ Template.decoy_block ++ "</head>" ++ post)%string
  /\ Template._add_decoy_elements (Template._add_decoy_elements (pre ++ "</head>" ++ post))
     <> Template._add_decoy_elements (pre ++ "</head>" ++ post).
Proof.
  intros C.
  assert (E : Template._add_decoy_elements
                (Template._add_decoy_elements (pre ++ "</head>" ++ post))
              = (pre ++ Template.decoy_block ++ Template.decoy_block
                     ++ "</head>" ++ post)%string).
  { rewrite (decoys_before pre post C).
    rewrite <- (app_assoc_str pre Template.decoy_block).
    rewrite decoys_before.
    - now rewrite app_assoc_str.
    - assert (B : Template.decoy_block
                  = String PyStr.newline
                           (PyStr.drop 1 Template.decoy_block)) by reflexivity.
      rewrite B.
      rewrite (str_contains_app_foreign "<" "/head>" pre _ PyStr.newline eq_refl).
      rewrite C. rewrite <- B. reflexivity. }
  split; [exact E|].
  rewrite E, (decoys_before pre post C). intros Q.
  apply (f_equal String.length) in Q.
  rewrite !length_app_str in Q.
  assert (L : String.length Template.decoy_block > 0) by (vm_compute; lia).
  lia.
Qed.

Lemma decoys_pile_up_witness :
  Template._add_decoy_elements
    (Template._add_decoy_elements "<html><head></head></html>")
  = ("<html><head>" ++ Template.decoy_block ++ Template.decoy_block
       ++ "</head></html>")%string.
Proof.
  apply (proj1 (decoys_pile_up "<html><head>" "</html>" eq_refl)).
Defined.

(* ===================================================================== *)
(** ** Further properties: the script minifier *)
(* ===================================================================== *)

Section StripFacts.
Import PyStr.

Lemma rstrip_cons_kept (c : ascii) (s : string) :
  rstrip s <> EmptyString -> rstrip (String c s) = String c (rstrip s).
Proof. intros H. cbn [rstrip]. now destruct (rstrip s). Qed.

Lemma rstrip_cons_solid (c : ascii) (s : string) :
  isspace c = false -> rstrip (String c s) = String c (rstrip s).
Proof. intros H. cbn [rstrip]. destruct (rstrip s); [now rewrite H | reflexivity]. Qed.

Lemma rstrip_idem (s : string) : rstrip (rstrip s) = rstrip s.
Proof.
  induction s as [|c s IH]; [reflexivity|].
  cbn [rstrip]. destruct (rstrip s) as [|k kept] eqn:E.
  - destruct (isspace c) eqn:S; [reflexivity|]. cbn [rstrip]. now rewrite S.
  - rewrite rstrip_cons_kept; rewrite IH; [reflexivity | discriminate].
Qed.

Lemma rstrip_fixed_tail (c : ascii) (s : string) :
  rstrip (String c s) = String c s -> rstrip s = s.
Proof.
  cbn [rstrip]. destruct (rstrip s) as [|k kept] eqn:E.
  - destruct (isspace c); [discriminate|]. now intros [= <-].
  - now intros [= <-].
Qed.

Lemma rstrip_lstrip (s : string) : rstrip s = s -> rstrip (lstrip s) = lstrip s.
Proof.
  induction s as [|c s IH]; intros H; [reflexivity|].
  cbn [lstrip]. destruct (isspace c); [|exact H].
  apply IH. now apply rstrip_fixed_tail in H.
Qed.

Lemma lstrip_idem (s : string) : lstrip (lstrip s) = lstrip s.
Proof.
  induction s as [|c s IH]; [reflexivity|].
  cbn [lstrip]. destruct (isspace c) eqn:S; [exact IH|].
  cbn [lstrip]. now rewrite S.
Qed.

Lemma strip_rstrip_fixed (s : string) : rstrip (strip s) = strip s.
Proof. unfold strip. apply rstrip_lstrip, rstrip_idem. Qed.

Lemma strip_idem (s : string) : strip (strip s) = strip s.
Proof.
  unfold strip at 1. rewrite strip_rstrip_fixed. unfold strip. apply lstrip_idem.
Qed.

Lemma strip_lstrip_fixed (s : string) : lstrip (strip s) = strip s.
Proof. unfold strip. apply lstrip_idem. Qed.

Lemma rstrip_app (a b : string) :
  rstrip b <> EmptyString -> rstrip (a ++ b) = (a ++ rstrip b)%string.
Proof.
  intros H. induction a as [|c a IH]; [reflexivity|].
  change (String c a ++ b)%string with (String c (a ++ b)).
  rewrite rstrip_cons_kept; rewrite IH; [reflexivity|].
  destruct a; [exact H | discriminate].
Qed.

Lemma lstrip_app_solid (s t : string) :
  s <> EmptyString -> lstrip s = s -> lstrip (s ++ t) = (s ++ t)%string.
Proof.
  destruct s as [|c s]; [congruence|]. intros _ H.
  cbn [lstrip append] in *. destruct (isspace c) eqn:S; [|reflexivity].
  exfalso. assert (L : forall u, String.length (lstrip u) <= String.length u).
  { induction u as [|d u IHu]; simpl; [lia|]. destruct (isspace d); simpl; lia. }
  pose proof (L s) as Ls. rewrite H in Ls. simpl in Ls. lia.
Qed.

(** What [rstrip] drops is a tail. *)
Lemma rstrip_is_prefix (s : string) : exists t, s = (rstrip s ++ t)%string.
Proof.
  induction s as [|c s [t IH]]; [now exists EmptyString|].
  cbn [rstrip]. destruct (rstrip s) as [|k kept] eqn:E.
  - destruct (isspace c).
    + now exists (String c s).
    + exists t. simpl in *. now rewrite <- IH.
  - exists t. simpl in *. now rewrite <- IH.
Qed.

Lemma has_char_app (c : ascii) (a b : string) :
  has_char c (a ++ b) = has_char c a || has_char c b.
Proof.
  induction a as [|d a IH]; [reflexivity|]. simpl. now rewrite IH, orb_assoc.
Qed.

Lemma has_char_lstrip (c : ascii) (s : string) :
  has_char c s = false -> has_char c (lstrip s) = false.
Proof.
  induction s as [|d s IH]; intros H; [reflexivity|].
  cbn [lstrip]. destruct (isspace d); [|exact H].
  simpl in H. apply orb_false_iff in H as [_ H]. now apply IH.
Qed.

Lemma has_char_rstrip (c : ascii) (s : string) :
  has_char c s = false -> has_char c (rstrip s) = false.
Proof.
  intros H. destruct (rstrip_is_prefix s) as [t E].
  rewrite E, has_char_app in H. now apply orb_false_iff in H as [H _].
Qed.

Lemma has_char_strip (c : ascii) (s : string) :
  has_char c s = false -> has_char c (strip s) = false.
Proof. intros H. now apply has_char_lstrip, has_char_rstrip. Qed.

Lemma has_char_before (c : ascii) (sep s : string) :
  has_char c s = false -> has_char c (before sep s) = false.
Proof.
  induction s as [|d s IH]; intros H; [reflexivity|].
  cbn [before]. destruct (String.prefix sep (String d s)); [reflexivity|].
  simpl in *. apply orb_false_iff in H as [H1 H2]. now rewrite H1, IH.
Qed.

Lemma split_char_clean (sep : ascii) (s : string) :
  Forall (fun piece => has_char sep piece = false) (split_char sep s).
Proof.
  induction s as [|c s IH]; cbn [split_char].
  - now constructor.
  - destruct (Ascii.eqb c sep) eqn:E.
    + now constructor.
    + destruct (split_char sep s) as [|piece pieces].
      * constructor; [|constructor]. simpl. now rewrite E.
      * inversion IH as [|? ? P Ps]; subst. constructor; [|exact Ps].
        simpl. now rewrite E, P.
Qed.

End StripFacts.

Section ContainsFacts.
Import PyStr.

Lemma contains_lstrip_back (n s : string) :
  str_contains n (lstrip s) = true -> str_contains n s = true.
Proof.
  induction s as [|c s IH]; [trivial|].
  cbn [lstrip]. destruct (isspace c); [|trivial].
  intros H. rewrite str_contains_cons, (IH H). apply orb_true_r.
Qed.

Lemma contains_rstrip_back (n s : string) :
  str_contains n (rstrip s) = true -> str_contains n s = true.
Proof.
  intros H. destruct (rstrip_is_prefix s) as [t E]. rewrite E.
  now apply str_contains_app_l.
Qed.

Lemma contains_strip_back (n s : string) :
  str_contains n (strip s) = true -> str_contains n s = true.
Proof. intros H. now apply contains_rstrip_back, contains_lstrip_back. Qed.

(** The text before the first [//] has no [//]. *)
Lemma before_slashes_clean (s : string) : str_contains "//" (before "//" s) = false.
Proof.
  induction s as [|c s IH]; [reflexivity|].
  cbn [before]. destruct (String.prefix "//" (String c s)) eqn:P; [reflexivity|].
  rewrite str_contains_cons, IH, orb_false_r.
  destruct s as [|d s].
  - cbn [before String.prefix]. now destruct (Ascii.ascii_dec "/" c).
  - cbn [before]. destruct (String.prefix "//" (String d s)) eqn:Q.
    + cbn [String.prefix]. now destruct (Ascii.ascii_dec "/" c).
    + cbn [String.prefix] in P |- *. destruct (Ascii.ascii_dec "/" c); [|reflexivity].
      destruct (Ascii.ascii_dec "/" d); [|reflexivity].
      rewrite prefix_nil in P. discriminate.
Qed.

Lemma contains_lstrip_keep (x : ascii) (n s : string) :
  isspace x = false ->
  str_contains (String x n) s = true -> str_contains (String x n) (lstrip s) = true.
Proof.
  intros X. induction s as [|c s IH]; [trivial|].
  cbn [lstrip]. destruct (isspace c) eqn:S; [|trivial].
  rewrite str_contains_cons. intros H. apply orb_true_iff in H as [H | H].
  - simpl in H. destruct (Ascii.ascii_dec x c) as [->|]; [congruence | discriminate].
  - now apply IH.
Qed.

Lemma prefix_rstrip_keep (n s : string) :
  (forall c, has_char c n = true -> isspace c = false) ->
  String.prefix n s = true -> String.prefix n (rstrip s) = true.
Proof.
  revert s. induction n as [|x n IH]; intros s F H.
  - apply prefix_nil.
  - destruct s as [|c s]; [discriminate|]. simpl in H.
    destruct (Ascii.ascii_dec x c) as [<-|]; [|discriminate].
    rewrite rstrip_cons_solid.
    + simpl. destruct (Ascii.ascii_dec x x); [|congruence].
      apply IH; [|exact H]. intros d D. apply F. simpl. rewrite D. apply orb_true_r.
    + apply F. simpl. now rewrite Ascii.eqb_refl.
Qed.

Lemma contains_rstrip_keep (x : ascii) (n s : string) :
  (forall c, has_char c (String x n) = true -> isspace c = false) ->
  str_contains (String x n) s = true -> str_contains (String x n) (rstrip s) = true.
Proof.
  intros F. induction s as [|c s IH]; [trivial|].
  rewrite str_contains_cons. intros H. apply orb_true_iff in H as [H | H].
  - apply prefix_rstrip_keep in H; [|exact F].
    destruct (rstrip (String c s)) as [|k kept]; [discriminate|].
    rewrite str_contains_cons, H. reflexivity.
  - specialize (IH H).
    rewrite rstrip_cons_kept.
    + rewrite str_contains_cons, IH. apply orb_true_r.
    + intros E. rewrite E in IH. discriminate.
Qed.

Lemma contains_strip_keep (x : ascii) (n s : string) :
  (forall c, has_char c (String x n) = true -> isspace c = false) ->
  str_contains (String x n) s = true -> str_contains (String x n) (strip s) = true.
Proof.
  intros F H. unfold strip. apply contains_lstrip_keep.
  - apply F. simpl. now rewrite Ascii.eqb_refl.
  - now apply contains_rstrip_keep.
Qed.

Lemma isspace_lower_char (c : ascii) : isspace (lower_char c) = isspace c.
Proof.
  destruct c as [[] [] [] [] [] [] [] []]; reflexivity.
Qed.

Lemma lower_lstrip (s : string) : lower (lstrip s) = lstrip (lower s).
Proof.
  induction s as [|c s IH]; [reflexivity|].
  cbn [lstrip lower]. rewrite isspace_lower_char.
  destruct (isspace c); [exact IH | reflexivity].
Qed.

Lemma lower_rstrip (s : string) : lower (rstrip s) = rstrip (lower s).
Proof.
  induction s as [|c s IH]; [reflexivity|].
  cbn [rstrip lower]. rewrite <- IH, isspace_lower_char.
  destruct (rstrip s); [destruct (isspace c)|]; reflexivity.
Qed.

Lemma lower_strip (s : string) : lower (strip s) = strip (lower s).
Proof. unfold strip. now rewrite lower_lstrip, lower_rstrip. Qed.

Lemma lower_app (a b : string) : lower (a ++ b) = (lower a ++ lower b)%string.
Proof. induction a as [|c a IH]; simpl; [reflexivity | now rewrite IH]. Qed.

Lemma http_has_no_space (c : ascii) :
  has_char c "http" = true -> isspace c = false.
Proof.
  cbn [has_char]. rewrite orb_false_r. intros H.
  repeat (apply orb_true_iff in H as [H | H]);
    apply Ascii.eqb_eq in H; subst; reflexivity.
Qed.

End ContainsFacts.

Section MinifyFacts.
Import PyStr Scripts.

Lemma minify_line_app (acc : list string) (line : string) :
  minify_line acc line = acc ++ (if truthy (kept_of line) then [kept_of line] else []).
Proof.
  unfold minify_line, kept_of.
  destruct (truthy _); [reflexivity | now rewrite app_nil_r].
Qed.

Lemma fold_minify (lines acc : list string) :
  fold_left minify_line lines acc
  = acc ++ filter truthy (map kept_of lines).
Proof.
  revert acc. induction lines as [|l lines IH]; intros acc; simpl.
  - now rewrite app_nil_r.
  - rewrite IH, minify_line_app. destruct (truthy (kept_of l)).
    + now rewrite <- app_assoc.
    + now rewrite app_nil_r.
Qed.

Lemma kept_of_tidy (line : string) :
  truthy (kept_of line) = true -> tidy (kept_of line).
Proof.
  intros T. split; [|split; [|split]].
  - intros E. rewrite E in T. discriminate.
  - apply strip_lstrip_fixed.
  - apply strip_rstrip_fixed.
  - unfold kept_of.
    destruct (str_contains "//" line && negb (str_contains "http" (lower line))) eqn:C.
    + intros H. apply contains_strip_back in H.
      now rewrite before_slashes_clean in H.
    + intros H. apply contains_strip_back in H. rewrite H in C. simpl in C.
      apply negb_false_iff in C.
      rewrite lower_strip. apply contains_strip_keep; [|exact C].
      exact http_has_no_space.
Qed.

Lemma kept_of_clean (c : ascii) (line : string) :
  has_char c line = false -> has_char c (kept_of line) = false.
Proof.
  intros H. unfold kept_of. apply has_char_strip.
  destruct (_ && _); [now apply has_char_before | exact H].
Qed.

Lemma kept_lines_tidy (lines : list string) :
  Forall tidy (filter truthy (map kept_of lines)).
Proof.
  induction lines as [|l lines IH]; simpl; [constructor|].
  destruct (truthy (kept_of l)) eqn:T; [|exact IH].
  constructor; [now apply kept_of_tidy | exact IH].
Qed.

Lemma kept_lines_clean (c : ascii) (lines : list string) :
  Forall (fun l => has_char c l = false) lines ->
  Forall (fun l => has_char c l = false) (filter truthy (map kept_of lines)).
Proof.
  induction 1 as [|l lines H _ IH]; simpl; [constructor|].
  destruct (truthy (kept_of l)); [|exact IH].
  constructor; [now apply kept_of_clean | exact IH].
Qed.

Lemma concat_cons2 (sep p q : string) (rest : list string) :
  String.concat sep (p :: q :: rest)
  = (p ++ sep ++ String.concat sep (q :: rest))%string.
Proof. reflexivity. Qed.

Lemma concat_nonempty (sep p : string) (rest : list string) :
  p <> EmptyString -> String.concat sep (p :: rest) <> EmptyString.
Proof.
  intros H. destruct rest as [|q rest]; [exact H|].
  rewrite concat_cons2. destruct p; [congruence | discriminate].
Qed.

Lemma concat_clean (c : ascii) (pieces : list string) :
  has_char c " " = false ->
  Forall (fun l => has_char c l = false) pieces ->
  has_char c (String.concat " " pieces) = false.
Proof.
  intros S. induction 1 as [|p pieces H F IH]; [reflexivity|].
  destruct pieces as [|q rest]; [exact H|].
  rewrite concat_cons2, !has_char_app, H, S, IH. reflexivity.
Qed.

Lemma concat_rstrip (pieces : list string) :
  Forall tidy pieces ->
  rstrip (String.concat " " pieces) = String.concat " " pieces.
Proof.
  induction 1 as [|p pieces H F IH]; [reflexivity|].
  destruct pieces as [|q rest]; [apply H|].
  rewrite concat_cons2.
  assert (N : String.concat " " (q :: rest) <> EmptyString).
  { inversion F as [|? ? Hq _]; subst. apply concat_nonempty, Hq. }
  assert (R : rstrip (" " ++ String.concat " " (q :: rest))
              = (" " ++ String.concat " " (q :: rest))%string).
  { change (" " ++ String.concat " " (q :: rest))%string
      with (String " " (String.concat " " (q :: rest))).
    rewrite rstrip_cons_kept; rewrite IH; [reflexivity | exact N]. }
  rewrite rstrip_app; rewrite R; [reflexivity | discriminate].
Qed.

Lemma concat_lstrip (pieces : list string) :
  Forall tidy pieces ->
  lstrip (String.concat " " pieces) = String.concat " " pieces.
Proof.
  intros F. destruct F as [|p pieces H F]; [reflexivity|].
  destruct pieces as [|q rest]; [apply H|].
  rewrite concat_cons2. apply lstrip_app_solid; apply H.
Qed.

Lemma concat_slashes (pieces : list string) :
  str_contains "//" (String.concat " " pieces) = true ->
  Exists (fun p => str_contains "//" p = true) pieces.
Proof.
  induction pieces as [|p pieces IH]; [discriminate|].
  destruct pieces as [|q rest]; [now constructor|].
  rewrite concat_cons2.
  change (" " ++ String.concat " " (q :: rest))%string
    with (String " " (String.concat " " (q :: rest))).
  rewrite (str_contains_app_foreign "/" "/" p _ " " eq_refl).
  intros H. apply orb_true_iff in H as [H | H]; [now constructor|].
  rewrite str_contains_cons in H. apply Exists_cons_tl, IH.
  exact H.
Qed.

Lemma concat_lower_contains (n : string) (pieces : list string) :
  Exists (fun p => str_contains n (lower p) = true) pieces ->
  str_contains n (lower (String.concat " " pieces)) = true.
Proof.
  induction 1 as [p pieces H | p pieces H IH].
  - destruct pieces as [|q rest]; [exact H|].
    rewrite concat_cons2, lower_app. now apply str_contains_app_l.
  - destruct pieces as [|q rest]; [inversion H|].
    rewrite concat_cons2, !lower_app. now apply str_contains_app_r, str_contains_app_r.
Qed.

Lemma minify_js_pieces (js_content : string) :
  minify_js js_content
  = String.concat " " (filter truthy (map kept_of (split_char newline js_content))).
Proof. unfold minify_js. now rewrite fold_minify. Qed.

Lemma minified_one_line (js_content : string) :
  has_char newline (minify_js js_content) = false.
Proof.
  rewrite minify_js_pieces. apply concat_clean; [reflexivity|].
  apply kept_lines_clean, split_char_clean.
Qed.

Lemma minified_stripped (js_content : string) :
  strip (minify_js js_content) = minify_js js_content.
Proof.
  rewrite minify_js_pieces. unfold strip.
  rewrite concat_rstrip, concat_lstrip; auto using kept_lines_tidy.
Qed.

Lemma minified_slashes_need_http (js_content : string) :
  str_contains "//" (minify_js js_content) = true ->
  str_contains "http" (lower (minify_js js_content)) = true.
Proof.
  rewrite minify_js_pieces. intros H. apply concat_slashes in H.
  apply concat_lower_contains.
  pose proof (kept_lines_tidy (split_char newline js_content)) as T.
  rewrite Exists_exists in *. destruct H as (p & Hin & Hp).
  exists p. split; [exact Hin|].
  rewrite Forall_forall in T. now apply (T p Hin).
Qed.

Lemma split_char_one_piece (sep : ascii) (s : string) :
  has_char sep s = false -> split_char sep s = [s].
Proof.
  induction s as [|c s IH]; [reflexivity|]. simpl.
  intros H. apply orb_false_iff in H as [E H]. now rewrite E, (IH H).
Qed.

End MinifyFacts.

(** X18: the text [minify_js] returns is one line, with no line feed in
    it, and has no white space at either end. *)
Theorem minified_script_is_one_stripped_line (js_content : string) :
  PyStr.has_char PyStr.newline (Scripts.minify_js js_content) = false /\
  PyStr.strip (Scripts.minify_js js_content) = Scripts.minify_js js_content.
Proof. split; [apply minified_one_line | apply minified_stripped]. Qed.

(** X19: a [//] is left in the text [minify_js] returns only if the text
    holds [http], in some letter case: short of a line with [http], every
    comment marker is gone with what followed it on its line. *)
Theorem comment_marker_survives_only_with_http (js_content : string) :
  str_contains "//" (Scripts.minify_js js_content) = true ->
  str_contains "http" (PyStr.lower (Scripts.minify_js js_content)) = true.
Proof. apply minified_slashes_need_http. Qed.

Lemma comment_marker_survives_only_with_http_witness :
  str_contains "http"
    (PyStr.lower (Scripts.minify_js "var u = 'HTTP://x'; // keep")) = true.
Proof.
  apply (comment_marker_survives_only_with_http "var u = 'HTTP://x'; // keep").
  reflexivity.
Defined.

(** X20: [minify_js] is idempotent: a minified text is returned as it
    is. *)
Theorem minify_js_is_idempotent (js_content : string) :
  Scripts.minify_js (Scripts.minify_js js_content) = Scripts.minify_js js_content.
Proof.
  set (out := Scripts.minify_js js_content).
  assert (L : PyStr.has_char PyStr.newline out = false) by apply minified_one_line.
  assert (S : PyStr.strip out = out) by apply minified_stripped.
  assert (H : str_contains "//" out = true ->
              str_contains "http" (PyStr.lower out) = true)
    by apply minified_slashes_need_http.
  unfold Scripts.minify_js at 1.
  rewrite (split_char_one_piece _ _ L). cbn [fold_left].
  unfold Scripts.minify_line.
  assert (C : str_contains "//" out && negb (str_contains "http" (PyStr.lower out))
              = false).
  { destruct (str_contains "//" out); [|reflexivity]. now rewrite (H eq_refl). }
  rewrite C, S. destruct out; reflexivity.
Qed.

(* ===================================================================== *)
(** ** Further properties: the renaming of script names *)
(* ===================================================================== *)

Lemma replace_absent (old new s : string) :
  str_contains old s = false -> PyStr.replace old new s = s.
Proof.
  unfold PyStr.replace. induction s as [|c s IH]; intros H; [reflexivity|].
  rewrite str_contains_cons in H. apply orb_false_iff in H as [P C].
  cbn [PyStr.replace_skip]. now rewrite P, (IH C).
Qed.

Lemma replace_all_absent (pairs : list (string * string)) (s : string) :
  (forall name, In name (map fst pairs) -> str_contains name s = false) ->
  fold_left (fun content '(original, obfuscated) =>
               PyStr.replace original obfuscated content) pairs s = s.
Proof.
  induction pairs as [|[original obfuscated] pairs IH]; intros H; [reflexivity|].
  cbn [fold_left]. rewrite replace_absent.
  - apply IH. intros name Hin. apply H. now right.
  - apply H. now left.
Qed.

(** X21: a script in which none of the twelve names occurs is returned by
    [obfuscate_js_variables] as it is, whatever the salt and the digest. *)
Theorem script_without_the_names_is_unchanged
        (md5_hexdigest : string -> string) (obfuscation_salt js_content : string) :
  (forall name, In name Scripts.replaced_names -> str_contains name js_content = false) ->
  Scripts.obfuscate_js_variables md5_hexdigest obfuscation_salt js_content = js_content.
Proof.
  intros H. unfold Scripts.obfuscate_js_variables.
  apply replace_all_absent. exact H.
Qed.

Lemma script_without_the_names_is_unchanged_witness :
  Scripts.obfuscate_js_variables (fun _ => "0123456789abcdef0123456789abcdef")
                                 "salt" "let total = a + b;"
  = "let total = a + b;".
Proof.
  apply script_without_the_names_is_unchanged.
  intros name H. simpl in H.
  repeat (destruct H as [<- | H]; [reflexivity|]). contradiction.
Defined.

(* ===================================================================== *)
(** ** Further properties: the names the template processor leaves alone *)
(* ===================================================================== *)

(** X22: a class name is left alone as soon as it begins with one of the
    framework prefixes, so every name that extends a name left alone is
    left alone too; an id is left alone only if it is one of the three
    framework ids, and no longer when anything is added to it. *)
Theorem framework_names_by_prefix_ids_exactly (name more : string) :
  (Template._is_framework_class name = true ->
   Template._is_framework_class (name ++ more) = true) /\
  (Template._is_framework_id name = true ->
   more <> EmptyString ->
   Template._is_framework_id (name ++ more) = false).
Proof.
  split.
  - unfold Template._is_framework_class. rewrite !existsb_exists.
    intros (prefix & Hin & P). exists prefix. split; [exact Hin|].
    now apply prefix_app_keep.
  - intros H N. apply pystr_mem_In in H. apply pystr_mem_not_In. intros Hin.
    assert (L : String.length (name ++ more) > String.length name).
    { rewrite length_app_str. destruct more; [congruence | simpl; lia]. }
    unfold Template.framework_ids in *.
    destruct H as [<- | [<- | [<- | []]]];
      destruct Hin as [E | [E | [E | []]]];
      cbn [append] in E; try discriminate E;
      cbn [append] in L; rewrite <- E in L; simpl in L; lia.
Qed.

Lemma framework_names_by_prefix_ids_exactly_witness :
  Template._is_framework_class "formula-panel" = true /\
  Template._is_framework_id "navbarNav2" = false.
Proof.
  split.
  - apply (proj1 (framework_names_by_prefix_ids_exactly "form" "ula-panel")).
    reflexivity.
  - apply (proj2 (framework_names_by_prefix_ids_exactly "navbarNav" "2"));
      [reflexivity | discriminate].
Defined.
